(** * SitemapSurveyorBot: the sitemap acquisition and diffing engine

    A shallow embedding of [sitemap_checker.py]: the known-URL store
    ([load_known_urls], [save_known_urls]), the fetcher ([fetch_sitemap]),
    the parser ([parse_sitemap]) and the orchestrator ([check_sitemaps]).
    Of [main.py] and [bot.py] it holds the form of the web page
    ([update_sitemaps]), the configuration file ([get_sitemap_urls],
    [update_sitemap_urls]) and the name of the file of a notification.

    Conventions of the embedding.
    - A Python [str] is a [string], one [ascii] per code point; text is
      restricted to code points below 256.
    - A Python [set] of strings is a [gset string]; [list(s)] on a set is
      [elements s], whose order is as unspecified as Python's.
    - A Python [dict] is a [gmap]; JSON numbers are integers.
    - Effects (disk, network, log) are threaded through a [world]; a
      Python exception is the [inl] outcome of a computation in the monad
      [M], and the world keeps what was done before it was raised.
    - The libraries the program calls ([requests], [lxml], [json],
      [urllib.parse]) are parameters of the model, gathered in [libs]; the
      four regular expressions of the source are run by a backtracking
      matcher.
    - Python's recursion limit is the [depth] argument of the two
      recursive functions: a call at depth [0] raises [RecursionError],
      which [except Exception] catches as it does in Python. *)

From stdpp Require Import gmap strings list fin_maps pretty.
From Stdlib Require Import Ascii String.

Set Warnings "-register-all".
Set Warnings "-clear-no-such-hyp".

Local Open Scope string_scope.
Local Open Scope list_scope.

(** ** Strings, as the [str] methods the source uses *)

Module PyStr.

(** [c.lower()] on one code point below 256. *)
Definition lower_ascii (c : ascii) : ascii :=
  let n := N_of_ascii c in
  if ((65 <=? n) && (n <=? 90))%N then ascii_of_N (n + 32)
  else if ((192 <=? n) && (n <=? 222) && negb (n =? 215))%N
       then ascii_of_N (n + 32)
  else c.

Fixpoint lower (s : string) : string :=
  match s with
  | EmptyString => EmptyString
  | String c s' => String (lower_ascii c) (lower s')
  end.

(** [s.startswith(p)] *)
Definition startswith (s p : string) : bool := String.prefix p s.

(** [needle in hay] *)
Fixpoint contains (needle hay : string) : bool :=
  String.prefix needle hay ||
  match hay with
  | EmptyString => false
  | String _ hay' => contains needle hay'
  end.

(** [s.endswith(p)] *)
Definition endswith (s p : string) : bool :=
  let n := String.length s in
  let m := String.length p in
  (m <=? n)%nat && String.eqb (String.substring (n - m) m s) p.

(** [s[:n]] *)
Definition slice_to (n : nat) (s : string) : string :=
  String.substring 0 n s.

(** [c.isspace()], which is also the class [\s] of [re] on [str]. *)
Definition isspace (c : ascii) : bool :=
  let n := N_of_ascii c in
  (((9 <=? n) && (n <=? 13)) || ((28 <=? n) && (n <=? 32))
   || (n =? 133) || (n =? 160))%N.

End PyStr.

(** ** Regular expressions, as [re.findall] runs them *)

Module Re.

Inductive regex :=
| Eps
| Chr (p : ascii → bool)
| Cat (r1 r2 : regex)
| Alt (r1 r2 : regex)
| Star (greedy : bool) (r : regex)
| Grp (r : regex).

Definition Plus (greedy : bool) (r : regex) : regex :=
  Cat r (Star greedy r).
Definition Opt (r : regex) : regex := Alt r Eps.

Definition lit (c : ascii) : regex := Chr (Ascii.eqb c).
(** a literal under the flag [(?i)] *)
Definition ilit (c : ascii) : regex :=
  Chr (λ x, Ascii.eqb (PyStr.lower_ascii x) (PyStr.lower_ascii c)).
Definition none_of (cs : list ascii) : regex :=
  Chr (λ x, negb (existsb (Ascii.eqb x) cs)).
Definition one_of (cs : list ascii) : regex :=
  Chr (λ x, existsb (Ascii.eqb x) cs).

Fixpoint lits (s : string) : regex :=
  match s with
  | EmptyString => Eps
  | String c s' => Cat (lit c) (lits s')
  end.
Fixpoint ilits (s : string) : regex :=
  match s with
  | EmptyString => Eps
  | String c s' => Cat (ilit c) (ilits s')
  end.

(** The backtracking matcher, in continuation-passing style: [k] is what
    remains to be matched after [r]; the first success in the order
    Python tries the alternatives wins. The state is the text left and
    the text of group 1. *)
Fixpoint rmatch {A} (r : regex) (s : string) (g : option string)
    (k : string → option string → option A) {struct r} : option A :=
  match r with
  | Eps => k s g
  | Chr p =>
      match s with
      | String c s' => if p c then k s' g else None
      | EmptyString => None
      end
  | Cat r1 r2 => rmatch r1 s g (λ s' g', rmatch r2 s' g' k)
  | Alt r1 r2 =>
      match rmatch r1 s g k with
      | Some x => Some x
      | None => rmatch r2 s g k
      end
  | Star greedy r1 =>
      (fix iter (n : nat) (s : string) (g : option string) : option A :=
         if greedy then
           match
             match n with
             | O => None
             | S n' =>
                 rmatch r1 s g (λ s' g',
                   if (String.length s' <? String.length s)%nat
                   then iter n' s' g' else None)
             end
           with
           | Some x => Some x
           | None => k s g
           end
         else
           match k s g with
           | Some x => Some x
           | None =>
               match n with
               | O => None
               | S n' =>
                   rmatch r1 s g (λ s' g',
                     if (String.length s' <? String.length s)%nat
                     then iter n' s' g' else None)
               end
           end) (String.length s) s g
  | Grp r1 =>
      rmatch r1 s g (λ s' _,
        k s' (Some (String.substring 0
                      (String.length s - String.length s') s)))
  end.

(** A match of [r] at the start of [s]: the number of characters it
    takes and the text of group 1. *)
Definition match_here (r : regex) (s : string) : option (nat * string) :=
  rmatch r s None (λ s' g,
    Some (String.length s - String.length s', default EmptyString g)).

(** [re.findall(r, s)] for a pattern with one group: the matches do not
    overlap, the scan goes left to right; [skip] counts the characters
    of the last match still to be passed. *)
Fixpoint findall_skip (r : regex) (skip : nat) (s : string) : list string :=
  match skip with
  | S skip' =>
      match s with
      | EmptyString => []
      | String _ s' => findall_skip r skip' s'
      end
  | O =>
      match match_here r s with
      | Some (n, g) =>
          g :: match s with
               | EmptyString => []
               | String _ s' => findall_skip r (Nat.pred n) s'
               end
      | None =>
          match s with
          | EmptyString => []
          | String _ s' => findall_skip r 0 s'
          end
      end
  end.

Definition findall (r : regex) (s : string) : list string :=
  findall_skip r 0 s.

(** the two quote characters, ['] and the double quote *)
Definition quotes : list ascii := ["'"%char; ascii_of_N 34].

(** [r'(?i)sitemap:\s*(https?://\S+)'] *)
Definition robots_sitemap_re : regex :=
  Cat (ilits "sitemap:")
 (Cat (Star true (Chr PyStr.isspace))
      (Grp (Cat (ilits "http")
           (Cat (Opt (ilit "s"))
           (Cat (lits "://")
                (Plus true (Chr (λ c, negb (PyStr.isspace c))))))))).

(** [r'href=[\'"]([^\'"]*sitemap[^\'"]*\.xml)[\'"]'] *)
Definition html_sitemap_link_re : regex :=
  Cat (lits "href=")
 (Cat (one_of quotes)
 (Cat (Grp (Cat (Star true (none_of quotes))
           (Cat (lits "sitemap")
           (Cat (Star true (none_of quotes))
                (lits ".xml")))))
      (one_of quotes))).

(** [r'href=[\'"]([^\'"]*?(?:\/[^\'"]*?)+?(?:\.html?|\/|\.php))[\'"]'] *)
Definition html_href_re : regex :=
  Cat (lits "href=")
 (Cat (one_of quotes)
 (Cat (Grp (Cat (Star false (none_of quotes))
           (Cat (Plus false (Cat (lit "/") (Star false (none_of quotes))))
                (Alt (Cat (lits ".htm") (Opt (lit "l")))
                (Alt (lit "/") (lits ".php"))))))
      (one_of quotes))).

(** [r'<loc>(https?://[^<]+)</loc>'] and its group *)
Definition loc_body : regex :=
  Cat (lits "http")
 (Cat (Opt (lit "s"))
 (Cat (lits "://")
      (Plus true (none_of ["<"%char])))).

Definition loc_re : regex :=
  Cat (lits "<loc>") (Cat (Grp loc_body) (lits "</loc>")).

End Re.

(** ** Exceptions, JSON values, the world *)

Inductive exn_class :=
| RequestException | JSONDecodeError | XMLSyntaxError | OSError
| TypeError | KeyError | ValueError | RecursionError.

(** An exception: its class and [str(e)]. *)
Record exn := Exn { exn_cls : exn_class; exn_str : string }.

(** [except Exception], [except requests.RequestException] and
    [except json.JSONDecodeError] *)
Definition any_exception (e : exn) : bool := true.
Definition is_request_exception (e : exn) : bool :=
  match exn_cls e with RequestException => true | _ => false end.
Definition is_json_decode_error (e : exn) : bool :=
  match exn_cls e with JSONDecodeError => true | _ => false end.

(** What [json.load] returns. *)
Inductive json :=
| JNull
| JBool (b : bool)
| JInt (z : Z)
| JStr (s : string)
| JList (l : list json)
| JDict (d : gmap string json).

Inductive level := DEBUG | INFO | WARNING | ERROR.

Inductive log_arg :=
| LStr (s : string)
| LNat (n : nat)
| LSet (u : gset string).

(** A call of [logger]: the level, the text of the f-string as the source
    has it, and the values of its fields in order. *)
Record log_record := LogRecord {
  log_level : level;
  log_fmt : string;
  log_args : list log_arg
}.

Inductive node := File (content : string) | Dir.

Record world := World {
  files : gmap string node;
  read_denied : gset string;
  write_denied : gset string;
  (** the GET requests sent so far, oldest first *)
  sent : list string;
  (** the log, oldest first *)
  logged : list log_record
}.

Record response := Response {
  status_code : nat;
  reason : string;
  resp_url : string;
  content_type_header : option string;
  text : string
}.

(** An element of a parsed document: namespace, local name and children,
    a child being a text node or an element. *)
Inductive element :=
| Element (ns : string) (name : string) (children : list (string + element)).

Record url_parts := UrlParts { scheme : string; netloc : string }.

(** The libraries. [requests_get n url] answers the request number [n] of
    the run, so that a site may answer differently over time. *)
Record libs := Libs {
  json_loads : string → exn + json;
  json_dumps : json → exn + string;
  requests_get : nat → string → exn + response;
  etree_fromstring : string → exn + element;
  urlparse : string → exn + url_parts;
  urljoin : string → string → exn + string;
  recursion_limit : nat
}.

(** ** The monad of effects *)

Definition M (A : Type) : Type := world → (exn + A) * world.

#[global] Instance M_ret : MRet M := λ A x w, (inr x, w).
#[global] Instance M_bind : MBind M := λ A B f m w,
  match m w with
  | (inl e, w') => (inl e, w')
  | (inr x, w') => f x w'
  end.

Definition raise {A} (e : exn) : M A := λ w, (inl e, w).

Definition lift {A} (r : exn + A) : M A := λ w, (r, w).

(** [try: m except C as e: h e] *)
Definition try_except {A} (m : M A) (C : exn → bool) (h : exn → M A) : M A :=
  λ w,
    match m w with
    | (inl e, w') => if C e then h e w' else (inl e, w')
    | (inr x, w') => (inr x, w')
    end.

Definition logger (l : level) (fmt : string) (args : list log_arg) : M unit :=
  λ w, (inr (),
        World (files w) (read_denied w) (write_denied w) (sent w)
              (logged w ++ [LogRecord l fmt args])).

Definition set_files (f : gmap string node) (w : world) : world :=
  World f (read_denied w) (write_denied w) (sent w) (logged w).

(** ** The file system *)

Definition os_error (msg path : string) : exn :=
  Exn OSError (msg +:+ ": '" +:+ path +:+ "'").

Definition os_path_exists (p : string) : M bool :=
  λ w, (inr (bool_decide (is_Some (files w !! p))), w).

(** [open(p, 'r')] followed by [read()] *)
Definition read_file (p : string) : M string :=
  λ w,
    match files w !! p with
    | None => (inl (os_error "[Errno 2] No such file or directory" p), w)
    | Some Dir => (inl (os_error "[Errno 21] Is a directory" p), w)
    | Some (File c) =>
        if decide (p ∈ read_denied w)
        then (inl (os_error "[Errno 13] Permission denied" p), w)
        else (inr c, w)
    end.

(** [open(p, 'w')]: the file is created, or emptied *)
Definition open_write (p : string) : M unit :=
  λ w,
    match files w !! p with
    | Some Dir => (inl (os_error "[Errno 21] Is a directory" p), w)
    | _ =>
        if decide (p ∈ write_denied w)
        then (inl (os_error "[Errno 13] Permission denied" p), w)
        else (inr (), set_files (<[p := File EmptyString]> (files w)) w)
    end.

(** [f.write(c)] on a file just opened for writing at [p] *)
Definition write_opened (p c : string) : M unit :=
  λ w, (inr (), set_files (<[p := File c]> (files w)) w).

(** [os.replace(src, dst)] *)
Definition os_replace (src dst : string) : M unit :=
  λ w,
    match files w !! src with
    | None => (inl (os_error "[Errno 2] No such file or directory" src), w)
    | Some n =>
        match files w !! dst, n with
        | Some Dir, File _ => (inl (os_error "[Errno 21] Is a directory" dst), w)
        | Some (File _), Dir => (inl (os_error "[Errno 20] Not a directory" dst), w)
        | _, _ =>
            if decide (dst ∈ write_denied w)
            then (inl (os_error "[Errno 13] Permission denied" dst), w)
            else (inr (), set_files (<[dst := n]> (delete src (files w))) w)
        end
    end.

(** ** Python operations on a value loaded from JSON *)

Definition type_name (v : json) : string :=
  match v with
  | JNull => "NoneType"
  | JBool _ => "bool"
  | JInt _ => "int"
  | JStr _ => "str"
  | JList _ => "list"
  | JDict _ => "dict"
  end.

Definition isinstance_dict (v : json) : bool :=
  match v with JDict _ => true | _ => false end.

(** [if v:] *)
Definition truthy (v : json) : bool :=
  match v with
  | JNull => false
  | JBool b => b
  | JInt z => negb (z =? 0)%Z
  | JStr s => negb (String.eqb s EmptyString)
  | JList l => match l with [] => false | _ => true end
  | JDict d => negb (bool_decide (d = ∅))
  end.

Definition json_eq_str (v : json) (k : string) : bool :=
  match v with JStr s => String.eqb s k | _ => false end.

(** [k in v] for a string [k] *)
Definition py_contains (v : json) (k : string) : exn + bool :=
  match v with
  | JDict d => inr (bool_decide (is_Some (d !! k)))
  | JList l => inr (existsb (λ x, json_eq_str x k) l)
  | JStr s => inr (PyStr.contains k s)
  | _ => inl (Exn TypeError
                ("argument of type '" +:+ type_name v +:+ "' is not iterable"))
  end.

(** [v[k] = x] for a string [k] *)
Definition py_setitem (v : json) (k : string) (x : json) : exn + json :=
  match v with
  | JDict d => inr (JDict (<[k := x]> d))
  | JList _ => inl (Exn TypeError
                      "list indices must be integers or slices, not str")
  | _ => inl (Exn TypeError
                ("'" +:+ type_name v +:+
                 "' object does not support item assignment"))
  end.

(** [v[k]] for a string [k] *)
Definition py_getitem (v : json) (k : string) : exn + json :=
  match v with
  | JDict d =>
      match d !! k with
      | Some x => inr x
      | None => inl (Exn KeyError ("'" +:+ k +:+ "'"))
      end
  | JList _ => inl (Exn TypeError
                      "list indices must be integers or slices, not str")
  | JStr _ => inl (Exn TypeError "string indices must be integers, not 'str'")
  | _ => inl (Exn TypeError
                ("'" +:+ type_name v +:+ "' object is not subscriptable"))
  end.

(** The members a Python set can hold here: a string, a number (a
    boolean being the number 0 or 1) or [None]. *)
Definition hashable : Type := string + (Z + ()).

Definition hash_of (v : json) : exn + hashable :=
  match v with
  | JStr s => inr (inl s)
  | JInt z => inr (inr (inl z))
  | JBool b => inr (inr (inl (if b then 1 else 0)%Z))
  | JNull => inr (inr (inr ()))
  | _ => inl (Exn TypeError ("unhashable type: '" +:+ type_name v +:+ "'"))
  end.

Fixpoint set_of_list (l : list json) : exn + gset hashable :=
  match l with
  | [] => inr ∅
  | x :: l' =>
      match hash_of x with
      | inl e => inl e
      | inr h =>
          match set_of_list l' with
          | inl e => inl e
          | inr s => inr ({[h]} ∪ s)
          end
      end
  end.

Fixpoint chars_of (s : string) : gset hashable :=
  match s with
  | EmptyString => ∅
  | String c s' => {[inl (String c EmptyString)]} ∪ chars_of s'
  end.

(** [set(v)] *)
Definition py_set (v : json) : exn + gset hashable :=
  match v with
  | JList l => set_of_list l
  | JStr s => inr (chars_of s)
  | JDict d => inr (set_map (D := gset hashable) inl (dom d))
  | _ => inl (Exn TypeError
                ("'" +:+ type_name v +:+ "' object is not iterable"))
  end.

(** ** The parsed document: [root.tag] and the two XPath queries *)

Definition SITEMAP_NS : string := "http://www.sitemaps.org/schemas/sitemap/0.9".

(** [root.tag], in the notation [{namespace}name] of lxml *)
Definition tag (e : element) : string :=
  match e with
  | Element ns name _ =>
      if String.eqb ns EmptyString then name
      else "{" +:+ ns +:+ "}" +:+ name
  end.

Definition is_sm (local : string) (e : element) : bool :=
  match e with
  | Element ns name _ => String.eqb ns SITEMAP_NS && String.eqb name local
  end.

(** The text nodes that [//sm:<parent>/sm:loc/text()] selects below [e],
    in document order; [emit] says that [e] itself is an [sm:loc] child of
    an [sm:<parent>] element. *)
Fixpoint loc_texts (parent : string) (emit : bool) (e : element) : list string :=
  match e with
  | Element _ _ cs =>
      (fix below (cs : list (string + element)) : list string :=
         match cs with
         | [] => []
         | inl t :: cs' => (if emit then [t] else []) ++ below cs'
         | inr c :: cs' =>
             loc_texts parent (is_sm parent e && is_sm "loc" c) c ++ below cs'
         end) cs
  end.

(** [root.xpath('//sm:<parent>/sm:loc/text()', namespaces={'sm': SITEMAP_NS})] *)
Definition xpath_loc_text (parent : string) (root : element) : list string :=
  loc_texts parent false root.

(** ** The known-URL store *)

Definition KNOWN_URLS_FILE : string := "known_urls.json".

Fixpoint for_each {A S} (f : S → A → M S) (s : S) (l : list A) : M S :=
  match l with
  | [] => mret s
  | x :: l' => s' ← f s x; for_each f s' l'
  end.

Section Engine.

Variable L : libs.

Definition load_known_urls : M json :=
  try_except
    (file_exists ← os_path_exists KNOWN_URLS_FILE;
     if file_exists : bool then
       f ← read_file KNOWN_URLS_FILE;
       try_except
         (lift (json_loads L f))
         is_json_decode_error
         (λ json_err,
            logger ERROR "Invalid JSON in {KNOWN_URLS_FILE}: {str(json_err)}"
                   [LStr KNOWN_URLS_FILE; LStr (exn_str json_err)];;
            let backup_file := KNOWN_URLS_FILE +:+ ".bak" in
            logger INFO "Creating backup of corrupted file as {backup_file}"
                   [LStr backup_file];;
            try_except
              (open_write backup_file;;
               original ← read_file KNOWN_URLS_FILE;
               write_opened backup_file original)
              any_exception
              (λ backup_err,
                 logger ERROR "Failed to create backup: {str(backup_err)}"
                        [LStr (exn_str backup_err)]);;
            mret (JDict ∅))
     else mret (JDict ∅))
    any_exception
    (λ e,
       logger ERROR "Error loading known URLs: {str(e)}" [LStr (exn_str e)];;
       mret (JDict ∅)).

Definition save_known_urls (known_urls : json) : M unit :=
  try_except
    (known_urls ←
       (if negb (isinstance_dict known_urls) then
          logger ERROR
            "Expected a dictionary for known_urls, got {type(known_urls)}"
            [LStr ("<class '" +:+ type_name known_urls +:+ "'>")];;
          mret (JDict ∅)
        else mret known_urls);
     dumped ←
       try_except
         (json_data ← lift (json_dumps L known_urls); mret (Some json_data))
         any_exception
         (λ json_err,
            logger ERROR "Cannot serialize known_urls to JSON: {str(json_err)}"
                   [LStr (exn_str json_err)];;
            mret None);
     match dumped with
     | None => mret ()
     | Some json_data =>
         let temp_file := KNOWN_URLS_FILE +:+ ".tmp" in
         open_write temp_file;;
         write_opened temp_file json_data;;
         os_replace temp_file KNOWN_URLS_FILE
     end)
    any_exception
    (λ e, logger ERROR "Error saving known URLs: {str(e)}" [LStr (exn_str e)]).

(** ** The fetcher *)

(** [requests.get(url, headers=headers, timeout=REQUEST_TIMEOUT)]; the
    headers and the timeout are the same in every call. *)
Definition http_get (url : string) : M response :=
  λ w, (requests_get L (List.length (sent w)) url,
        World (files w) (read_denied w) (write_denied w)
              (sent w ++ [url]) (logged w)).

(** [response.raise_for_status()] *)
Definition raise_for_status (r : response) : M unit :=
  let code := status_code r in
  if (400 <=? code)%nat && (code <? 500)%nat then
    raise (Exn RequestException
             (pretty code +:+ " Client Error: " +:+ reason r +:+
              " for url: " +:+ resp_url r))
  else if (500 <=? code)%nat && (code <? 600)%nat then
    raise (Exn RequestException
             (pretty code +:+ " Server Error: " +:+ reason r +:+
              " for url: " +:+ resp_url r))
  else mret ().

Definition recursion_error : exn :=
  Exn RecursionError "maximum recursion depth exceeded".

Definition has_no_xml_marker (content : string) : bool :=
  negb (PyStr.contains "<?xml" content)
  && negb (PyStr.contains "<urlset" content)
  && negb (PyStr.contains "<sitemapindex" content).

(** The second strategy on an HTML page without a sitemap link: the
    robots.txt of the origin, requested directly. [Some c] is
    [return c]; [None] falls through to the end of the function. *)
Definition via_origin_robots (parsed_url : url_parts) : M (option string) :=
  let robots_url :=
    scheme parsed_url +:+ "://" +:+ netloc parsed_url +:+ "/robots.txt" in
  logger INFO
    "No sitemap links found in HTML, checking robots.txt at {robots_url}"
    [LStr robots_url];;
  try_except
    (robots_response ← http_get robots_url;
     let robots_content := text robots_response in
     match Re.findall Re.robots_sitemap_re robots_content with
     | sitemap_ref :: _ =>
         logger INFO "Found sitemap in robots.txt: {sitemap_ref}"
                [LStr sitemap_ref];;
         try_except
           (direct_sitemap_response ← http_get sitemap_ref;
            mret (Some (text direct_sitemap_response)))
           any_exception
           (λ direct_e,
              logger ERROR
                "Error fetching sitemap from robots.txt: {str(direct_e)}"
                [LStr (exn_str direct_e)];;
              mret None)
     | [] =>
         logger INFO "No sitemap references found in robots.txt" [];;
         mret None
     end)
    is_request_exception
    (λ e,
       logger ERROR "Failed to fetch robots.txt: {str(e)}" [LStr (exn_str e)];;
       mret None).

(** Lines 101 to 118: the hosts treated on their own. The result is the
    URL to request and [special_case]. *)
Definition special_cases (url : string) (parsed_url : url_parts)
    : M (string * bool) :=
  let domain := PyStr.lower (netloc parsed_url) in
  if String.eqb domain "github.com"
     && negb (PyStr.contains "sitemap" (PyStr.lower url))
  then
    logger INFO
      "GitHub detected. GitHub restricts sitemap access, using direct page approach"
      [];;
    logger INFO "Using GitHub homepage directly: {url}"
           [LStr "https://github.com/"];;
    mret ("https://github.com/", true)
  else if String.eqb domain "twitter.com" || String.eqb domain "x.com"
  then
    logger WARNING "Twitter/X doesn't provide public sitemaps" [];;
    raise (Exn RequestException "This site doesn't provide public sitemaps")
  else if String.eqb domain "google.com" || String.eqb domain "www.google.com"
  then
    logger INFO "Google detected, using Google Search sitemap" [];;
    mret ("https://www.google.com/sitemap.xml", false)
  else mret (url, false).

(** Lines 120 to 128: [sitemap.xml] is appended to a URL that does not
    look like the address of a sitemap. *)
Definition with_sitemap_path (url : string) (special_case : bool) : M string :=
  let original_url := url in
  if negb (PyStr.endswith url ".xml")
     && negb (PyStr.contains "sitemap" (PyStr.lower url))
     && negb (PyStr.contains "robots.txt" (PyStr.lower url))
     && negb special_case
  then
    let url :=
      if PyStr.endswith url "/" then url +:+ "sitemap.xml"
      else url +:+ "/sitemap.xml" in
    logger INFO
      "URL doesn't appear to be a sitemap URL, trying {url} instead of {original_url}"
      [LStr url; LStr original_url];;
    mret url
  else mret url.

(** In the three definitions below [fetch] is [fetch_sitemap] itself, one
    call deeper. *)

(** Lines 144 to 168: the body of a robots.txt. *)
Definition follow_robots (fetch : string → bool → M string)
    (content : string) (from_robots_redirect : bool) : M string :=
  logger INFO "Parsing robots.txt to find sitemap references" [];;
  let sitemap_urls := Re.findall Re.robots_sitemap_re content in
  match sitemap_urls with
  | sitemap_url :: _ =>
      logger INFO "Found {len(sitemap_urls)} sitemap(s) in robots.txt"
             [LNat (List.length sitemap_urls)];;
      logger INFO "Using first sitemap from robots.txt: {sitemap_url}"
             [LStr sitemap_url];;
      if from_robots_redirect then
        logger WARNING
          "Already redirected from robots.txt, not following another redirect to avoid recursion"
          [];;
        mret content
      else
        logger INFO "Following sitemap from robots.txt (one level only)" [];;
        try_except
          (fetch sitemap_url true)
          any_exception
          (λ e,
             logger ERROR "Error following robots.txt redirect: {str(e)}"
                    [LStr (exn_str e)];;
             mret content)
  | [] =>
      logger WARNING "No sitemaps found in robots.txt" [];;
      raise (Exn RequestException "No sitemaps found in robots.txt")
  end.

(** Lines 170 to 221: a body that is not a robots.txt. *)
Definition sniff (fetch : string → bool → M string) (parsed_url : url_parts)
    (url content : string) (from_robots_redirect : bool) : M string :=
  returned ←
    (if has_no_xml_marker content then
       logger WARNING "Response doesn't appear to contain valid sitemap XML" [];;
       if PyStr.contains "<html" (PyStr.lower content) then
         logger INFO
           "Received HTML instead of XML, looking for sitemap link in HTML..."
           [];;
         match Re.findall Re.html_sitemap_link_re content with
         | sitemap_link :: _ =>
             logger INFO "Found sitemap link in HTML: {sitemap_link}"
                    [LStr sitemap_link];;
             let sitemap_link :=
               if PyStr.startswith sitemap_link "/" then
                 let base_url :=
                   scheme parsed_url +:+ "://" +:+ netloc parsed_url in
                 base_url +:+ sitemap_link
               else sitemap_link in
             logger INFO "Attempting to fetch sitemap from link: {sitemap_link}"
                    [LStr sitemap_link];;
             c ← fetch sitemap_link false;
             mret (Some c)
         | [] =>
             if negb (PyStr.endswith url "robots.txt")
                && negb from_robots_redirect
             then via_origin_robots parsed_url
             else mret None
         end
       else mret None
     else mret None);
  match returned with
  | Some c => mret c
  | None => mret content
  end.

(** Lines 131 to 221: the request and what is made of the answer. *)
Definition request (fetch : string → bool → M string) (parsed_url : url_parts)
    (url : string) (from_robots_redirect : bool) : M string :=
  logger INFO "Sending request to {url}" [LStr url];;
  response ← http_get url;
  let content_type := default EmptyString (content_type_header response) in
  (if negb (PyStr.contains "xml" (PyStr.lower content_type)
            || PyStr.contains "text/plain" (PyStr.lower content_type))
   then
     logger WARNING
       "Response content type '{content_type}' may not be a proper sitemap format"
       [LStr content_type]
   else mret ());;
  raise_for_status response;;
  let content := text response in
  if PyStr.contains "robots.txt" (PyStr.lower url) then
    follow_robots fetch content from_robots_redirect
  else sniff fetch parsed_url url content from_robots_redirect.

(** The body of [fetch_sitemap]. *)
Definition fetch_once (fetch : string → bool → M string) (url : string)
    (from_robots_redirect : bool) : M string :=
  parsed_url ← lift (urlparse L url);
  '(url, special_case) ← special_cases url parsed_url;
  url ← with_sitemap_path url special_case;
  try_except
    (request fetch parsed_url url from_robots_redirect)
    is_request_exception
    (λ e,
       logger ERROR "Error fetching sitemap {url}: {str(e)}"
              [LStr url; LStr (exn_str e)];;
       raise e).

Fixpoint fetch_sitemap (depth : nat) (url : string)
    (from_robots_redirect : bool) : M string :=
  match depth with
  | O => raise recursion_error
  | S depth' => fetch_once (fetch_sitemap depth') url from_robots_redirect
  end.

(** ** The parser *)

(** The HTML branch: the page links made absolute. *)
Definition absolute_html_urls (base_url : string) (html_urls : list string)
    : M (gset string) :=
  for_each
    (λ (urls : gset string) (url : string),
       if PyStr.startswith url "/" then
         absolute_url ← lift (urljoin L base_url url);
         mret (urls ∪ {[absolute_url]})
       else if PyStr.startswith url "http://" || PyStr.startswith url "https://"
       then mret (urls ∪ {[url]})
       else mret urls)
    ∅ html_urls.

Definition looks_like_html (sitemap_content : string) : bool :=
  PyStr.contains "<html" (PyStr.lower sitemap_content)
  && (negb (PyStr.contains "<?xml" sitemap_content)
      && negb (PyStr.contains "<urlset" sitemap_content)).

(** [Some urls] is [return urls]; [None] goes on to the XML parser. *)
Definition parse_html (sitemap_content : string) : M (option (gset string)) :=
  if looks_like_html sitemap_content then
    logger INFO "Content appears to be HTML, extracting URLs from HTML" [];;
    let html_urls := Re.findall Re.html_href_re sitemap_content in
    match html_urls with
    | _ :: _ =>
        logger INFO "Extracted {len(html_urls)} URLs from HTML content"
               [LNat (List.length html_urls)];;
        parsed_content_url ←
          lift (urlparse L (PyStr.slice_to 1000 sitemap_content));
        let base_url :=
          if negb (String.eqb (netloc parsed_content_url) EmptyString) then
            scheme parsed_content_url +:+ "://" +:+ netloc parsed_content_url
          else "https://example.com" in
        urls ← absolute_html_urls base_url html_urls;
        mret (Some urls)
    | [] => mret None
    end
  else mret None.

(** The fallback of the [except] clause; [urls] is still empty when the
    XML parser raises, the only statement of the [try] block that can. *)
Definition regex_fallback (sitemap_content : string) (e : exn)
    : M (gset string) :=
  logger ERROR "Error parsing sitemap XML: {str(e)}" [LStr (exn_str e)];;
  logger INFO "Attempting fallback to regex-based parsing" [];;
  let all_urls := Re.findall Re.loc_re sitemap_content in
  match all_urls with
  | _ :: _ =>
      logger INFO "Regex fallback found {len(all_urls)} URLs"
             [LNat (List.length all_urls)];;
      mret (∅ ∪ list_to_set all_urls)
  | [] => raise e
  end.

Fixpoint parse_sitemap (depth : nat) (sitemap_content : string)
    : M (gset string) :=
  match depth with
  | O => raise recursion_error
  | S depth' =>
      returned ← parse_html sitemap_content;
      match returned with
      | Some urls => mret urls
      | None =>
          try_except
            (root ← lift (etree_fromstring L sitemap_content);
             let is_index := PyStr.endswith (tag root) "sitemapindex" in
             if is_index then
               for_each
                 (λ (urls : gset string) (sitemap : string),
                    try_except
                      (sub_sitemap_content ← fetch_sitemap depth' sitemap false;
                       sub_urls ← parse_sitemap depth' sub_sitemap_content;
                       mret (urls ∪ sub_urls))
                      any_exception
                      (λ sub_e,
                         logger ERROR
                           "Error processing sub-sitemap {sitemap}: {str(sub_e)}"
                           [LStr sitemap; LStr (exn_str sub_e)];;
                         mret urls))
                 ∅ (xpath_loc_text "sitemap" root)
             else
               mret (list_to_set (xpath_loc_text "url" root)))
            any_exception
            (regex_fallback sitemap_content)
      end
  end.

(** ** The orchestrator *)

Record SitemapCheckResult := Result {
  sitemap_url : string;
  total_urls : nat;
  new_urls : list string;
  error : string
}.

Definition with_error (r : SitemapCheckResult) (e : exn) : SitemapCheckResult :=
  Result (sitemap_url r) (total_urls r) (new_urls r) (exn_str e).

(** [current_urls - previous_urls] and [previous_urls - current_urls] *)
Definition new_of (current_urls : gset string) (previous_urls : gset hashable)
    : gset string :=
  filter (λ u, inl u ∉ previous_urls) current_urls.
Definition removed_of (current_urls : gset string)
    (previous_urls : gset hashable) : gset hashable :=
  previous_urls ∖ set_map inl current_urls.

(** [list(current_urls)], as a value of the store *)
Definition stored (current_urls : gset string) : json :=
  JList (JStr <$> elements current_urls).

(** The [except Exception as e] of the loop body. *)
Definition check_failed (result : SitemapCheckResult) (known_urls : json)
    (e : exn) : M (SitemapCheckResult * json) :=
  logger ERROR "Error checking sitemap {sitemap_url}: {str(e)}"
         [LStr (sitemap_url result); LStr (exn_str e)];;
  mret (with_error result e, known_urls).

(** Lines 334 to 337: the identifier is registered when it is new. *)
Definition register (known_urls : json) (sitemap_url : string) : M json :=
  present ← lift (py_contains known_urls sitemap_url);
  if negb present then
    logger INFO "First time checking {sitemap_url}, storing all URLs as known"
           [LStr sitemap_url];;
    lift (py_setitem known_urls sitemap_url (JList []))
  else mret known_urls.

(** Lines 339 to 356: the difference with the stored set. *)
Definition diff (result : SitemapCheckResult) (known_urls : json)
    (current_urls : gset string) : M (SitemapCheckResult * json) :=
  let sitemap_url := sitemap_url result in
  value ← lift (py_getitem known_urls sitemap_url);
  previous_urls ← lift (py_set value);
  let new_urls := new_of current_urls previous_urls in
  let removed_urls := removed_of current_urls previous_urls in
  (if negb (bool_decide (removed_urls = ∅)) then
     logger INFO
       "Found {len(removed_urls)} URLs that were removed from {sitemap_url}"
       [LNat (size removed_urls); LStr sitemap_url]
   else mret ());;
  '(result, known_urls) ←
    (if negb (bool_decide (new_urls = ∅)) then
       let result :=
         Result sitemap_url (total_urls result) (elements new_urls)
                (error result) in
       known_urls ← lift (py_setitem known_urls sitemap_url (stored current_urls));
       logger INFO "Found {len(new_urls)} new URLs in {sitemap_url}"
              [LNat (size new_urls); LStr sitemap_url];;
       logger DEBUG "New URLs: {new_urls}" [LSet new_urls];;
       mret (result, known_urls)
     else
       logger INFO "No new URLs found in {sitemap_url}" [LStr sitemap_url];;
       mret (result, known_urls));
  logger INFO
    "Checked {sitemap_url}: found {len(current_urls)} URLs, {len(new_urls)} new, {len(removed_urls)} removed"
    [LStr sitemap_url; LNat (size current_urls); LNat (size new_urls);
     LNat (size removed_urls)];;
  mret (result, known_urls).

(** [fetch_sitemap(sitemap_url)] then [parse_sitemap], as the caller runs
    them: at the recursion limit. *)
Definition fetch_and_parse (sitemap_url : string) : M (gset string) :=
  sitemap_content ← fetch_sitemap (recursion_limit L) sitemap_url false;
  parse_sitemap (recursion_limit L) sitemap_content.

(** One turn of the loop over [sitemap_urls]. The handler of line 358
    sees [known_urls] as it is when the exception is raised: unchanged
    when [register] raises, registered when [diff] does; the two nested
    handlers are that one handler at these two states. *)
Definition check_one (known_urls : json) (sitemap_url : string)
    : M (SitemapCheckResult * json) :=
  let result := Result sitemap_url 0 [] EmptyString in
  logger INFO "Fetching sitemap from {sitemap_url}" [LStr sitemap_url];;
  fetched ←
    try_except
      (current_urls ← fetch_and_parse sitemap_url; mret (inr current_urls))
      any_exception
      (λ fetch_err,
         logger ERROR "Error fetching/parsing sitemap {sitemap_url}: {str(fetch_err)}"
                [LStr sitemap_url; LStr (exn_str fetch_err)];;
         mret (inl fetch_err));
  match fetched with
  | inl fetch_err => mret (with_error result fetch_err, known_urls)
  | inr current_urls =>
      let result :=
        Result sitemap_url (size current_urls) (new_urls result)
               (error result) in
      try_except
        (known_urls ← register known_urls sitemap_url;
         try_except
           (diff result known_urls current_urls)
           any_exception
           (check_failed result known_urls))
        any_exception
        (check_failed result known_urls)
  end.

(** The body of the loop, on the two variables it updates. *)
Definition loop_body (state : list SitemapCheckResult * json)
    (sitemap_url : string) : M (list SitemapCheckResult * json) :=
  '(result, known_urls) ← check_one state.2 sitemap_url;
  mret (state.1 ++ [result], known_urls).

Definition check_loop (known_urls : json) (sitemap_urls : list string)
    : M (list SitemapCheckResult * json) :=
  for_each loop_body ([], known_urls) sitemap_urls.

(** Lines 302 to 310: the mapping the run starts from. *)
Definition starting_known_urls : M json :=
  file_exists ← os_path_exists KNOWN_URLS_FILE;
  if negb file_exists then mret (JDict ∅)
  else
    try_except load_known_urls any_exception
      (λ e,
         logger ERROR "Error loading known URLs, starting fresh: {str(e)}"
                [LStr (exn_str e)];;
         mret (JDict ∅)).

Definition check_sitemaps (sitemap_urls : list string)
    : M (list SitemapCheckResult) :=
  known_urls ← starting_known_urls;
  '(results, known_urls) ← check_loop known_urls sitemap_urls;
  try_except
    (if truthy known_urls then save_known_urls known_urls else mret ())
    any_exception
    (λ save_err,
       logger ERROR "Failed to save known URLs: {str(save_err)}"
              [LStr (exn_str save_err)]);;
  mret results.

End Engine.

(** ** Notions used by the statements *)

Definition appended (rs : list log_record) (w : world) : world :=
  World (files w) (read_denied w) (write_denied w) (sent w) (logged w ++ rs).

Definition BACKUP_FILE : string := KNOWN_URLS_FILE +:+ ".bak".
Definition TEMP_FILE : string := KNOWN_URLS_FILE +:+ ".tmp".

#[global] Instance node_eq_dec : EqDecision node.
Proof. solve_decision. Defined.

(** a path at which [open(p, 'w')] succeeds *)
Definition writable (w : world) (p : string) : Prop :=
  files w !! p ≠ Some Dir ∧ p ∉ write_denied w.

#[global] Instance writable_dec w p : Decision (writable w p).
Proof. unfold writable. apply _. Defined.

(** a computation that returns in every world *)
Definition never_raises {A} (m : M A) : Prop :=
  ∀ w, ∃ x w', m w = (inr x, w').

(** the world in which a turn of the loop fetches: the first record of
    the turn is in the log *)
Definition fetching (sitemap_url : string) (w : world) : world :=
  appended
    [LogRecord INFO "Fetching sitemap from {sitemap_url}" [LStr sitemap_url]]
    w.

(** An outcome whose exception, if any, has a message. *)
Definition explained {A} (r : exn + A) : Prop :=
  ∀ e, r = inl e → exn_str e ≠ EmptyString.

(** The exceptions of the libraries have a message. *)
Record libs_explain (L : libs) : Prop := LibsExplain {
  requests_explain : ∀ n url, explained (requests_get L n url);
  etree_explain : ∀ c, explained (etree_fromstring L c);
  urlparse_explain : ∀ url, explained (urlparse L url);
  urljoin_explain : ∀ base url, explained (urljoin L base url)
}.

(** a computation whose exceptions have a message *)
Definition explains {A} (m : M A) : Prop :=
  ∀ w, explained (m w).1.

(** One turn of the loop of [check_sitemaps], by what the fetch and the
    parse of the URL came to. *)
Inductive turn (L : libs) (known_urls : json) (w : world) (u : string)
  : SitemapCheckResult → json → world → Prop :=
| turn_failed e w1 :
    fetch_and_parse L u (fetching u w) = (inl e, w1) →
    turn L known_urls w u (Result u 0 [] (exn_str e)) known_urls
      (appended
         [LogRecord ERROR
            "Error fetching/parsing sitemap {sitemap_url}: {str(fetch_err)}"
            [LStr u; LStr (exn_str e)]] w1)
| turn_checked current w1 r known_urls' w' :
    fetch_and_parse L u (fetching u w) = (inr current, w1) →
    check_one L known_urls u w = (inr (r, known_urls'), w') →
    sitemap_url r = u →
    total_urls r = size current →
    turn L known_urls w u r known_urls' w'.

(** The turns of a run, one per URL, in order. *)
Inductive turns (L : libs)
  : json → world → list string → list SitemapCheckResult → json → world → Prop :=
| turns_nil known_urls w : turns L known_urls w [] [] known_urls w
| turns_cons known_urls w u us r known_urls1 w1 rs known_urls2 w2 :
    turn L known_urls w u r known_urls1 w1 →
    turns L known_urls1 w1 us rs known_urls2 w2 →
    turns L known_urls w (u :: us) (r :: rs) known_urls2 w2.








(** a document cut short before its closing tags *)
Definition MALFORMED_EXAMPLE : string := "<urlset><loc>https://a.test/x</loc>".

(** ** What the pattern of [<loc>] finds *)

(** the strings a pattern matches, groups left aside *)
Inductive lang : Re.regex → string → Prop :=
| lang_eps : lang Re.Eps EmptyString
| lang_chr p c : p c = true → lang (Re.Chr p) (String c EmptyString)
| lang_cat r1 r2 a b : lang r1 a → lang r2 b → lang (Re.Cat r1 r2) (a +:+ b)
| lang_alt_l r1 r2 a : lang r1 a → lang (Re.Alt r1 r2) a
| lang_alt_r r1 r2 a : lang r2 a → lang (Re.Alt r1 r2) a
| lang_star_nil g r : lang (Re.Star g r) EmptyString
| lang_star_more g r a b :
    lang r a → lang (Re.Star g r) b → lang (Re.Star g r) (a +:+ b)
| lang_grp r a : lang r a → lang (Re.Grp r) a.

Fixpoint group_free (r : Re.regex) : bool :=
  match r with
  | Re.Eps | Re.Chr _ => true
  | Re.Cat r1 r2 | Re.Alt r1 r2 => group_free r1 && group_free r2
  | Re.Star _ r1 => group_free r1
  | Re.Grp _ => false
  end.

Fixpoint all_chars (p : ascii → bool) (s : string) : bool :=
  match s with
  | EmptyString => true
  | String c s' => p c && all_chars p s'
  end.

Definition not_lt (c : ascii) : bool :=
  negb (existsb (Ascii.eqb c) ["<"%char]).

(** the text the pattern of [<loc>] captures: an http(s) URL without [<] *)
Definition is_loc_url (u : string) : Prop :=
  ∃ t, (u = "http://" +:+ t ∨ u = "https://" +:+ t)
       ∧ t ≠ EmptyString ∧ all_chars not_lt t = true.

(** the hosts that [fetch_sitemap] treats on their own *)
Definition special_domain (domain : string) : bool :=
  String.eqb domain "github.com"
  || String.eqb domain "twitter.com" || String.eqb domain "x.com"
  || String.eqb domain "google.com" || String.eqb domain "www.google.com".

(** the redirects that a robots.txt caused, as the log counts them *)
Definition robots_redirects (w : world) : nat :=
  List.length
    (List.filter
       (λ r, String.eqb (log_fmt r)
               "Following sitemap from robots.txt (one level only)")
       (logged w)).

(** ** Concrete libraries and sites, for the examples *)

Module Scenario.

Definition is_scheme_char (c : ascii) : bool :=
  let n := N_of_ascii c in
  (((97 <=? n) && (n <=? 122)) || ((65 <=? n) && (n <=? 90))
   || ((48 <=? n) && (n <=? 57))
   || (n =? 43) || (n =? 45) || (n =? 46))%N.

Definition is_letter (c : ascii) : bool :=
  let n := N_of_ascii c in
  (((97 <=? n) && (n <=? 122)) || ((65 <=? n) && (n <=? 90)))%N.

Fixpoint span (p : ascii → bool) (s : string) : string * string :=
  match s with
  | String c s' =>
      if p c then let '(a, b) := span p s' in (String c a, b)
      else (EmptyString, s)
  | EmptyString => (EmptyString, EmptyString)
  end.

Definition ends_netloc (c : ascii) : bool :=
  existsb (Ascii.eqb c) ["/"%char; "?"%char; "#"%char].

(** the network location of what follows the scheme *)
Definition netloc_of (rest : string) : string :=
  if String.prefix "//" rest then
    (span (λ c, negb (ends_netloc c))
          (String.substring 2 (String.length rest - 2) rest)).1
  else EmptyString.

(** [urllib.parse.urlparse], its scheme and its network location, as
    [urlsplit] finds them; the check of brackets in the location is the
    one error modelled. *)
Definition urlparse (url : string) : exn + url_parts :=
  let '(sch, rest) := span is_scheme_char url in
  let '(sch, rest) :=
    match sch, rest with
    | String c _, String ":" rest' =>
        if is_letter c then (PyStr.lower sch, rest') else (EmptyString, url)
    | _, _ => (EmptyString, url)
    end in
  let loc := netloc_of rest in
  if xorb (PyStr.contains "[" loc) (PyStr.contains "]" loc)
  then inl (Exn ValueError "Invalid IPv6 URL")
  else inr (UrlParts sch loc).

(** [urllib.parse.urljoin] of an origin and a reference that starts with
    a slash and has no dot segment. *)
Definition urljoin (base url : string) : exn + string :=
  match urlparse base with
  | inl e => inl e
  | inr parts =>
      if String.prefix "//" url then inr (scheme parts +:+ ":" +:+ url)
      else inr (scheme parts +:+ "://" +:+ netloc parts +:+ url)
  end.

Fixpoint lookup_str {A} (k : string) (l : list (string * A)) : option A :=
  match l with
  | [] => None
  | (k', x) :: l' => if String.eqb k k' then Some x else lookup_str k l'
  end.

(** a site: the pages it serves, whatever the moment *)
Definition serve (pages : list (string * response)) (n : nat) (url : string)
    : exn + response :=
  match lookup_str url pages with
  | Some r => inr r
  | None =>
      inl (Exn RequestException ("Failed to establish a new connection: " +:+ url))
  end.

(** the XML parser, on the documents of the examples *)
Definition parse_xml (docs : list (string * element)) (c : string)
    : exn + element :=
  match lookup_str c docs with
  | Some root => inr root
  | None => inl (Exn XMLSyntaxError "Premature end of data")
  end.

Definition nl : string := String (ascii_of_N 10) EmptyString.
Definition dq : string := String (ascii_of_N 34) EmptyString.
Definition quoted (s : string) : string := dq +:+ s +:+ dq.

Fixpoint join (sep : string) (l : list string) : string :=
  match l with
  | [] => EmptyString
  | [x] => x
  | x :: l' => x +:+ sep +:+ join sep l'
  end.

(** [json.dumps(v, indent=2)] of a value of the store: a string without
    escapes, or a list of such strings. *)
Definition dump_entry (v : json) : option string :=
  match v with
  | JStr s => Some (quoted s)
  | _ => None
  end.

Definition dump_value (v : json) : option string :=
  match v with
  | JList [] => Some "[]"
  | JList l =>
      items ← mapM dump_entry l;
      Some ("[" +:+ nl +:+
            join ("," +:+ nl) ((λ x, "    " +:+ x) <$> items) +:+
            nl +:+ "  ]")
  | _ => dump_entry v
  end.

(** the serializer of the examples: it writes a mapping of the shape of
    the store and declines any other value *)
Definition dumps (v : json) : exn + string :=
  match v with
  | JDict d =>
      match
        mapM (λ kv : string * json,
                x ← dump_value kv.2;
                Some ("  " +:+ quoted kv.1 +:+ ": " +:+ x))
             (map_to_list d)
      with
      | Some [] => inr "{}"
      | Some entries =>
          inr ("{" +:+ nl +:+ join ("," +:+ nl) entries +:+ nl +:+ "}")
      | None => inl (Exn TypeError "Object is not JSON serializable")
      end
  | _ => inl (Exn TypeError "Object is not JSON serializable")
  end.

(** the JSON reader, on the documents of the examples *)
Definition loads (docs : list (string * json)) (c : string) : exn + json :=
  match lookup_str c docs with
  | Some v => inr v
  | None => inl (Exn JSONDecodeError "Expecting value: line 1 column 1 (char 0)")
  end.

Definition make (pages : list (string * response))
    (xml_docs : list (string * element)) (json_docs : list (string * json))
    : libs :=
  Libs (loads json_docs) dumps (serve pages) (parse_xml xml_docs)
       urlparse urljoin 50.

Definition blank : world := World ∅ ∅ ∅ [] [].

Definition on_disk (files : list (string * node)) : world :=
  World (list_to_map files) ∅ ∅ [] [].

Definition ok (url content_type body : string) : string * response :=
  (url, Response 200 "OK" url (Some content_type) body).

Definition sm (name : string) (cs : list (string + element)) : element :=
  Element SITEMAP_NS name cs.

Definition P1 : string := "https://a.test/p1".
Definition P2 : string := "https://a.test/p2".
Definition SITEMAP_A : string := "https://a.test/sitemap.xml".

Definition URLSET_A : string :=
  "<urlset xmlns='http://www.sitemaps.org/schemas/sitemap/0.9'>" +:+
  "<url><loc>https://a.test/p1</loc></url>" +:+
  "<url><loc>https://a.test/p2</loc></url></urlset>".

Definition URLSET_A_ROOT : element :=
  sm "urlset" [inr (sm "url" [inr (sm "loc" [inl P1])]);
               inr (sm "url" [inr (sm "loc" [inl P2])])].

(** a site with one sitemap of two pages *)
Definition site_a : libs :=
  make [ok SITEMAP_A "application/xml" URLSET_A] [(URLSET_A, URLSET_A_ROOT)] [].









(** a store file that holds the two pages of [site_a] *)
Definition STORE_A : json :=
  JDict {[SITEMAP_A := JList [JStr P1; JStr P2]]}.

Definition STORE_A_COMPACT : string :=
  "{" +:+ quoted SITEMAP_A +:+ ":[" +:+ quoted P1 +:+ "," +:+ quoted P2 +:+ "]}".

Definition STORE_A_INDENTED : string :=
  "{" +:+ nl +:+ "  " +:+ quoted SITEMAP_A +:+ ": [" +:+ nl +:+
  "    " +:+ quoted P1 +:+ "," +:+ nl +:+
  "    " +:+ quoted P2 +:+ nl +:+ "  ]" +:+ nl +:+ "}".

Definition json_docs : list (string * json) :=
  [("{}", JDict ∅); (STORE_A_COMPACT, STORE_A); (STORE_A_INDENTED, STORE_A)].

Definition store_libs : libs := make [] [] json_docs.

(** [site_a] with a JSON library *)
Definition site_a_disk : libs :=
  make [ok SITEMAP_A "application/xml" URLSET_A] [(URLSET_A, URLSET_A_ROOT)]
       json_docs.

(** a store file that is not JSON, and one written without indentation *)
Definition corrupt_disk : world :=
  on_disk [(KNOWN_URLS_FILE, File "not json")].

(** robots.txt names a page, the page links to a second robots.txt
    address, which names the sitemap *)
Definition ROBOTS_1 : string := "https://a.test/robots.txt".
Definition PAGE_2 : string := "https://a.test/sitemap_page.xml".
Definition ROBOTS_3 : string := "https://a.test/robots.txt?sitemap.xml".
Definition REAL_4 : string := "https://a.test/real.xml".

Definition site_robots : libs :=
  make [ok ROBOTS_1 "text/plain" ("Sitemap: " +:+ PAGE_2);
        ok PAGE_2 "text/html"
           "<html><a href='/robots.txt?sitemap.xml'>map</a></html>";
        ok ROBOTS_3 "text/plain" ("Sitemap: " +:+ REAL_4);
        ok REAL_4 "application/xml" URLSET_A]
       [(URLSET_A, URLSET_A_ROOT)] [].

(** the same, but the second robots.txt names the page again *)
Definition site_cycle : libs :=
  make [ok ROBOTS_1 "text/plain" ("Sitemap: " +:+ PAGE_2);
        ok PAGE_2 "text/html"
           "<html><a href='/robots.txt?sitemap.xml'>map</a></html>";
        ok ROBOTS_3 "text/plain" ("Sitemap: " +:+ PAGE_2)]
       [] [].

(** a server whose failure has no message, as [requests.RequestException()]
    has none *)
Definition site_silent : libs :=
  Libs (loads []) dumps (λ _ _, inl (Exn RequestException EmptyString))
       (parse_xml []) urlparse urljoin 50.



End Scenario.

(** a computation that leaves the disk as it is *)
Definition keeps_disk {A} (m : M A) : Prop :=
  ∀ w, files (m w).2 = files w
       ∧ read_denied (m w).2 = read_denied w
       ∧ write_denied (m w).2 = write_denied w.

(** ** Notions used by the further properties *)

(** what [save_known_urls] serializes: its argument, or the empty mapping
    in place of an argument that is not a dictionary *)
Definition saved_value (known_urls : json) : json :=
  if isinstance_dict known_urls then known_urls else JDict ∅.

(** what a run promises of each result: no more new URLs than URLs, no
    URL reported twice, and no new URL beside an error *)
Definition sound_result (r : SitemapCheckResult) : Prop :=
  (List.length (new_urls r) ≤ total_urls r)%nat
  ∧ NoDup (new_urls r)
  ∧ (error r ≠ EmptyString → new_urls r = []).

(** a URL that [fetch_sitemap] requests as it stands, line 122: it ends
    in [.xml], or names a sitemap or a robots.txt *)
Definition names_sitemap (url : string) : bool :=
  PyStr.endswith url ".xml"
  || PyStr.contains "sitemap" (PyStr.lower url)
  || PyStr.contains "robots.txt" (PyStr.lower url).

(** the requests that a computation sends are added to those sent before,
    and are at most [n] *)
Definition sends {A} (m : M A) (n : nat) : Prop :=
  ∀ w, ∃ l, sent (m w).2 = sent w ++ l ∧ (List.length l ≤ n)%nat.

(** the most requests that [fetch_sitemap] can send at a depth *)
Fixpoint budget (depth : nat) : nat :=
  match depth with
  | O => 0
  | S depth' => S (budget depth' `max` 2)
  end.

(** ** The document, as XPath sees it *)

Definition children (e : element) : list (string + element) :=
  match e with Element _ _ cs => cs end.


(** [within root e]: [e] is [root] or an element below it *)
Inductive within (root : element) : element → Prop :=
| within_self : within root root
| within_child c e :
    inr c ∈ children root → within c e → within root e.

(** what [//sm:<parent>/sm:loc/text()] selects in the document of [root]:
    the text nodes of the [sm:loc] children of the [sm:<parent>]
    elements *)
Definition selected (parent : string) (root : element) (t : string) : Prop :=
  ∃ p c, within root p ∧ is_sm parent p = true
         ∧ inr c ∈ children p ∧ is_sm "loc" c = true
         ∧ inl t ∈ children c.


(** the content is a document whose root is a sitemap index, line 263 *)
Definition is_index_document (L : libs) (content : string) : bool :=
  match etree_fromstring L content with
  | inr root => PyStr.endswith (tag root) "sitemapindex"
  | inl _ => false
  end.

(** ** The form of the web page, [main.py] *)

Module Text.

(** [s.lstrip()], [s.rstrip()] and [s.strip()] *)
Fixpoint lstrip (s : string) : string :=
  match s with
  | String c s' => if PyStr.isspace c then lstrip s' else s
  | EmptyString => EmptyString
  end.

Fixpoint rstrip (s : string) : string :=
  match s with
  | EmptyString => EmptyString
  | String c s' =>
      match rstrip s' with
      | EmptyString =>
          if PyStr.isspace c then EmptyString else String c EmptyString
      | r => String c r
      end
  end.

Definition strip (s : string) : string := rstrip (lstrip s).

(** [s.split(sep)] for a separator of one character *)
Fixpoint split (sep : ascii) (s : string) : list string :=
  match s with
  | EmptyString => [EmptyString]
  | String c s' =>
      if Ascii.eqb c sep then EmptyString :: split sep s'
      else
        match split sep s' with
        | x :: l => String c x :: l
        | [] => [String c EmptyString]
        end
  end.

End Text.

Definition LF : ascii := ascii_of_N 10.

(** Line 28 of [main.py]:
    [[url.strip() for url in sitemap_urls.split('\n') if url.strip()]] *)
Definition form_urls (sitemap_urls : string) : list string :=
  Text.strip <$>
    List.filter (λ url, negb (String.eqb (Text.strip url) EmptyString))
      (Text.split LF sitemap_urls).

(** a string without a line feed *)
Definition one_line (s : string) : bool :=
  all_chars (λ c, negb (Ascii.eqb c LF)) s.

(** a line of the form: a URL without white space around it, or nothing,
    between white space; no part holds a line feed *)
Definition padded_url (line : string * string * string) : bool :=
  let '(before, url, after) := line in
  all_chars PyStr.isspace before && one_line before
  && all_chars PyStr.isspace after && one_line after
  && String.eqb (Text.strip url) url && one_line url.

Definition line_text (line : string * string * string) : string :=
  let '(before, url, after) := line in before +:+ url +:+ after.

Definition line_url (line : string * string * string) : string := line.1.2.

(** ** The configuration of the bot, [bot.py] *)

Definition SITEMAP_CONFIG_FILE : string := "sitemap_config.json".

Definition DEFAULT_SITEMAP_URLS : json :=
  JList [JStr "https://example.com/sitemap.xml";
         JStr "https://blog.example.com/sitemap.xml"].

(** What the interpreter adds to the libraries in [bot.py] and [main.py]. *)
Record interpreter := Interpreter {
  (** [str(v)], as an f-string formats a value *)
  str_of : json → string;
  (** what [json.dump] has written to its file when it raises *)
  dump_written : json → string;
  (** the class of the exception for a missing attribute; no handler of
      the program tells it from another *)
  attribute_error : exn_class
}.

Section Bot.

Variable L : libs.
Variable I : interpreter.

(** [json.dump(v, f, indent=2)] on a file just opened for writing at
    [path]: the text of [json.dumps(v, indent=2)], written as it comes *)
Definition json_dump (v : json) (path : string) : M unit :=
  match json_dumps L v with
  | inr s => write_opened path s
  | inl e => write_opened path (dump_written I v);; raise e
  end.

(** [config.get(key, default)] *)
Definition py_get (config : json) (key : string) (default : json) : M json :=
  match config with
  | JDict d =>
      match d !! key with
      | Some v => mret v
      | None => mret default
      end
  | _ =>
      raise (Exn (attribute_error I)
               ("'" +:+ type_name config +:+ "' object has no attribute 'get'"))
  end.

Definition update_sitemap_urls (urls : json) : M bool :=
  try_except
    (let config := JDict {["sitemap_urls" := urls]} in
     open_write SITEMAP_CONFIG_FILE;;
     json_dump config SITEMAP_CONFIG_FILE;;
     logger INFO "Updated sitemap URLs: {urls}" [LStr (str_of I urls)];;
     mret true)
    any_exception
    (λ e,
       logger ERROR "Error updating sitemap URLs: {str(e)}" [LStr (exn_str e)];;
       mret false).

Definition get_sitemap_urls : M json :=
  try_except
    (file_exists ← os_path_exists SITEMAP_CONFIG_FILE;
     if file_exists : bool then
       f ← read_file SITEMAP_CONFIG_FILE;
       config ← lift (json_loads L f);
       py_get config "sitemap_urls" DEFAULT_SITEMAP_URLS
     else
       update_sitemap_urls DEFAULT_SITEMAP_URLS;;
       mret DEFAULT_SITEMAP_URLS)
    any_exception
    (λ e,
       logger ERROR "Error loading sitemap URLs: {str(e)}" [LStr (exn_str e)];;
       mret DEFAULT_SITEMAP_URLS).

(** [update_sitemaps] of [main.py], the handler of the form; the route
    takes the method [POST] only. The result is the message that [flash]
    is given with its category; the reply is a redirect to the page in
    every case. *)
Definition update_sitemaps (form : gmap string string) : M (string * string) :=
  let sitemap_urls := default EmptyString (form !! "sitemap_urls") in
  let urls := form_urls sitemap_urls in
  update_sitemap_urls (JList (JStr <$> urls));;
  mret ("Sitemap URLs have been updated successfully", "success").

End Bot.

(** the configuration that [update_sitemap_urls] writes *)
Definition config_of (urls : json) : json := JDict {["sitemap_urls" := urls]}.

(** ** The name of the file of a notification, [bot.py] *)

(** [c.isalnum()] on one code point below 256 *)
Definition isalnum (c : ascii) : bool :=
  let n := N_of_ascii c in
  (((48 <=? n) && (n <=? 57)) || ((65 <=? n) && (n <=? 90))
   || ((97 <=? n) && (n <=? 122))
   || (n =? 170) || (n =? 178) || (n =? 179) || (n =? 181)
   || (n =? 185) || (n =? 186) || ((188 <=? n) && (n <=? 190))
   || ((192 <=? n) && (n <=? 214)) || ((216 <=? n) && (n <=? 246))
   || (248 <=? n))%N.

(** [.join(c for c in s if p(c))] on the empty string *)
Fixpoint keep_chars (p : ascii → bool) (s : string) : string :=
  match s with
  | EmptyString => EmptyString
  | String c s' => if p c then String c (keep_chars p s') else keep_chars p s'
  end.

Definition name_char (c : ascii) : bool :=
  isalnum c || existsb (Ascii.eqb c) ["-"%char; "_"%char].

(** Lines 113 to 117 of [bot.py] *)
Definition safe_site_name (site_name : string) : string :=
  let safe_site_name := Text.rstrip (keep_chars name_char site_name) in
  if String.eqb safe_site_name EmptyString then "unknown_site"
  else safe_site_name.

(** Line 160: [f"new_urls_{safe_site_name[:50]}.txt"] *)
Definition notification_file (site_name : string) : string :=
  "new_urls_" +:+ PyStr.slice_to 50 (safe_site_name site_name) +:+ ".txt".

(** ** Further sites and disks, for the examples *)

Module Cases.

Definition OLD : string := "https://a.test/old".

(** a store that holds the two pages of [Scenario.site_a] and a third,
    which the sitemap lists no longer *)
Definition STORE_OLD : gmap string json :=
  {[Scenario.SITEMAP_A :=
      JList [JStr Scenario.P1; JStr Scenario.P2; JStr OLD]]}.

(** a store that holds the first page only *)
Definition STORE_P1 : gmap string json :=
  {[Scenario.SITEMAP_A := JList [JStr Scenario.P1]]}.

(** a site whose sitemap is gone *)
Definition GONE : response :=
  Response 404 "Not Found" Scenario.SITEMAP_A (Some "text/html") "gone".

Definition site_gone : libs :=
  Scenario.make [(Scenario.SITEMAP_A, GONE)] [] [].




(** a disk where the path of the store is a directory *)
Definition store_is_dir : world :=
  Scenario.on_disk [(KNOWN_URLS_FILE, Dir)].

Definition CONFIG_FILE : string := "sitemap_config.json".

Definition config_disk : world :=
  Scenario.on_disk [(CONFIG_FILE, File "{}")].

(** the lines of a form as a browser posts them: each ends with a
    carriage return, the first is indented and the second is empty *)
Definition CR : string := String (ascii_of_N 13) EmptyString.

Definition FORM_LINES : list (string * string * string) :=
  [("  ", "https://a.test/sitemap.xml", CR);
   (EmptyString, EmptyString, CR);
   (EmptyString, "https://b.test/", EmptyString)].

Definition FORM_TEXT : string :=
  Scenario.join (String LF EmptyString) (line_text <$> FORM_LINES).

Definition FORM_URLS : json :=
  JList [JStr "https://a.test/sitemap.xml"; JStr "https://b.test/"].

(** the text that the serializer of the examples writes for a value *)
Definition dumped (v : json) : string :=
  match Scenario.dumps v with
  | inr s => s
  | inl _ => EmptyString
  end.

(** a JSON library that knows the configuration of [FORM_URLS] *)
Definition config_libs : libs :=
  Scenario.make [] [] [(dumped (config_of FORM_URLS), config_of FORM_URLS)].

(** [str] of a list of strings without quotes in them *)
Definition show (v : json) : string :=
  match v with
  | JList l =>
      "[" +:+
      Scenario.join ", "
        ((λ x, match x with
               | JStr s => "'" +:+ s +:+ "'"
               | _ => "None"
               end) <$> l) +:+
      "]"
  | _ => "None"
  end.

Definition python : interpreter :=
  Interpreter show (λ _, EmptyString) TypeError.

End Cases.

(** * Properties *)

(** ** Running computations *)

Lemma logger_run l fmt args w :
  logger l fmt args w = (inr (), appended [LogRecord l fmt args] w).
Proof. reflexivity. Qed.

Lemma bind_run {A B} (m : M A) (f : A → M B) w :
  (m ≫= f) w =
  match m w with
  | (inl e, w') => (inl e, w')
  | (inr x, w') => f x w'
  end.
Proof. reflexivity. Qed.

Lemma try_except_run {A} (m : M A) C h w :
  try_except m C h w =
  match m w with
  | (inl e, w') => if C e then h e w' else (inl e, w')
  | (inr x, w') => (inr x, w')
  end.
Proof. reflexivity. Qed.

Ltac run :=
  repeat (rewrite ?bind_run, ?try_except_run, ?logger_run;
          unfold mret, M_ret, lift, raise; cbn beta iota).

Lemma world_ext w w' :
  files w = files w' → read_denied w = read_denied w' →
  write_denied w = write_denied w' → sent w = sent w' →
  logged w = logged w' → w = w'.
Proof. destruct w, w'; simpl; congruence. Qed.

(** equality of two outcomes: the values, then the worlds field by field *)
Ltac world_eq :=
  f_equal; try apply world_ext;
  cbn [files read_denied write_denied sent logged appended set_files];
  rewrite <- ?app_assoc; try reflexivity.

Lemma open_write_ok w p :
  writable w p →
  open_write p w = (inr (), set_files (<[p := File EmptyString]> (files w)) w).
Proof.
  intros [Hd Hw]. unfold open_write.
  destruct (files w !! p) as [[c|]|]; try congruence;
    destruct (decide (p ∈ write_denied w)); done.
Qed.

Lemma open_write_fails w p :
  ¬ writable w p → ∃ e, open_write p w = (inl e, w).
Proof.
  intros Hn. unfold open_write.
  destruct (files w !! p) as [[c|]|] eqn:Hp; eauto;
    destruct (decide (p ∈ write_denied w)); eauto;
    exfalso; apply Hn; split; congruence.
Qed.

(** ** The store *)

Lemma backup_ne_store : BACKUP_FILE ≠ KNOWN_URLS_FILE.
Proof. discriminate. Qed.

Lemma temp_ne_store : TEMP_FILE ≠ KNOWN_URLS_FILE.
Proof. discriminate. Qed.

Lemma load_missing L w :
  files w !! KNOWN_URLS_FILE = None →
  load_known_urls L w = (inr (JDict ∅), w).
Proof.
  intros Hf. unfold load_known_urls, os_path_exists. run.
  rewrite Hf. rewrite bool_decide_eq_false_2 by (intros [? ?]; discriminate).
  reflexivity.
Qed.

Lemma read_file_ok w p c :
  files w !! p = Some (File c) → p ∉ read_denied w →
  read_file p w = (inr c, w).
Proof.
  intros Hf Hr. unfold read_file. rewrite Hf.
  destruct (decide (p ∈ read_denied w)); done.
Qed.

Lemma path_exists_true w p n :
  files w !! p = Some n → os_path_exists p w = (inr true, w).
Proof.
  intros Hf. unfold os_path_exists.
  rewrite bool_decide_eq_true_2 by eauto. reflexivity.
Qed.

Lemma path_exists_false w p :
  files w !! p = None → os_path_exists p w = (inr false, w).
Proof.
  intros Hf. unfold os_path_exists.
  rewrite bool_decide_eq_false_2; [reflexivity|].
  rewrite Hf. intros [? ?]; discriminate.
Qed.

Lemma load_corrupt L w c e :
  files w !! KNOWN_URLS_FILE = Some (File c) →
  KNOWN_URLS_FILE ∉ read_denied w →
  json_loads L c = inl e →
  is_json_decode_error e = true →
  let w1 :=
    appended
      [LogRecord ERROR "Invalid JSON in {KNOWN_URLS_FILE}: {str(json_err)}"
                 [LStr KNOWN_URLS_FILE; LStr (exn_str e)];
       LogRecord INFO "Creating backup of corrupted file as {backup_file}"
                 [LStr BACKUP_FILE]] w in
  (writable w BACKUP_FILE →
   load_known_urls L w =
   (inr (JDict ∅), set_files (<[BACKUP_FILE := File c]> (files w)) w1))
  ∧ (¬ writable w BACKUP_FILE →
     ∃ backup_err,
       load_known_urls L w =
       (inr (JDict ∅),
        appended [LogRecord ERROR "Failed to create backup: {str(backup_err)}"
                            [LStr (exn_str backup_err)]] w1)).
Proof.
  intros Hf Hr Hj He w1.
  unfold load_known_urls. run.
  rewrite (path_exists_true _ _ _ Hf). run.
  rewrite (read_file_ok _ _ _ Hf Hr). run.
  rewrite Hj, He. run.
  change (KNOWN_URLS_FILE +:+ ".bak") with BACKUP_FILE.
  split.
  - intros Hw. rewrite open_write_ok by exact Hw. run.
    rewrite (read_file_ok _ _ c).
    + unfold write_opened. subst w1. world_eq.
      rewrite insert_insert_eq. reflexivity.
    + cbn [files set_files appended].
      rewrite lookup_insert_ne by apply backup_ne_store.
      exact Hf.
    + exact Hr.
  - intros Hw.
    edestruct (open_write_fails) as [be Hbe]; [|rewrite Hbe]; [exact Hw|].
    exists be. subst w1. run. world_eq.
Qed.

Lemma try_except_total {A} (m : M A) (h : exn → M A) :
  (∀ e, never_raises (h e)) → never_raises (try_except m any_exception h).
Proof.
  intros Hh w. run. destruct (m w) as [[e|x] w'].
  - simpl. apply Hh.
  - eauto.
Qed.

Lemma logger_then_ret_total {A} l fmt args (x : A) :
  never_raises (logger l fmt args;; mret x).
Proof. intros w. run. eauto. Qed.

Lemma logger_total l fmt args : never_raises (logger l fmt args).
Proof. intros w. run. eauto. Qed.

Lemma load_total L : never_raises (load_known_urls L).
Proof.
  apply try_except_total. intros e. apply logger_then_ret_total.
Qed.

Lemma save_total L v : never_raises (save_known_urls L v).
Proof.
  apply try_except_total. intros e. apply logger_total.
Qed.

(** C5. [load_known_urls] never raises; without a store file it returns
    the empty mapping; on a file that is not JSON it copies the file to
    [known_urls.json.bak] when that path can be written, logs the failure
    when it cannot, and returns the empty mapping either way. *)
Theorem load_known_urls_recovers (L : libs) (w : world) :
  never_raises (load_known_urls L)
  ∧ (files w !! KNOWN_URLS_FILE = None →
     load_known_urls L w = (inr (JDict ∅), w))
  ∧ (∀ c e,
       files w !! KNOWN_URLS_FILE = Some (File c) →
       KNOWN_URLS_FILE ∉ read_denied w →
       json_loads L c = inl e →
       is_json_decode_error e = true →
       ∃ w',
         load_known_urls L w = (inr (JDict ∅), w')
         ∧ files w' !! KNOWN_URLS_FILE = Some (File c)
         ∧ (writable w BACKUP_FILE →
            files w' = <[BACKUP_FILE := File c]> (files w))
         ∧ (¬ writable w BACKUP_FILE →
            files w' = files w
            ∧ ∃ backup_err,
                last (logged w') =
                Some (LogRecord ERROR
                        "Failed to create backup: {str(backup_err)}"
                        [LStr (exn_str backup_err)]))).
Proof.
  split; [apply load_total|]. split; [apply load_missing|].
  intros c e Hf Hr Hj He.
  destruct (load_corrupt L w c e Hf Hr Hj He) as [Hok Hko].
  destruct (decide (writable w BACKUP_FILE)) as [Hw|Hw].
  - eexists. split; [apply Hok, Hw|]. cbn [files set_files appended].
    split; [|split]; [|done|done].
    rewrite lookup_insert_ne by apply backup_ne_store. exact Hf.
  - destruct (Hko Hw) as [be Hbe].
    eexists. split; [exact Hbe|]. cbn [files logged appended].
    split; [exact Hf|]. split; [done|]. intros _. split; [done|].
    exists be. first [apply last_snoc | rewrite !app_assoc; apply last_snoc].
Qed.

Lemma save_dict_run L d w :
  save_known_urls L (JDict d) w =
  try_except
    (dumped ←
       try_except
         (json_data ← lift (json_dumps L (JDict d)); mret (Some json_data))
         any_exception
         (λ json_err,
            logger ERROR "Cannot serialize known_urls to JSON: {str(json_err)}"
                   [LStr (exn_str json_err)];;
            mret None);
     match dumped with
     | None => mret ()
     | Some json_data =>
         open_write TEMP_FILE;;
         write_opened TEMP_FILE json_data;;
         os_replace TEMP_FILE KNOWN_URLS_FILE
     end)
    any_exception
    (λ e, logger ERROR "Error saving known URLs: {str(e)}" [LStr (exn_str e)])
    w.
Proof. reflexivity. Qed.

Lemma save_non_dict_run L v w :
  isinstance_dict v = false →
  save_known_urls L v w =
  save_known_urls L (JDict ∅)
    (appended
       [LogRecord ERROR
          "Expected a dictionary for known_urls, got {type(known_urls)}"
          [LStr ("<class '" +:+ type_name v +:+ "'>")]] w).
Proof.
  intros Hv. rewrite save_dict_run. unfold save_known_urls.
  rewrite Hv. cbn [negb]. run. reflexivity.
Qed.

Lemma os_replace_ok w src dst c :
  files w !! src = Some (File c) → writable w dst →
  os_replace src dst w =
  (inr (), set_files (<[dst := File c]> (delete src (files w))) w).
Proof.
  intros Hs [Hd Hw]. unfold os_replace. rewrite Hs.
  destruct (files w !! dst) as [[?|]|]; try congruence;
    destruct (decide (dst ∈ write_denied w)); done.
Qed.

Lemma os_replace_fails w src dst e w' :
  os_replace src dst w = (inl e, w') → w' = w.
Proof.
  unfold os_replace.
  destruct (files w !! src) as [n|]; [|congruence].
  destruct (files w !! dst) as [[?|]|], n;
    try destruct (decide (dst ∈ write_denied w)); congruence.
Qed.

(** What a successful save leaves on disk. *)
Lemma save_dict_ok L d s w :
  json_dumps L (JDict d) = inr s →
  writable w TEMP_FILE → writable w KNOWN_URLS_FILE →
  save_known_urls L (JDict d) w =
  (inr (), set_files (<[KNOWN_URLS_FILE := File s]> (delete TEMP_FILE (files w))) w).
Proof.
  intros Hs Ht Hk. rewrite save_dict_run. run. rewrite Hs. run.
  rewrite open_write_ok by exact Ht. run.
  unfold write_opened. run.
  erewrite os_replace_ok.
  - world_eq. rewrite insert_insert_eq, delete_insert_eq. reflexivity.
  - cbn [files set_files]. apply lookup_insert_eq.
  - destruct Hk as [Hk1 Hk2]. split; cbn [files set_files write_denied].
    + rewrite !lookup_insert_ne by apply temp_ne_store. exact Hk1.
    + exact Hk2.
Qed.


Lemma load_valid L w c v :
  files w !! KNOWN_URLS_FILE = Some (File c) →
  KNOWN_URLS_FILE ∉ read_denied w →
  json_loads L c = inr v →
  load_known_urls L w = (inr v, w).
Proof.
  intros Hf Hr Hj. unfold load_known_urls. run.
  rewrite (path_exists_true _ _ _ Hf). run.
  rewrite (read_file_ok _ _ _ Hf Hr). run.
  rewrite Hj. reflexivity.
Qed.


(** C10. An argument that is not a dictionary is replaced by the empty
    mapping: the call logs the type it got and goes on as a save of [{}];
    when the temporary file and the store file can be written, the store
    file then holds the serialization of the empty mapping, whatever it
    held before. *)
Theorem save_known_urls_non_dict (L : libs) (v : json) (w : world) :
  isinstance_dict v = false →
  save_known_urls L v w =
  save_known_urls L (JDict ∅)
    (appended
       [LogRecord ERROR
          "Expected a dictionary for known_urls, got {type(known_urls)}"
          [LStr ("<class '" +:+ type_name v +:+ "'>")]] w)
  ∧ (∀ s,
       json_dumps L (JDict ∅) = inr s →
       writable w TEMP_FILE → writable w KNOWN_URLS_FILE →
       ∃ w',
         save_known_urls L v w = (inr (), w')
         ∧ files w' !! KNOWN_URLS_FILE = Some (File s)).
Proof.
  intros Hv. split; [apply save_non_dict_run, Hv|].
  intros s Hs Ht Hk. rewrite (save_non_dict_run L v w Hv).
  rewrite (save_dict_ok L ∅ s) by done.
  eexists. split; [reflexivity|]. cbn [files set_files appended].
  apply lookup_insert_eq.
Qed.

(** ** The difference with the stored set *)

Lemma set_of_list_strs (l : list string) :
  set_of_list (JStr <$> l) = inr (list_to_set (inl <$> l)).
Proof.
  induction l as [|x l IH]; [reflexivity|].
  cbn. rewrite IH. reflexivity.
Qed.

Lemma new_of_empty current : new_of current ∅ = current.
Proof. unfold new_of. apply set_eq. intros x. rewrite elem_of_filter. set_solver. Qed.

Lemma removed_of_empty current : removed_of current ∅ = ∅.
Proof. unfold removed_of. set_solver. Qed.

Lemma new_of_same (l : list string) :
  new_of (list_to_set l) (list_to_set (inl <$> l)) = ∅.
Proof.
  unfold new_of. apply set_eq. intros x. rewrite elem_of_filter.
  rewrite !elem_of_list_to_set, list_elem_of_fmap. set_solver.
Qed.

Lemma removed_of_same (l : list string) :
  removed_of (list_to_set l) (list_to_set (inl <$> l)) = ∅.
Proof.
  unfold removed_of. apply set_eq. intros x.
  rewrite elem_of_difference, elem_of_list_to_set, list_elem_of_fmap, elem_of_map.
  split; [|set_solver]. intros [(y & -> & Hy) Hn]. exfalso. apply Hn.
  exists y. split; [done|]. by apply elem_of_list_to_set.
Qed.

Lemma stored_empty : stored ∅ = JList [].
Proof. unfold stored. rewrite elements_empty. reflexivity. Qed.

Lemma check_one_fetched L known_urls u w current w1 :
  fetch_and_parse L u (fetching u w) = (inr current, w1) →
  check_one L known_urls u w =
  try_except
    (known_urls' ← register known_urls u;
     try_except
       (diff (Result u (size current) [] EmptyString) known_urls' current)
       any_exception
       (check_failed (Result u (size current) [] EmptyString) known_urls'))
    any_exception
    (check_failed (Result u (size current) [] EmptyString) known_urls) w1.
Proof.
  intros Hf. unfold check_one. run. fold (fetching u w). rewrite Hf. run.
  reflexivity.
Qed.

Lemma check_one_failed L known_urls u w e w1 :
  fetch_and_parse L u (fetching u w) = (inl e, w1) →
  check_one L known_urls u w =
  (inr (Result u 0 [] (exn_str e), known_urls),
   appended
     [LogRecord ERROR
        "Error fetching/parsing sitemap {sitemap_url}: {str(fetch_err)}"
        [LStr u; LStr (exn_str e)]] w1).
Proof.
  intros Hf. unfold check_one. run. fold (fetching u w). rewrite Hf. run.
  reflexivity.
Qed.

(** C1. A sitemap identifier that the store does not hold, fetched and
    parsed with success: the result reports every parsed URL as new, and
    the store then maps the identifier to a list of exactly these URLs. *)
Theorem first_check_reports_all (L : libs) (d : gmap string json)
    (u : string) (w w1 : world) (current : gset string) :
  d !! u = None →
  fetch_and_parse L u (fetching u w) = (inr current, w1) →
  ∃ r d' w',
    check_one L (JDict d) u w = (inr (r, JDict d'), w')
    ∧ sitemap_url r = u
    ∧ error r = EmptyString
    ∧ total_urls r = size current
    ∧ list_to_set (new_urls r) = current
    ∧ d' = <[u := stored current]> d
    ∧ ∃ l, d' !! u = Some (JList (JStr <$> l)) ∧ list_to_set l = current.
Proof.
  intros Hd Hf. rewrite (check_one_fetched _ _ _ _ _ _ Hf).
  unfold register. run. cbn [py_contains].
  rewrite bool_decide_eq_false_2 by (rewrite Hd; intros [? ?]; discriminate).
  run. cbn [negb py_setitem]. run.
  unfold diff. cbn [sitemap_url py_getitem]. run.
  rewrite lookup_insert_eq. run. cbn [py_set set_of_list]. run.
  rewrite new_of_empty, removed_of_empty.
  rewrite (bool_decide_eq_true_2 (∅ = ∅)) by done. cbn [negb]. run.
  destruct (decide (current = ∅)) as [->|Hne].
  - rewrite (bool_decide_eq_true_2 (∅ = ∅)) by done. cbn [negb]. run.
    eexists _, _, _. split; [reflexivity|]. cbn.
    rewrite stored_empty. repeat split; try done.
    exists []. rewrite lookup_insert_eq. done.
  - rewrite (bool_decide_eq_false_2 (current = ∅)) by done. cbn [negb]. run.
    cbn [py_setitem total_urls error]. run.
    eexists _, _, _. split; [reflexivity|]. cbn.
    rewrite insert_insert_eq. repeat split; try done.
    + apply list_to_set_elements_L.
    + exists (elements current). rewrite lookup_insert_eq.
      split; [done|]. apply list_to_set_elements_L.
Qed.

(** C2. A sitemap whose parsed URL set is the set the store holds for
    its identifier: the result reports no new URL and the store is the
    one before the check. *)
Theorem unchanged_check_reports_none (L : libs) (d : gmap string json)
    (u : string) (l : list string) (w w1 : world) (current : gset string) :
  d !! u = Some (JList (JStr <$> l)) →
  list_to_set l = current →
  fetch_and_parse L u (fetching u w) = (inr current, w1) →
  ∃ r w',
    check_one L (JDict d) u w = (inr (r, JDict d), w')
    ∧ sitemap_url r = u
    ∧ error r = EmptyString
    ∧ total_urls r = size current
    ∧ new_urls r = [].
Proof.
  intros Hd <- Hf. rewrite (check_one_fetched _ _ _ _ _ _ Hf).
  unfold register. run. cbn [py_contains].
  rewrite bool_decide_eq_true_2 by (rewrite Hd; eauto).
  run. cbn [negb]. run.
  unfold diff. cbn [sitemap_url py_getitem]. run.
  rewrite Hd. run. cbn [py_set]. rewrite set_of_list_strs. run.
  rewrite new_of_same, removed_of_same.
  rewrite (bool_decide_eq_true_2 (∅ = ∅)) by done. cbn [negb]. run.
  rewrite (bool_decide_eq_true_2 (∅ = ∅)) by done. cbn [negb]. run.
  eexists _, _. split; [reflexivity|]. done.
Qed.

(** ** Exceptions keep their message *)

Lemma explains_ret {A} (x : A) : explains (mret x).
Proof. intros w e [=]. Qed.

Lemma explains_logger l fmt args : explains (logger l fmt args).
Proof. intros w e [=]. Qed.

Lemma explains_raise {A} e :
  exn_str e ≠ EmptyString → explains (raise (A := A) e).
Proof. intros He w e' [= <-]. exact He. Qed.

Lemma explains_lift {A} (r : exn + A) : explained r → explains (lift r).
Proof. intros Hr w e He. apply Hr. exact He. Qed.

Lemma explains_bind {A B} (m : M A) (f : A → M B) :
  explains m → (∀ x, explains (f x)) → explains (m ≫= f).
Proof.
  intros Hm Hf w e. rewrite bind_run.
  specialize (Hm w). destruct (m w) as [[e'|x] w'].
  - intros [= <-]. apply Hm. reflexivity.
  - apply Hf.
Qed.

Lemma explains_try {A} (m : M A) C (h : exn → M A) :
  explains m → (∀ e, exn_str e ≠ EmptyString → explains (h e)) →
  explains (try_except m C h).
Proof.
  intros Hm Hh w e. rewrite try_except_run.
  specialize (Hm w). destruct (m w) as [[e'|x] w']; [|intros [=]].
  destruct (C e').
  - apply Hh. apply Hm. reflexivity.
  - intros [= <-]. apply Hm. reflexivity.
Qed.

Lemma explains_for_each {A S} (f : S → A → M S) (l : list A) :
  (∀ s x, explains (f s x)) → ∀ s, explains (for_each f s l).
Proof.
  intros Hf. induction l as [|x l IH]; intros s; cbn [for_each].
  - apply explains_ret.
  - apply explains_bind; [apply Hf|]. intros s'. apply IH.
Qed.

Lemma app_nonempty (a b : string) :
  b ≠ EmptyString → a +:+ b ≠ EmptyString.
Proof. destruct a; [done|discriminate]. Qed.

Ltac explain :=
  repeat
    match goal with
    | |- explains (_ ≫= _) => apply explains_bind; [|intros ?]
    | |- explains (mret _) => apply explains_ret
    | |- explains (logger _ _ _) => apply explains_logger
    | |- explains (raise _) =>
        apply explains_raise; first [assumption | discriminate]
    | |- explains (try_except _ _ _) => apply explains_try; [|intros ? ?]
    | |- explains (for_each _ _ _) => apply explains_for_each; intros ? ?
    | |- explains (if ?b then _ else _) => destruct b
    | |- explains (match ?x with _ => _ end) => destruct x
    | |- explains (let '(_, _) := ?x in _) => destruct x
    end.

Section Explained.

Variable L : libs.
Hypothesis HL : libs_explain L.

Lemma explains_http_get url : explains (http_get L url).
Proof. intros w e He. eapply (requests_explain L HL). exact He. Qed.

Lemma explains_raise_for_status r : explains (raise_for_status r).
Proof.
  unfold raise_for_status. explain;
    apply explains_raise; apply app_nonempty; discriminate.
Qed.

Lemma explains_via_origin_robots p : explains (via_origin_robots L p).
Proof.
  unfold via_origin_robots. explain; apply explains_http_get.
Qed.

Lemma explains_fetch_once (fetch : string → bool → M string) :
  (∀ url flag, explains (fetch url flag)) →
  ∀ url flag, explains (fetch_once L fetch url flag).
Proof.
  intros Hfetch url flag.
  unfold fetch_once, special_cases, with_sitemap_path, request,
    follow_robots, sniff.
  explain;
    first [ apply explains_lift, (urlparse_explain L HL)
          | apply explains_http_get
          | apply explains_raise_for_status
          | apply explains_via_origin_robots
          | apply Hfetch ].
Qed.

Lemma explains_fetch_sitemap depth :
  ∀ url flag, explains (fetch_sitemap L depth url flag).
Proof.
  induction depth as [|depth IH]; intros url flag; cbn [fetch_sitemap].
  - apply explains_raise. discriminate.
  - apply explains_fetch_once. exact IH.
Qed.

Lemma explains_parse_html c : explains (parse_html L c).
Proof.
  unfold parse_html, absolute_html_urls. explain;
    first [ apply explains_lift, (urlparse_explain L HL)
          | apply explains_lift, (urljoin_explain L HL) ].
Qed.

Lemma explains_regex_fallback c e :
  exn_str e ≠ EmptyString → explains (regex_fallback c e).
Proof. intros He. unfold regex_fallback. explain. Qed.

Lemma explains_parse_sitemap depth :
  ∀ c, explains (parse_sitemap L depth c).
Proof.
  induction depth as [|depth IH]; intros c; cbn [parse_sitemap].
  - apply explains_raise. discriminate.
  - explain;
      first [ apply explains_parse_html
            | apply explains_lift, (etree_explain L HL)
            | apply explains_fetch_sitemap
            | apply IH
            | apply explains_regex_fallback; assumption ].
Qed.

Lemma explains_fetch_and_parse url : explains (fetch_and_parse L url).
Proof.
  unfold fetch_and_parse. apply explains_bind.
  - apply explains_fetch_sitemap.
  - intros c. apply explains_parse_sitemap.
Qed.

End Explained.

(** ** The loop of the orchestrator *)

Lemma diff_result res known_urls current w r known_urls' w' :
  diff res known_urls current w = (inr (r, known_urls'), w') →
  sitemap_url r = sitemap_url res ∧ total_urls r = total_urls res.
Proof.
  unfold diff. run.
  destruct (py_getitem known_urls (sitemap_url res)) as [e|v]; [done|]. run.
  destruct (py_set v) as [e|prev]; [done|]. run.
  destruct (negb (bool_decide (removed_of current prev = ∅))); run;
    destruct (negb (bool_decide (new_of current prev = ∅))); run;
    try (destruct (py_setitem known_urls (sitemap_url res) (stored current));
         [done|]; run);
    intros [= <- <- <-]; done.
Qed.

Lemma check_failed_run res known_urls e w :
  check_failed res known_urls e w =
  (inr (with_error res e, known_urls),
   appended
     [LogRecord ERROR "Error checking sitemap {sitemap_url}: {str(e)}"
        [LStr (sitemap_url res); LStr (exn_str e)]] w).
Proof. reflexivity. Qed.

Lemma check_one_turn L known_urls u w :
  ∃ r known_urls' w',
    check_one L known_urls u w = (inr (r, known_urls'), w')
    ∧ turn L known_urls w u r known_urls' w'.
Proof.
  destruct (fetch_and_parse L u (fetching u w)) as [[e|current] w1] eqn:Hf.
  - eexists _, _, _. split; [apply (check_one_failed _ _ _ _ _ _ Hf)|].
    apply turn_failed. exact Hf.
  - assert (∃ r known_urls' w',
      check_one L known_urls u w = (inr (r, known_urls'), w')
      ∧ sitemap_url r = u ∧ total_urls r = size current)
      as (r & k' & w' & Hrun & Hu & Ht).
    { rewrite (check_one_fetched _ _ _ _ _ _ Hf). run.
      destruct (register known_urls u w1) as [[e|k1] w2].
      - cbn [any_exception]. rewrite check_failed_run. eauto 10.
      - run.
        destruct (diff _ k1 current w2) as [[e|[r k2]] w3] eqn:Hd.
        + cbn [any_exception]. rewrite check_failed_run. eauto 10.
        + apply diff_result in Hd as [? ?]. eauto 10. }
    eexists _, _, _. split; [exact Hrun|].
    eapply turn_checked; eauto.
Qed.

Lemma check_loop_turns L known_urls urls :
  ∀ acc w,
  ∃ results known_urls' w',
    for_each (loop_body L) (acc, known_urls) urls w
    = (inr (acc ++ results, known_urls'), w')
    ∧ turns L known_urls w urls results known_urls' w'.
Proof.
  revert known_urls.
  induction urls as [|u us IH]; intros known_urls acc w; cbn [for_each].
  - exists [], known_urls, w. rewrite app_nil_r. split; [done|constructor].
  - destruct (check_one_turn L known_urls u w) as (r & k1 & w1 & Hrun & Hturn).
    destruct (IH k1 (acc ++ [r]) w1) as (rs & k2 & w2 & Hrest & Hturns).
    exists (r :: rs), k2, w2. split.
    + rewrite bind_run. unfold loop_body at 1. rewrite bind_run.
      cbn [fst snd]. rewrite Hrun. cbn beta iota. unfold mret, M_ret.
      rewrite Hrest. rewrite <- app_assoc. reflexivity.
    + econstructor; eauto.
Qed.

Lemma turns_urls L known_urls w urls results known_urls' w' :
  turns L known_urls w urls results known_urls' w' →
  sitemap_url <$> results = urls.
Proof.
  intros H. induction H as [|k w0 u us r k1 w1 rs k2 w2 Hturn _ IH]; [done|].
  cbn. rewrite IH. f_equal. destruct Hturn; done.
Qed.

Lemma starting_known_urls_total L : never_raises (starting_known_urls L).
Proof.
  intros w. unfold starting_known_urls, os_path_exists. run.
  destruct (bool_decide _); cbn [negb]; [|eauto].
  apply try_except_total. intros e. apply logger_then_ret_total.
Qed.

(** The error of a turn whose fetch or parse raised is the message of the
    exception, which is not empty when those of the libraries are not. *)
Lemma failed_turn_error L known_urls w u r known_urls' w' e w1 :
  turn L known_urls w u r known_urls' w' →
  fetch_and_parse L u (fetching u w) = (inl e, w1) →
  error r = exn_str e ∧ (libs_explain L → error r ≠ EmptyString).
Proof.
  intros Hturn Hf.
  destruct Hturn as [e' w1' Hf'|current w1' r k' w' Hf' _ _ _];
    rewrite Hf in Hf'; [|discriminate Hf'].
  injection Hf' as <- _. split; [reflexivity|]. intros HL. cbn [error].
  apply (explains_fetch_and_parse L HL u (fetching u w)).
  rewrite Hf. reflexivity.
Qed.

(** C3, as the code has it. Whatever the libraries answer,
    [check_sitemaps] never raises and returns one result per URL, in
    order. Each turn of its loop ends: when the fetch or the parse of the
    URL raises, the turn yields the result with the message of the
    exception as its error, no URL counted, and hands the mapping on
    unchanged to the next URL. After the last turn the mapping is saved
    once when it is not empty, and not saved when it is empty; the save
    never raises and the results are those of the turns. The error of a
    failed turn is not empty when the exceptions of the libraries have a
    message; without that it can be empty. *)
Theorem check_sitemaps_turns (L : libs) (urls : list string) (w : world) :
  (∃ known_urls0 w0 results known_urls w1 w',
     starting_known_urls L w = (inr known_urls0, w0)
     ∧ turns L known_urls0 w0 urls results known_urls w1
     ∧ check_sitemaps L urls w = (inr results, w')
     ∧ sitemap_url <$> results = urls
     ∧ (truthy known_urls = true →
        save_known_urls L known_urls w1 = (inr (), w'))
     ∧ (truthy known_urls = false → w' = w1))
  ∧ (∀ known_urls w0 u r known_urls' w' e w1,
       turn L known_urls w0 u r known_urls' w' →
       fetch_and_parse L u (fetching u w0) = (inl e, w1) →
       error r = exn_str e
       ∧ (libs_explain L → error r ≠ EmptyString)).
Proof.
  split; [|intros *; apply failed_turn_error].
  destruct (starting_known_urls_total L w) as (k0 & w0 & Hstart).
  destruct (check_loop_turns L k0 urls [] w0) as (rs & k & w1 & Hloop & Hturns).
  destruct (save_total L k w1) as ([] & w2 & Hsave).
  exists k0, w0, rs, k, w1, (if truthy k then w2 else w1).
  split; [exact Hstart|]. split; [exact Hturns|].
  split; [|split; [eapply turns_urls; eauto|]].
  - unfold check_sitemaps, check_loop. run. rewrite Hstart. run.
    rewrite Hloop. cbn [app]. run.
    destruct (truthy k); [rewrite Hsave|]; reflexivity.
  - split; intros ->; done.
Qed.

(** ** The matcher *)

Lemma app_cons (c : ascii) (a b : string) :
  String c a +:+ b = String c (a +:+ b).
Proof. reflexivity. Qed.

Lemma app_nil_l_str (b : string) : EmptyString +:+ b = b.
Proof. reflexivity. Qed.

Lemma app_assoc_str (a b c : string) : (a +:+ b) +:+ c = a +:+ (b +:+ c).
Proof.
  induction a as [|x a IH]; [reflexivity|]. rewrite !app_cons, IH. reflexivity.
Qed.

Lemma length_app_str (a b : string) :
  String.length (a +:+ b) = (String.length a + String.length b)%nat.
Proof.
  induction a as [|x a IH]; [reflexivity|]. rewrite app_cons. cbn. congruence.
Qed.

Lemma substring_app_l (a b : string) :
  String.substring 0 (String.length a) (a +:+ b) = a.
Proof.
  induction a as [|c a IH].
  - rewrite app_nil_l_str. destruct b; reflexivity.
  - rewrite app_cons. cbn. rewrite IH. reflexivity.
Qed.

Lemma rmatch_sound r :
  group_free r = true →
  ∀ A s g (k : string → option string → option A) x,
    Re.rmatch r s g k = Some x →
    ∃ a s', s = a +:+ s' ∧ lang r a ∧ k s' g = Some x.
Proof.
  induction r as [|p|r1 IH1 r2 IH2|r1 IH1 r2 IH2|greedy r1 IH1|r1 IH1];
    intros Hgf A s g k x; cbn [Re.rmatch].
  - intros Hk. exists EmptyString, s. repeat split; [constructor|done].
  - destruct s as [|c s']; [done|]. destruct (p c) eqn:Hp; [|done].
    intros Hk. exists (String c EmptyString), s'.
    repeat split; [by constructor|done].
  - cbn in Hgf. apply andb_prop in Hgf as [Hg1 Hg2]. intros Hm.
    apply (IH1 Hg1) in Hm as (a & s1 & -> & Ha & Hm).
    apply (IH2 Hg2) in Hm as (b & s2 & -> & Hb & Hk).
    exists (a +:+ b), s2. rewrite app_assoc_str.
    repeat split; [by constructor|done].
  - cbn in Hgf. apply andb_prop in Hgf as [Hg1 Hg2].
    destruct (Re.rmatch r1 s g k) as [y|] eqn:H1.
    + intros [= ->]. apply (IH1 Hg1) in H1 as (a & s1 & -> & Ha & Hk).
      exists a, s1. repeat split; [by apply lang_alt_l|done].
    + intros H2. apply (IH2 Hg2) in H2 as (a & s1 & -> & Ha & Hk).
      exists a, s1. repeat split; [by apply lang_alt_r|done].
  - cbn in Hgf. generalize (String.length s) as n. intros n. revert s g.
    induction n as [|n IHn]; intros s g.
    + destruct greedy.
      * intros Hk. exists EmptyString, s. repeat split; [constructor|done].
      * destruct (k s g) as [y|] eqn:Hk; [|done]. intros H.
        exists EmptyString, s. repeat split; [constructor|congruence].
    + assert (Hmore :
        Re.rmatch r1 s g (λ s' g',
          if (String.length s' <? String.length s)%nat
          then (fix iter (n : nat) (s : string) (g : option string) {struct n}
                  : option A :=
                  if greedy then
                    match
                      match n with
                      | O => None
                      | S n' =>
                          Re.rmatch r1 s g (λ s' g',
                            if (String.length s' <? String.length s)%nat
                            then iter n' s' g' else None)
                      end
                    with
                    | Some x => Some x
                    | None => k s g
                    end
                  else
                    match k s g with
                    | Some x => Some x
                    | None =>
                        match n with
                        | O => None
                        | S n' =>
                            Re.rmatch r1 s g (λ s' g',
                              if (String.length s' <? String.length s)%nat
                              then iter n' s' g' else None)
                        end
                    end) n s' g'
          else None) = Some x →
        ∃ a s', s = a +:+ s' ∧ lang (Re.Star greedy r1) a ∧ k s' g = Some x).
      { intros Hm. apply (IH1 Hgf) in Hm as (a & s1 & -> & Ha & Hm).
        destruct (_ <? _)%nat; [|done].
        apply IHn in Hm as (b & s2 & -> & Hb & Hk).
        exists (a +:+ b), s2. rewrite app_assoc_str.
        repeat split; [by apply lang_star_more|done]. }
      destruct greedy.
      * match goal with |- match ?m with _ => _ end = _ → _ =>
          destruct m as [y|] eqn:Hm end.
        -- intros H. apply Hmore. congruence.
        -- intros Hk. exists EmptyString, s. repeat split; [constructor|done].
      * destruct (k s g) as [y|] eqn:Hk.
        -- intros H. exists EmptyString, s.
           repeat split; [constructor|congruence].
        -- apply Hmore.
  - discriminate.
Qed.

Lemma match_here_sound pre body post s n u :
  group_free pre = true → group_free body = true → group_free post = true →
  Re.match_here (Re.Cat pre (Re.Cat (Re.Grp body) post)) s = Some (n, u) →
  ∃ a b rest,
    s = a +:+ u +:+ b +:+ rest ∧ lang pre a ∧ lang body u ∧ lang post b
    ∧ n = (String.length a + String.length u + String.length b)%nat.
Proof.
  intros Hpre Hbody Hpost. unfold Re.match_here. cbn [Re.rmatch]. intros Hm.
  apply (rmatch_sound pre Hpre) in Hm as (a & s1 & -> & Ha & Hm).
  apply (rmatch_sound body Hbody) in Hm as (u' & s2 & -> & Hu & Hm).
  apply (rmatch_sound post Hpost) in Hm as (b & rest & -> & Hb & Hk).
  injection Hk as Hn Hcap.
  rewrite length_app_str in Hcap.
  replace (String.length u' + String.length (b +:+ rest)
           - String.length (b +:+ rest))%nat
    with (String.length u') in Hcap by lia.
  rewrite substring_app_l in Hcap. subst u'.
  exists a, b, rest. repeat split; try done.
  rewrite !length_app_str in Hn. lia.
Qed.

Lemma findall_skip_sound r s :
  ∀ skip u, u ∈ Re.findall_skip r skip s →
  ∃ before t n, s = before +:+ t ∧ Re.match_here r t = Some (n, u).
Proof.
  induction s as [|c s IH]; intros skip u; cbn [Re.findall_skip].
  - destruct skip; [|by intros ?%elem_of_nil].
    destruct (Re.match_here r EmptyString) as [[n g]|] eqn:Hm;
      [|by intros ?%elem_of_nil].
    intros ->%list_elem_of_singleton. by exists EmptyString, EmptyString, n.
  - destruct skip as [|skip].
    + destruct (Re.match_here r (String c s)) as [[n g]|] eqn:Hm.
      * intros [->|Hin]%elem_of_cons.
        -- by exists EmptyString, (String c s), n.
        -- apply IH in Hin as (b & t & m & -> & Ht).
           by exists (String c b), t, m.
      * intros Hin. apply IH in Hin as (b & t & m & -> & Ht).
        by exists (String c b), t, m.
    + intros Hin. apply IH in Hin as (b & t & m & -> & Ht).
      by exists (String c b), t, m.
Qed.

Lemma lang_lits s a : lang (Re.lits s) a → a = s.
Proof.
  revert a. induction s as [|c s IH]; intros a; cbn [Re.lits].
  - by inversion 1.
  - inversion 1 as [| |r1 r2 x y Hx Hy| | | | |]; subst.
    inversion Hx as [|p c' Hp| | | | | |]; subst.
    apply Ascii.eqb_eq in Hp as <-. rewrite (IH y Hy). reflexivity.
Qed.

Lemma lang_star_chr g p t : lang (Re.Star g (Re.Chr p)) t → all_chars p t = true.
Proof.
  intros H. remember (Re.Star g (Re.Chr p)) as r eqn:Hr.
  induction H as [| | | | | |g' r' a b Ha _ Hb IHb|]; try discriminate.
  - reflexivity.
  - injection Hr as -> ->. inversion Ha as [|p' c' Hp| | | | | |]; subst.
    rewrite app_cons, app_nil_l_str. cbn. rewrite Hp. by apply IHb.
Qed.

Lemma all_chars_app p a b :
  all_chars p (a +:+ b) = all_chars p a && all_chars p b.
Proof.
  induction a as [|c a IH]; [reflexivity|].
  rewrite app_cons. cbn. rewrite IH, andb_assoc. reflexivity.
Qed.

Lemma lang_loc_body u : lang Re.loc_body u → is_loc_url u.
Proof.
  unfold Re.loc_body. inversion 1 as [| |r1 r2 x y Hx Hy| | | | |]; subst.
  apply (lang_lits "http") in Hx as ->.
  inversion Hy as [| |r1 r2 o z Ho Hz| | | | |]; subst.
  inversion Hz as [| |r1 r2 sep t Hsep Ht| | | | |]; subst.
  apply (lang_lits "://") in Hsep as ->.
  unfold Re.Plus in Ht. inversion Ht as [| |r1 r2 c1 t' Hc Ht'| | | | |]; subst.
  assert (Hall : all_chars not_lt (c1 +:+ t') = true ∧ c1 +:+ t' ≠ EmptyString).
  { inversion Hc as [|p c' Hp| | | | | |]; subst.
    rewrite app_cons, app_nil_l_str. split; [|discriminate].
    apply lang_star_chr in Ht'. change (all_chars not_lt t' = true) in Ht'.
    change (not_lt c' = true) in Hp.
    cbn [all_chars]. rewrite Hp, Ht'. reflexivity. }
  destruct Hall as [Hall Hne].
  exists (c1 +:+ t'). split; [|done].
  unfold Re.Opt in Ho. inversion Ho as [| | |r1 r2 a Ha|r1 r2 a Ha| | |]; subst.
  - inversion Ha as [|p c' Hp| | | | | |]; subst.
    apply Ascii.eqb_eq in Hp as <-. right. reflexivity.
  - inversion Ha. left. reflexivity.
Qed.

Lemma loc_re_sound content u :
  u ∈ Re.findall Re.loc_re content →
  is_loc_url u
  ∧ ∃ before after,
      content = before +:+ "<loc>" +:+ u +:+ "</loc>" +:+ after.
Proof.
  intros Hin. apply findall_skip_sound in Hin as (before & t & n & -> & Hm).
  apply (match_here_sound (Re.lits "<loc>") Re.loc_body (Re.lits "</loc>"))
    in Hm as (a & b & rest & -> & Ha & Hu & Hb & _); [|reflexivity..].
  apply lang_lits in Ha as ->. apply lang_lits in Hb as ->.
  split; [by apply lang_loc_body|]. by exists before, rest.
Qed.

Lemma rmatch_cat {A} r1 r2 s g (k : string → option string → option A) :
  Re.rmatch (Re.Cat r1 r2) s g k
  = Re.rmatch r1 s g (λ s' g', Re.rmatch r2 s' g' k).
Proof. reflexivity. Qed.

Lemma rmatch_chr_cons {A} p c s g (k : string → option string → option A) :
  Re.rmatch (Re.Chr p) (String c s) g k = if p c then k s g else None.
Proof. reflexivity. Qed.

Lemma rmatch_lits {A} s rest g (k : string → option string → option A) :
  Re.rmatch (Re.lits s) (s +:+ rest) g k = k rest g.
Proof.
  induction s as [|c s IH]; [reflexivity|].
  cbn [Re.lits]. rewrite rmatch_cat, app_cons. unfold Re.lit at 1.
  rewrite rmatch_chr_cons, Ascii.eqb_refl. apply IH.
Qed.

(** A greedy star over a class takes a whole run of the class when what
    follows does not start in the class and the rest of the pattern
    matches there. *)
Lemma rmatch_star_run {A} p t rest g (k : string → option string → option A) x :
  all_chars p t = true →
  (∀ c r', rest = String c r' → p c = false) →
  k rest g = Some x →
  Re.rmatch (Re.Star true (Re.Chr p)) (t +:+ rest) g k = Some x.
Proof.
  intros Hall Hstop Hk. cbn [Re.rmatch].
  assert (Hfuel : (String.length t ≤ String.length (t +:+ rest))%nat)
    by (rewrite length_app_str; lia).
  revert Hfuel. generalize (String.length (t +:+ rest)) as n.
  induction t as [|c t IH]; intros n Hn.
  - rewrite app_nil_l_str.
    destruct n as [|n]; [exact Hk|].
    destruct rest as [|c r']; [exact Hk|].
    rewrite (Hstop c r' eq_refl). exact Hk.
  - cbn in Hall. apply andb_prop in Hall as [Hc Hall].
    destruct n as [|n]; [cbn in Hn; lia|].
    rewrite app_cons, Hc.
    replace (String.length (t +:+ rest) <? String.length (String c (t +:+ rest)))%nat
      with true by (symmetry; apply Nat.ltb_lt; cbn; lia).
    rewrite (IH Hall n) by (cbn in Hn; lia). reflexivity.
Qed.

Lemma rmatch_loc_body {A} u rest g (k : string → option string → option A) x :
  is_loc_url u →
  (∀ c r', rest = String c r' → not_lt c = false) →
  k rest g = Some x →
  Re.rmatch Re.loc_body (u +:+ rest) g k = Some x.
Proof.
  intros (t & Hu & Hne & Hall) Hstop Hk.
  destruct t as [|c t]; [done|]. cbn in Hall.
  apply andb_prop in Hall as [Hc Hall].
  assert (Hplus : ∀ g',
    g' = g →
    Re.rmatch (Re.Plus true (Re.none_of ["<"%char]))
      (String c t +:+ rest) g' k = Some x).
  { intros g' ->. unfold Re.Plus. rewrite rmatch_cat, app_cons.
    unfold Re.none_of at 1. rewrite rmatch_chr_cons.
    change (negb (existsb (Ascii.eqb c) ["<"%char])) with (not_lt c).
    rewrite Hc. apply (rmatch_star_run not_lt); done. }
  unfold Re.loc_body. destruct Hu as [-> | ->]; rewrite app_assoc_str.
  - change ("http://" +:+ String c t +:+ rest)
      with ("http" +:+ "://" +:+ String c t +:+ rest).
    rewrite rmatch_cat, rmatch_lits, rmatch_cat.
    unfold Re.Opt. cbn [Re.rmatch].
    change ("://" +:+ String c t +:+ rest)
      with (String ":" ("//" +:+ String c t +:+ rest)).
    unfold Re.lit at 1. cbn beta iota.
    replace (Ascii.eqb "s" ":") with false by reflexivity. cbn beta iota.
    change (String ":" ("//" +:+ String c t +:+ rest))
      with ("://" +:+ String c t +:+ rest).
    rewrite rmatch_lits. by apply Hplus.
  - change ("https://" +:+ String c t +:+ rest)
      with ("http" +:+ String "s" ("://" +:+ String c t +:+ rest)).
    rewrite rmatch_cat, rmatch_lits, rmatch_cat.
    unfold Re.Opt, Re.lit at 1. cbn [Re.rmatch].
    rewrite Ascii.eqb_refl. rewrite rmatch_lits. by rewrite Hplus.
Qed.

(** At the start of a span [<loc>u</loc>] the pattern matches the span. *)
Lemma match_here_loc u after :
  is_loc_url u →
  Re.match_here Re.loc_re ("<loc>" +:+ u +:+ "</loc>" +:+ after)
  = Some ((11 + String.length u)%nat, u).
Proof.
  intros Hu. unfold Re.match_here.
  change Re.loc_re
    with (Re.Cat (Re.lits "<loc>") (Re.Cat (Re.Grp Re.loc_body) (Re.lits "</loc>"))).
  rewrite rmatch_cat, rmatch_lits, rmatch_cat. cbn [Re.rmatch].
  apply rmatch_loc_body; [exact Hu| |].
  - intros c r' [= <- _]. reflexivity.
  - rewrite rmatch_lits. cbn [default]. f_equal. f_equal.
    + rewrite !length_app_str. cbn. lia.
    + rewrite length_app_str.
      replace (String.length u + String.length ("</loc>" +:+ after)
               - String.length ("</loc>" +:+ after))%nat
        with (String.length u) by lia.
      apply substring_app_l.
Qed.

Lemma app_split (a b c d : string) :
  a +:+ b = c +:+ d → (String.length a < String.length c)%nat →
  ∃ m, m ≠ EmptyString ∧ c = a +:+ m ∧ b = m +:+ d.
Proof.
  revert c. induction a as [|x a IH]; intros c Heq Hlen.
  - exists c. rewrite app_nil_l_str in *. split; [|done].
    intros ->. cbn in Hlen. lia.
  - destruct c as [|y c]; [cbn in Hlen; lia|].
    rewrite !app_cons in Heq. injection Heq as -> Heq.
    destruct (IH c Heq) as (m & Hm & -> & ->); [cbn in Hlen; lia|].
    exists m. done.
Qed.

Lemma suffix_at_lt (h p m : string) :
  all_chars not_lt h = true →
  p +:+ m = h +:+ "</loc>" →
  (∃ r, m = String "<" r) →
  m = "</loc>".
Proof.
  revert p. induction h as [|c h IH]; intros p Hall Heq [r ->].
  - rewrite app_nil_l_str in Heq.
    destruct p as [|x p]; [exact Heq|]. exfalso.
    rewrite app_cons in Heq. injection Heq as _ Heq.
    repeat (destruct p as [|? p];
            [rewrite app_nil_l_str in Heq; discriminate|];
            rewrite app_cons in Heq; injection Heq as _ Heq).
    destruct p; discriminate.
  - cbn in Hall. apply andb_prop in Hall as [Hc Hall].
    destruct p as [|x p].
    + rewrite app_nil_l_str, app_cons in Heq. injection Heq as <- _.
      discriminate.
    + rewrite !app_cons in Heq. injection Heq as _ Heq.
      apply (IH p Hall Heq). eauto.
Qed.

Lemma is_loc_url_no_lt u : is_loc_url u → all_chars not_lt u = true.
Proof.
  intros (t & [-> | ->] & _ & Hall); rewrite all_chars_app, Hall; reflexivity.
Qed.

(** A match that starts before a span ends before it. *)
Lemma loc_match_stops_before p u after n g :
  p ≠ EmptyString →
  Re.match_here Re.loc_re (p +:+ "<loc>" +:+ u +:+ "</loc>" +:+ after)
  = Some (n, g) →
  (n ≤ String.length p)%nat.
Proof.
  intros Hp Hm.
  apply (match_here_sound (Re.lits "<loc>") Re.loc_body (Re.lits "</loc>"))
    in Hm as (a & b & rest & Heq & Ha & Hg & Hb & ->); [|reflexivity..].
  apply lang_lits in Ha as ->. apply lang_lits in Hb as ->.
  apply lang_loc_body, is_loc_url_no_lt in Hg.
  destruct (le_lt_dec (String.length "<loc>" + String.length g
                       + String.length "</loc>") (String.length p))
    as [Hle|Hlt]; [exact Hle|exfalso].
  symmetry in Heq.
  change ("<loc>" +:+ g +:+ "</loc>" +:+ rest)
    with ("<loc>" +:+ (g +:+ "</loc>" +:+ rest)) in Heq.
  rewrite <- (app_assoc_str g), <- (app_assoc_str "<loc>") in Heq.
  symmetry in Heq.
  apply app_split in Heq as (m & Hm & HM & HS);
    [|rewrite !length_app_str; cbn in *; lia].
  destruct m as [|c m]; [done|].
  rewrite app_cons in HS. injection HS as <- HS.
  destruct p as [|x p]; [done|].
  change ("<loc>" +:+ g +:+ "</loc>")
    with (String "<" ("loc>" +:+ g +:+ "</loc>")) in HM.
  rewrite app_cons in HM. injection HM as _ HM. symmetry in HM.
  change (String "l" ("oc>" +:+ g +:+ "</loc>"))
    with (("loc>" +:+ g) +:+ "</loc>") in HM.
  apply suffix_at_lt in HM; [|rewrite all_chars_app, Hg; reflexivity|eauto].
  injection HM as ->. discriminate.
Qed.

Lemma findall_skip_complete r t n u before :
  Re.match_here r t = Some (n, u) →
  (∀ p1 p2 m g,
     before = p1 +:+ p2 → p2 ≠ EmptyString →
     Re.match_here r (p2 +:+ t) = Some (m, g) → (m ≤ String.length p2)%nat) →
  ∀ skip, (skip ≤ String.length before)%nat →
  u ∈ Re.findall_skip r skip (before +:+ t).
Proof.
  intros Ht. induction before as [|c b IH]; intros Hstop skip Hskip.
  - rewrite app_nil_l_str. cbn in Hskip. replace skip with 0%nat by lia.
    destruct t; cbn [Re.findall_skip]; rewrite Ht; apply list_elem_of_here.
  - assert (Hb : ∀ p1 p2 m g,
              b = p1 +:+ p2 → p2 ≠ EmptyString →
              Re.match_here r (p2 +:+ t) = Some (m, g) →
              (m ≤ String.length p2)%nat).
    { intros p1 p2 m g -> Hp2. apply (Hstop (String c p1)); done. }
    rewrite app_cons. cbn [Re.findall_skip].
    destruct skip as [|skip].
    + destruct (Re.match_here r (String c (b +:+ t))) as [[m g]|] eqn:Hm.
      * apply list_elem_of_further. apply (IH Hb).
        assert (m ≤ String.length (String c b))%nat
          by (apply (Hstop EmptyString (String c b) m g); done).
        cbn in *. lia.
      * apply (IH Hb). lia.
    + apply (IH Hb). cbn in Hskip. lia.
Qed.

(** What [re.findall] returns for the pattern of [<loc>]: the URLs of
    the spans [<loc>u</loc>] of the content, all of them. *)
Lemma loc_re_spans content u :
  u ∈ Re.findall Re.loc_re content ↔
  is_loc_url u
  ∧ ∃ before after, content = before +:+ "<loc>" +:+ u +:+ "</loc>" +:+ after.
Proof.
  split; [apply loc_re_sound|].
  intros (Hu & before & after & ->).
  apply (findall_skip_complete _ _ (11 + String.length u)%nat).
  - by apply match_here_loc.
  - intros p1 p2 m g _ Hp2. by apply loc_match_stops_before.
  - lia.
Qed.

(** ** The parser *)

Lemma parse_sitemap_xml_path L d content w w0 :
  parse_html L content w = (inr None, w0) →
  parse_sitemap L (S d) content w =
  try_except
    (root ← lift (etree_fromstring L content);
     if PyStr.endswith (tag root) "sitemapindex" then
       for_each
         (λ (urls : gset string) (sitemap : string),
            try_except
              (sub_sitemap_content ← fetch_sitemap L d sitemap false;
               sub_urls ← parse_sitemap L d sub_sitemap_content;
               mret (urls ∪ sub_urls))
              any_exception
              (λ sub_e,
                 logger ERROR
                   "Error processing sub-sitemap {sitemap}: {str(sub_e)}"
                   [LStr sitemap; LStr (exn_str sub_e)];;
                 mret urls))
         ∅ (xpath_loc_text "sitemap" root)
     else mret (list_to_set (xpath_loc_text "url" root)))
    any_exception
    (regex_fallback content) w0.
Proof.
  intros Hh. cbn [parse_sitemap]. rewrite bind_run, Hh. reflexivity.
Qed.




Lemma parse_html_not_html L content w :
  looks_like_html content = false →
  parse_html L content w = (inr None, w).
Proof. intros H. unfold parse_html. rewrite H. reflexivity. Qed.

Lemma xml_failure_run L d content w w0 e :
  parse_html L content w = (inr None, w0) →
  etree_fromstring L content = inl e →
  parse_sitemap L (S d) content w = regex_fallback content e w0.
Proof.
  intros Hh He. rewrite (parse_sitemap_xml_path _ _ _ _ _ Hh).
  rewrite try_except_run, bind_run. unfold lift. rewrite He. reflexivity.
Qed.

(** C6. When the XML parser raises, the result is that of the pattern
    [<loc>(https?://[^<]+)</loc>] over the content. The pattern finds the
    URL of every span [<loc>u</loc>] where [u] starts with [http://] or
    [https://] and goes on without [<], and nothing else. The result is
    the set of the URLs found when there is one, the exception of the XML
    parser again when there is none. On
    [<urlset><loc>https://a.test/x</loc>], which no XML parser accepts,
    the result is the set of that one URL. *)
Theorem xml_failure_falls_back_to_regex (L : libs) (d : nat)
    (content : string) (w w0 : world) (e : exn) :
  parse_html L content w = (inr None, w0) →
  etree_fromstring L content = inl e →
  (∀ u, u ∈ Re.findall Re.loc_re content ↔
        is_loc_url u
        ∧ ∃ before after,
            content = before +:+ "<loc>" +:+ u +:+ "</loc>" +:+ after)
  ∧ (Re.findall Re.loc_re content ≠ [] →
     ∃ w', parse_sitemap L (S d) content w
           = (inr (list_to_set (Re.findall Re.loc_re content)), w'))
  ∧ (Re.findall Re.loc_re content = [] →
     ∃ w', parse_sitemap L (S d) content w = (inl e, w'))
  ∧ (∀ w2 e2,
       etree_fromstring L MALFORMED_EXAMPLE = inl e2 →
       ∃ w', parse_sitemap L (S d) MALFORMED_EXAMPLE w2
             = (inr {["https://a.test/x"]}, w')).
Proof.
  intros Hh He. split; [apply loc_re_spans|]. split; [|split].
  - intros Hne. rewrite (xml_failure_run _ _ _ _ _ _ Hh He).
    unfold regex_fallback. run.
    destruct (Re.findall Re.loc_re content) as [|x l]; [done|]. run.
    rewrite (left_id_L ∅ (∪)). eauto.
  - intros Hnil. rewrite (xml_failure_run _ _ _ _ _ _ Hh He).
    unfold regex_fallback. run. rewrite Hnil. eauto.
  - intros w2 e2 He2.
    rewrite (xml_failure_run L d MALFORMED_EXAMPLE w2 w2 e2);
      [|apply parse_html_not_html; vm_compute; reflexivity|exact He2].
    unfold regex_fallback. run.
    replace (Re.findall Re.loc_re MALFORMED_EXAMPLE) with ["https://a.test/x"]
      by (vm_compute; reflexivity).
    run. cbn [list_to_set].
    rewrite (left_id_L ∅ (∪)), (right_id_L ∅ (∪)). eauto.
Qed.



(** ** The fetcher on a robots.txt *)

Lemma raise_for_status_ok r w :
  (status_code r < 400 ∨ 600 ≤ status_code r)%nat →
  raise_for_status r w = (inr (), w).
Proof.
  intros Hc. unfold raise_for_status.
  destruct (400 <=? status_code r)%nat eqn:E1;
    destruct (status_code r <? 500)%nat eqn:E2;
    destruct (500 <=? status_code r)%nat eqn:E3;
    destruct (status_code r <? 600)%nat eqn:E4; cbn; try reflexivity;
    repeat match goal with
           | H : (_ <=? _)%nat = true |- _ => apply Nat.leb_le in H
           | H : (_ <=? _)%nat = false |- _ => apply Nat.leb_gt in H
           | H : (_ <? _)%nat = true |- _ => apply Nat.ltb_lt in H
           | H : (_ <? _)%nat = false |- _ => apply Nat.ltb_ge in H
           end; lia.
Qed.

(** The body of a robots.txt without a [Sitemap:] line. *)
Lemma follow_robots_none fetch content flag w :
  Re.findall Re.robots_sitemap_re content = [] →
  follow_robots fetch content flag w =
  (inl (Exn RequestException "No sitemaps found in robots.txt"),
   appended
     [LogRecord INFO "Parsing robots.txt to find sitemap references" [];
      LogRecord WARNING "No sitemaps found in robots.txt" []] w).
Proof.
  intros Hnone. unfold follow_robots. run. rewrite Hnone. run. world_eq.
Qed.

(** With the flag set, the body is returned and [fetch] is not called. *)
Lemma follow_robots_flagged fetch content sitemap_url rest w :
  Re.findall Re.robots_sitemap_re content = sitemap_url :: rest →
  follow_robots fetch content true w =
  (inr content,
   appended
     [LogRecord INFO "Parsing robots.txt to find sitemap references" [];
      LogRecord INFO "Found {len(sitemap_urls)} sitemap(s) in robots.txt"
        [LNat (S (List.length rest))];
      LogRecord INFO "Using first sitemap from robots.txt: {sitemap_url}"
        [LStr sitemap_url];
      LogRecord WARNING
        "Already redirected from robots.txt, not following another redirect to avoid recursion"
        []] w).
Proof.
  intros Hsome. unfold follow_robots. run. rewrite Hsome. run. world_eq.
Qed.

(** Without the flag, the first URL is fetched with the flag set; the
    body is returned when that fetch raises. *)
Lemma follow_robots_unflagged fetch content sitemap_url rest w :
  Re.findall Re.robots_sitemap_re content = sitemap_url :: rest →
  follow_robots fetch content false w =
  match
    fetch sitemap_url true
      (appended
         [LogRecord INFO "Parsing robots.txt to find sitemap references" [];
          LogRecord INFO "Found {len(sitemap_urls)} sitemap(s) in robots.txt"
            [LNat (S (List.length rest))];
          LogRecord INFO "Using first sitemap from robots.txt: {sitemap_url}"
            [LStr sitemap_url];
          LogRecord INFO "Following sitemap from robots.txt (one level only)" []]
         w)
  with
  | (inr new_content, w2) => (inr new_content, w2)
  | (inl e, w2) =>
      (inr content,
       appended
         [LogRecord ERROR "Error following robots.txt redirect: {str(e)}"
            [LStr (exn_str e)]] w2)
  end.
Proof.
  intros Hsome. unfold follow_robots. run. rewrite Hsome. run.
  match goal with
  | |- match fetch _ _ ?wa with _ => _ end = match fetch _ _ ?wb with _ => _ end =>
      replace wa with wb by (apply world_ext; cbn; rewrite <- ?app_assoc; reflexivity)
  end.
  destruct (fetch sitemap_url true _) as [[e|c] w2]; reflexivity.
Qed.

(** A request for a robots.txt on a host without special treatment, with
    an answer that is not an error, comes to [follow_robots] on the body. *)
Lemma fetch_robots_request L d url flag w parts resp :
  urlparse L url = inr parts →
  special_domain (PyStr.lower (netloc parts)) = false →
  PyStr.contains "robots.txt" (PyStr.lower url) = true →
  requests_get L (List.length (sent w)) url = inr resp →
  (status_code resp < 400 ∨ 600 ≤ status_code resp)%nat →
  ∃ w1,
    sent w1 = sent w ++ [url] ∧ files w1 = files w
    ∧ fetch_sitemap L (S d) url flag w =
      try_except
        (follow_robots (fetch_sitemap L d) (text resp) flag)
        is_request_exception
        (λ e,
           logger ERROR "Error fetching sitemap {url}: {str(e)}"
                  [LStr url; LStr (exn_str e)];;
           raise e) w1.
Proof.
  intros Hparse Hdom Hrobots Hget Hstatus.
  unfold special_domain in Hdom.
  apply orb_false_elim in Hdom as [Hdom Hg2].
  apply orb_false_elim in Hdom as [Hdom Hg1].
  apply orb_false_elim in Hdom as [Hdom Hx].
  apply orb_false_elim in Hdom as [Hgh Htw].
  assert (Hspecial : special_cases url parts w = (inr (url, false), w)).
  { unfold special_cases. rewrite Hgh, Htw, Hx, Hg1, Hg2. reflexivity. }
  assert (Hpath : with_sitemap_path url false w = (inr url, w)).
  { unfold with_sitemap_path. rewrite Hrobots. cbn [negb].
    rewrite andb_false_r. reflexivity. }
  set (ct := default EmptyString (content_type_header resp)).
  set (warn := negb (PyStr.contains "xml" (PyStr.lower ct)
                     || PyStr.contains "text/plain" (PyStr.lower ct))).
  set (w0 := World (files w) (read_denied w) (write_denied w) (sent w ++ [url])
               (logged w ++ [LogRecord INFO "Sending request to {url}" [LStr url]])).
  exists (if warn
          then appended
                 [LogRecord WARNING
                    "Response content type '{content_type}' may not be a proper sitemap format"
                    [LStr ct]] w0
          else w0).
  split; [destruct warn; reflexivity|]. split; [destruct warn; reflexivity|].
  cbn [fetch_sitemap]. unfold fetch_once.
  rewrite bind_run. unfold lift. rewrite Hparse. cbn beta iota.
  rewrite bind_run, Hspecial. cbn beta iota.
  rewrite bind_run, Hpath. cbn beta iota.
  rewrite !try_except_run. unfold request.
  rewrite bind_run, logger_run, bind_run.
  unfold http_get. cbn [sent appended files read_denied write_denied logged].
  rewrite Hget. cbn beta iota. fold w0. fold ct. fold warn.
  rewrite bind_run.
  destruct warn; run; rewrite raise_for_status_ok by exact Hstatus;
    cbn beta iota; rewrite Hrobots; reflexivity.
Qed.

(** ** The examples *)

Lemma scenario_explains pages xml_docs json_docs :
  libs_explain (Scenario.make pages xml_docs json_docs).
Proof.
  split; cbn.
  - intros n url e. unfold Scenario.serve.
    destruct (Scenario.lookup_str url pages); intros [= <-]. discriminate.
  - intros c e. unfold Scenario.parse_xml.
    destruct (Scenario.lookup_str c xml_docs); intros [= <-]. discriminate.
  - intros url e. unfold Scenario.urlparse.
    destruct (Scenario.span _ url) as [sch rest].
    destruct (match sch with
              | EmptyString => _
              | String _ _ => _
              end) as [sch' rest'].
    destruct (xorb _ _); intros [= <-]. discriminate.
  - intros base url e. unfold Scenario.urljoin.
    destruct (Scenario.urlparse base) as [e'|parts] eqn:Hb.
    + intros [= <-]. revert Hb. unfold Scenario.urlparse.
      destruct (Scenario.span _ base) as [sch rest].
      destruct (match sch with
                | EmptyString => _
                | String _ _ => _
                end) as [sch' rest'].
      destruct (xorb _ _); intros [= <-]. discriminate.
    + destruct (String.prefix "//" url); discriminate.
Qed.

(** C8 at a site whose robots.txt names a page that links to a second
    robots.txt address: one call of [fetch_sitemap] follows two redirects
    of a robots.txt, the second inside the first, because the link of the
    page is fetched without the flag. When the second robots.txt names
    the page again, the redirects go on until the recursion limit: 25 of
    them at a limit of 50. *)
Theorem robots_redirects_nest :
  let run :=
    fetch_sitemap Scenario.site_robots 10 Scenario.ROBOTS_1 false
                  Scenario.blank in
  let cycle :=
    fetch_sitemap Scenario.site_cycle 50 Scenario.ROBOTS_1 false
                  Scenario.blank in
  (run.1 = inr Scenario.URLSET_A
   ∧ sent run.2
     = [Scenario.ROBOTS_1; Scenario.PAGE_2; Scenario.ROBOTS_3; Scenario.REAL_4]
   ∧ robots_redirects run.2 = 2)
  ∧ (cycle.1 = inr ("Sitemap: " +:+ Scenario.PAGE_2)
     ∧ List.length (sent cycle.2) = 50
     ∧ robots_redirects cycle.2 = 25).
Proof. vm_compute. done. Qed.

(** C3 as stated fails in two places. Where the mapping is empty after
    the loop, nothing is saved: the only URL of the run fails, writing is
    possible, and no store file is written. And the error of a failed
    fetch is empty where the exception has no message: the request
    raises an exception without one, and the result of the URL has the
    empty string as its error. *)
Lemma check_sitemaps_skips_save_and_empty_error :
  (let run :=
     check_sitemaps Scenario.site_a ["https://twitter.com/"] Scenario.blank in
   run.1 = inr [Result "https://twitter.com/" 0 []
                       "This site doesn't provide public sitemaps"]
   ∧ writable Scenario.blank TEMP_FILE
   ∧ writable Scenario.blank KNOWN_URLS_FILE
   ∧ files run.2 !! KNOWN_URLS_FILE = None
   ∧ files run.2 = files Scenario.blank)
  ∧ (let run :=
       check_sitemaps Scenario.site_silent [Scenario.SITEMAP_A]
         Scenario.blank in
     (fetch_and_parse Scenario.site_silent Scenario.SITEMAP_A
        (fetching Scenario.SITEMAP_A Scenario.blank)).1
     = inl (Exn RequestException EmptyString)
     ∧ run.1 = inr [Result Scenario.SITEMAP_A 0 [] EmptyString]).
Proof.
  split.
  - split; [vm_compute; reflexivity|].
    split; [apply (bool_decide_unpack _); vm_compute; exact I|].
    split; [apply (bool_decide_unpack _); vm_compute; exact I|].
    split; vm_compute; reflexivity.
  - split; vm_compute; reflexivity.
Qed.


Lemma first_check_reports_all_witness :
  (∅ : gmap string json) !! Scenario.SITEMAP_A = None
  ∧ ∃ r d' w',
      check_one Scenario.site_a (JDict ∅) Scenario.SITEMAP_A Scenario.blank
      = (inr (r, JDict d'), w')
      ∧ error r = EmptyString
      ∧ list_to_set (new_urls r) = ({[Scenario.P1; Scenario.P2]} : gset string)
      ∧ d' = <[Scenario.SITEMAP_A := stored {[Scenario.P1; Scenario.P2]}]> ∅.
Proof.
  split; [reflexivity|].
  destruct (first_check_reports_all Scenario.site_a ∅ Scenario.SITEMAP_A
              Scenario.blank
              (fetch_and_parse Scenario.site_a Scenario.SITEMAP_A
                 (fetching Scenario.SITEMAP_A Scenario.blank)).2
              {[Scenario.P1; Scenario.P2]})
    as (r & d' & w' & Hrun & _ & Herr & _ & Hnew & Hd & _).
  - reflexivity.
  - vm_compute. reflexivity.
  - exists r, d', w'.
    split; [exact Hrun|]. split; [exact Herr|]. split; [exact Hnew|exact Hd].
Defined.

Lemma unchanged_check_reports_none_witness :
  ∃ r w',
    check_one Scenario.site_a Scenario.STORE_A Scenario.SITEMAP_A Scenario.blank
    = (inr (r, Scenario.STORE_A), w')
    ∧ new_urls r = [] ∧ total_urls r = 2.
Proof.
  destruct (unchanged_check_reports_none Scenario.site_a
              {[Scenario.SITEMAP_A := JList [JStr Scenario.P1; JStr Scenario.P2]]}
              Scenario.SITEMAP_A [Scenario.P1; Scenario.P2] Scenario.blank
              (fetch_and_parse Scenario.site_a Scenario.SITEMAP_A
                 (fetching Scenario.SITEMAP_A Scenario.blank)).2
              (list_to_set [Scenario.P1; Scenario.P2]))
    as (r & w' & Hrun & _ & _ & Htotal & Hnew).
  - vm_compute. reflexivity.
  - reflexivity.
  - vm_compute. reflexivity.
  - exists r, w'. split; [exact Hrun|]. split; [exact Hnew|].
    rewrite Htotal. vm_compute. reflexivity.
Defined.

Lemma check_sitemaps_turns_witness :
  (∃ results w',
     check_sitemaps Scenario.site_a
       [Scenario.SITEMAP_A; "https://twitter.com/"] Scenario.blank
     = (inr results, w')
     ∧ sitemap_url <$> results = [Scenario.SITEMAP_A; "https://twitter.com/"])
  ∧ (∀ known_urls r known_urls' w',
       turn Scenario.site_a known_urls Scenario.blank "https://twitter.com/"
         r known_urls' w' →
       error r ≠ EmptyString).
Proof.
  destruct (check_sitemaps_turns Scenario.site_a
              [Scenario.SITEMAP_A; "https://twitter.com/"] Scenario.blank)
    as [(k0 & w0 & results & k & w1 & w' & _ & _ & Hrun & Hurls & _) Hfailed].
  split.
  - exists results, w'. split; [exact Hrun|exact Hurls].
  - intros known_urls r known_urls' w2 Hturn.
    destruct (Hfailed known_urls Scenario.blank "https://twitter.com/" r
                known_urls' w2
                (Exn RequestException
                   "This site doesn't provide public sitemaps")
                (fetch_and_parse Scenario.site_a "https://twitter.com/"
                   (fetching "https://twitter.com/" Scenario.blank)).2 Hturn)
      as [_ Hexplained].
    + vm_compute. reflexivity.
    + apply Hexplained, scenario_explains.
Defined.


Lemma load_known_urls_recovers_witness :
  ∃ w',
    load_known_urls Scenario.store_libs Scenario.corrupt_disk = (inr (JDict ∅), w')
    ∧ files w' !! KNOWN_URLS_FILE = Some (File "not json")
    ∧ files w' !! BACKUP_FILE = Some (File "not json").
Proof.
  destruct (load_known_urls_recovers Scenario.store_libs Scenario.corrupt_disk)
    as (_ & _ & Hcorrupt).
  destruct (Hcorrupt "not json"
              (Exn JSONDecodeError "Expecting value: line 1 column 1 (char 0)"))
    as (w' & Hrun & Hstore & Hbackup & _).
  - vm_compute. reflexivity.
  - vm_compute. intros H. apply (bool_decide_pack _) in H. vm_compute in H.
    exact H.
  - vm_compute. reflexivity.
  - reflexivity.
  - exists w'. split; [exact Hrun|]. split; [exact Hstore|].
    rewrite Hbackup.
    + apply lookup_insert_eq.
    + apply (bool_decide_unpack _). vm_compute. exact I.
Defined.

Lemma xml_failure_falls_back_to_regex_witness :
  ∃ w',
    parse_sitemap Scenario.site_a 1 MALFORMED_EXAMPLE Scenario.blank
    = (inr (list_to_set (Re.findall Re.loc_re MALFORMED_EXAMPLE)), w').
Proof.
  apply (xml_failure_falls_back_to_regex Scenario.site_a 0 MALFORMED_EXAMPLE
           Scenario.blank Scenario.blank
           (Exn XMLSyntaxError "Premature end of data")).
  - vm_compute. reflexivity.
  - vm_compute. reflexivity.
  - vm_compute. discriminate.
Defined.



Lemma save_known_urls_non_dict_witness :
  ∃ w',
    save_known_urls Scenario.store_libs (JList []) Scenario.blank = (inr (), w')
    ∧ files w' !! KNOWN_URLS_FILE = Some (File "{}").
Proof.
  destruct (save_known_urls_non_dict Scenario.store_libs (JList [])
              Scenario.blank) as (_ & Hwrite).
  - reflexivity.
  - apply Hwrite.
    + vm_compute. reflexivity.
    + apply (bool_decide_unpack _). vm_compute. exact I.
    + apply (bool_decide_unpack _). vm_compute. exact I.
Defined.

(** ** The fetcher and the parser leave the disk alone *)

Lemma keeps_ret {A} (x : A) : keeps_disk (mret x).
Proof. intros w. done. Qed.

Lemma keeps_logger l fmt args : keeps_disk (logger l fmt args).
Proof. intros w. done. Qed.

Lemma keeps_raise {A} e : keeps_disk (raise (A := A) e).
Proof. intros w. done. Qed.

Lemma keeps_lift {A} (r : exn + A) : keeps_disk (lift r).
Proof. intros w. done. Qed.

Lemma keeps_http_get L url : keeps_disk (http_get L url).
Proof. intros w. done. Qed.

Lemma keeps_bind {A B} (m : M A) (f : A → M B) :
  keeps_disk m → (∀ x, keeps_disk (f x)) → keeps_disk (m ≫= f).
Proof.
  intros Hm Hf w. rewrite bind_run. specialize (Hm w).
  destruct (m w) as [[e|x] w']; [exact Hm|].
  specialize (Hf x w'). cbn [snd] in *.
  destruct Hm as (H1 & H2 & H3), Hf as (G1 & G2 & G3).
  repeat split; congruence.
Qed.

Lemma keeps_try {A} (m : M A) C (h : exn → M A) :
  keeps_disk m → (∀ e, keeps_disk (h e)) → keeps_disk (try_except m C h).
Proof.
  intros Hm Hh w. rewrite try_except_run. specialize (Hm w).
  destruct (m w) as [[e|x] w']; [|exact Hm].
  destruct (C e); [|exact Hm].
  specialize (Hh e w'). cbn [snd] in *.
  destruct Hm as (H1 & H2 & H3), Hh as (G1 & G2 & G3).
  repeat split; congruence.
Qed.

Lemma keeps_for_each {A S} (f : S → A → M S) (l : list A) :
  (∀ s x, keeps_disk (f s x)) → ∀ s, keeps_disk (for_each f s l).
Proof.
  intros Hf. induction l as [|x l IH]; intros s; cbn [for_each].
  - apply keeps_ret.
  - apply keeps_bind; [apply Hf|]. intros s'. apply IH.
Qed.

Ltac keep :=
  repeat
    match goal with
    | |- keeps_disk (_ ≫= _) => apply keeps_bind; [|intros ?]
    | |- keeps_disk (mret _) => apply keeps_ret
    | |- keeps_disk (logger _ _ _) => apply keeps_logger
    | |- keeps_disk (raise _) => apply keeps_raise
    | |- keeps_disk (lift _) => apply keeps_lift
    | |- keeps_disk (http_get _ _) => apply keeps_http_get
    | |- keeps_disk (try_except _ _ _) => apply keeps_try; [|intros ?]
    | |- keeps_disk (for_each _ _ _) => apply keeps_for_each; intros ? ?
    | |- keeps_disk (if ?b then _ else _) => destruct b
    | |- keeps_disk (match ?x with _ => _ end) => destruct x
    | |- keeps_disk (let '(_, _) := ?x in _) => destruct x
    end.

Lemma keeps_fetch_sitemap L depth :
  ∀ url flag, keeps_disk (fetch_sitemap L depth url flag).
Proof.
  induction depth as [|depth IH]; intros url flag; cbn [fetch_sitemap].
  - apply keeps_raise.
  - unfold fetch_once, special_cases, with_sitemap_path, request,
      follow_robots, sniff, via_origin_robots, raise_for_status.
    keep; apply IH.
Qed.

Lemma keeps_parse_sitemap L depth :
  ∀ c, keeps_disk (parse_sitemap L depth c).
Proof.
  induction depth as [|depth IH]; intros c; cbn [parse_sitemap].
  - apply keeps_raise.
  - unfold parse_html, absolute_html_urls, regex_fallback.
    keep; first [apply keeps_fetch_sitemap | apply IH].
Qed.

(** The fetch and the parse of a sitemap change nothing on the disk. *)
Lemma keeps_fetch_and_parse L url : keeps_disk (fetch_and_parse L url).
Proof.
  unfold fetch_and_parse. apply keeps_bind.
  - apply keeps_fetch_sitemap.
  - intros c. apply keeps_parse_sitemap.
Qed.

(** The example of two runs on a site whose sitemap lists two pages: the
    first run reports both as new and writes the store, the second
    reports none and leaves the disk as it is. *)
Example two_runs :
  let first :=
    check_sitemaps Scenario.site_a_disk [Scenario.SITEMAP_A] Scenario.blank in
  let second :=
    check_sitemaps Scenario.site_a_disk [Scenario.SITEMAP_A] first.2 in
  first.1
  = inr [Result Scenario.SITEMAP_A 2 [Scenario.P1; Scenario.P2] EmptyString]
  ∧ files first.2 !! KNOWN_URLS_FILE
    = Some (File Scenario.STORE_A_INDENTED)
  ∧ second.1 = inr [Result Scenario.SITEMAP_A 2 [] EmptyString]
  ∧ files second.2 = files first.2.
Proof. vm_compute. done. Qed.
(** * Further properties *)

(** ** The store: what a call writes *)

Lemma read_file_same_world p w r w' : read_file p w = (r, w') → w' = w.
Proof.
  unfold read_file. destruct (files w !! p) as [[c|]|];
    try destruct (decide (p ∈ read_denied w)); congruence.
Qed.

Lemma save_run L v w :
  save_known_urls L v w
  = save_known_urls L (saved_value v)
      (if isinstance_dict v then w
       else appended
              [LogRecord ERROR
                 "Expected a dictionary for known_urls, got {type(known_urls)}"
                 [LStr ("<class '" +:+ type_name v +:+ "'>")]] w).
Proof.
  unfold saved_value. destruct (isinstance_dict v) eqn:Hv; [reflexivity|].
  by apply save_non_dict_run.
Qed.

Lemma saved_value_dict v : ∃ d, saved_value v = JDict d.
Proof. unfold saved_value. destruct v; cbn; eauto. Qed.

(** X1. A mapping saved where the temporary file and the store file can
    be written is what the next load returns, and the temporary file is
    gone; the library is assumed to read back what it writes. *)
Theorem save_then_load (L : libs) (d : gmap string json) (s : string)
    (w : world) :
  json_dumps L (JDict d) = inr s →
  json_loads L s = inr (JDict d) →
  writable w TEMP_FILE → writable w KNOWN_URLS_FILE →
  KNOWN_URLS_FILE ∉ read_denied w →
  ∃ w1,
    save_known_urls L (JDict d) w = (inr (), w1)
    ∧ files w1 !! KNOWN_URLS_FILE = Some (File s)
    ∧ files w1 !! TEMP_FILE = None
    ∧ load_known_urls L w1 = (inr (JDict d), w1).
Proof.
  intros Hs Hl Ht Hk Hr. eexists. split; [by apply (save_dict_ok L d s)|].
  cbn [files set_files]. split; [apply lookup_insert_eq|]. split.
  - rewrite lookup_insert_ne by (symmetry; apply temp_ne_store).
    apply lookup_delete_eq.
  - apply (load_valid L _ s); [apply lookup_insert_eq|exact Hr|exact Hl].
Qed.

(** X2. [save_known_urls] never raises and never leaves the store file
    half written: afterwards the store file is the one before the call,
    or holds the whole serialization with no temporary file left; no
    other file than these two is touched; and when the serialization
    itself fails, the disk is as before. *)
Theorem save_known_urls_atomic (L : libs) (v : json) (w : world) :
  ∃ w',
    save_known_urls L v w = (inr (), w')
    ∧ (∀ p, p ≠ KNOWN_URLS_FILE → p ≠ TEMP_FILE →
            files w' !! p = files w !! p)
    ∧ (files w' !! KNOWN_URLS_FILE = files w !! KNOWN_URLS_FILE
       ∨ ∃ s, json_dumps L (saved_value v) = inr s
              ∧ files w' !! KNOWN_URLS_FILE = Some (File s)
              ∧ files w' !! TEMP_FILE = None)
    ∧ (∀ e, json_dumps L (saved_value v) = inl e → files w' = files w).
Proof.
  rewrite save_run. destruct (saved_value_dict v) as [d ->].
  set (w0 := if isinstance_dict v then w else _).
  assert (Hw0 : files w0 = files w ∧ write_denied w0 = write_denied w)
    by (subst w0; destruct (isinstance_dict v); done).
  destruct Hw0 as [Hf0 Hd0]. rewrite <- Hf0. clearbody w0.
  rewrite save_dict_run. run.
  destruct (json_dumps L (JDict d)) as [e|s] eqn:Hs.
  { run. eexists. split; [reflexivity|]. cbn [files appended].
    split; [done|]. split; [by left|done]. }
  run. destruct (decide (writable w0 TEMP_FILE)) as [Ht|Ht].
  - rewrite open_write_ok by exact Ht. run. unfold write_opened. run.
    match goal with |- context [os_replace ?a ?b ?w1] =>
      destruct (os_replace a b w1) as [[e|[]] w2] eqn:Hrep end.
    + apply os_replace_fails in Hrep. subst w2. cbn.
      eexists. split; [reflexivity|]. cbn [files set_files appended].
      split; [|split; [|done]].
      * intros p Hp1 Hp2. by rewrite !lookup_insert_ne.
      * left. by rewrite !lookup_insert_ne by apply temp_ne_store.
    + eexists. split; [reflexivity|].
      revert Hrep. unfold os_replace. cbn [files set_files write_denied].
      rewrite lookup_insert_eq.
      destruct (_ !! KNOWN_URLS_FILE) as [[?|]|];
        try destruct (decide (KNOWN_URLS_FILE ∈ write_denied w0));
        intros [= <-]; cbn [files set_files];
        (split; [|split; [|done]]);
        try (intros p Hp1 Hp2;
             rewrite lookup_insert_ne, lookup_delete_ne,
               !lookup_insert_ne by done; done);
        right; exists s; (split; [done|]);
        (split; [apply lookup_insert_eq|]);
        rewrite lookup_insert_ne by (symmetry; apply temp_ne_store);
        apply lookup_delete_eq.
  - destruct (open_write_fails w0 TEMP_FILE Ht) as [e He]. rewrite He. cbn.
    eexists. split; [reflexivity|]. cbn [files appended].
    split; [done|]. split; [by left|done].
Qed.

Lemma load_elsewhere L w p :
  p ≠ BACKUP_FILE → files (load_known_urls L w).2 !! p = files w !! p.
Proof.
  intros Hp. unfold load_known_urls. run. unfold os_path_exists. run.
  destruct (bool_decide (is_Some (files w !! KNOWN_URLS_FILE))); run;
    [|reflexivity].
  destruct (read_file KNOWN_URLS_FILE w) as [[e|c] w1] eqn:Hread;
    apply read_file_same_world in Hread as ->; run; [reflexivity|].
  destruct (json_loads L c) as [e|v]; run; [|reflexivity].
  destruct (is_json_decode_error e); run; [|reflexivity].
  change (KNOWN_URLS_FILE +:+ ".bak") with BACKUP_FILE.
  match goal with |- context [open_write BACKUP_FILE ?w0] =>
    destruct (decide (writable w0 BACKUP_FILE)) as [Hw|Hw];
    [rewrite (open_write_ok w0 BACKUP_FILE Hw)
    |destruct (open_write_fails w0 BACKUP_FILE Hw) as [e' He']; rewrite He']
  end.
  - run.
    match goal with |- context [read_file KNOWN_URLS_FILE ?w0] =>
      destruct (read_file KNOWN_URLS_FILE w0) as [[e'|c'] w1] eqn:Hread;
      apply read_file_same_world in Hread as -> end; run.
    + cbn [any_exception]. run. cbn [files set_files appended snd].
      by rewrite lookup_insert_ne.
    + unfold write_opened. run. cbn [files set_files appended snd].
      by rewrite !lookup_insert_ne.
  - cbn [any_exception]. run. reflexivity.
Qed.

(** X3. [load_known_urls] never raises and writes nowhere but at the
    backup path: every other file, the store file among them, is after
    the call what it was before. *)
Theorem load_known_urls_writes_only_backup (L : libs) (w : world) :
  ∃ v w',
    load_known_urls L w = (inr v, w')
    ∧ ∀ p, p ≠ BACKUP_FILE → files w' !! p = files w !! p.
Proof.
  destruct (load_total L w) as (v & w' & Hrun). exists v, w'.
  split; [exact Hrun|]. intros p Hp.
  pose proof (load_elsewhere L w p Hp) as He. by rewrite Hrun in He.
Qed.

(** X4. A store file that cannot be read, or whose reading fails with
    another exception than [JSONDecodeError], makes [load_known_urls]
    return the empty mapping with one error in the log and the disk as it
    was: no backup is made. *)
Theorem load_known_urls_other_failures (L : libs) (w : world) (e : exn) :
  (∃ n, files w !! KNOWN_URLS_FILE = Some n)
  ∧ (read_file KNOWN_URLS_FILE w = (inl e, w)
     ∨ ∃ c, read_file KNOWN_URLS_FILE w = (inr c, w)
            ∧ json_loads L c = inl e
            ∧ is_json_decode_error e = false) →
  load_known_urls L w
  = (inr (JDict ∅),
     appended
       [LogRecord ERROR "Error loading known URLs: {str(e)}"
          [LStr (exn_str e)]] w).
Proof.
  intros [[n Hn] Hfail]. unfold load_known_urls. run.
  rewrite (path_exists_true _ _ _ Hn). run.
  destruct Hfail as [Hread|(c & Hread & Hj & Hcls)]; rewrite Hread; run.
  - reflexivity.
  - rewrite Hj, Hcls. reflexivity.
Qed.

(** ** The orchestrator: what a turn does to the mapping *)

Lemma new_of_strs (current : gset string) (l : list string) :
  new_of current (list_to_set (inl <$> l)) = current ∖ list_to_set l.
Proof.
  unfold new_of. apply set_eq. intros x.
  rewrite elem_of_filter, elem_of_difference, !elem_of_list_to_set,
    list_elem_of_fmap.
  split.
  - intros [Hn Hx]. split; [done|]. intros Hl. apply Hn. by exists x.
  - intros [Hx Hn]. split; [|done]. intros (y & [= ->] & Hy). done.
Qed.

(** One turn on an identifier whose stored value is a list of strings. *)
Lemma check_one_stored_list L d u l w current w1 :
  d !! u = Some (JList (JStr <$> l)) →
  fetch_and_parse L u (fetching u w) = (inr current, w1) →
  ∃ w',
    check_one L (JDict d) u w
    = (inr (Result u (size current)
                   (elements (current ∖ list_to_set l)) EmptyString,
            JDict (if decide (current ∖ list_to_set l = ∅) then d
                   else <[u := stored current]> d)),
       w').
Proof.
  intros Hd Hf. rewrite (check_one_fetched _ _ _ _ _ _ Hf).
  unfold register. run. cbn [py_contains].
  rewrite bool_decide_eq_true_2 by (rewrite Hd; eauto).
  run. cbn [negb]. run.
  unfold diff. cbn [sitemap_url py_getitem]. run.
  rewrite Hd. run. cbn [py_set]. rewrite set_of_list_strs. run.
  rewrite new_of_strs.
  destruct (negb (bool_decide (removed_of current _ = ∅))); run;
    destruct (decide (current ∖ list_to_set l = ∅)) as [He|He].
  - rewrite (bool_decide_eq_true_2 _ He). cbn [negb]. run.
    rewrite He, elements_empty. eauto.
  - rewrite (bool_decide_eq_false_2 _ He). cbn [negb]. run.
    cbn [py_setitem total_urls error]. run. eauto.
  - rewrite (bool_decide_eq_true_2 _ He). cbn [negb]. run.
    rewrite He, elements_empty. eauto.
  - rewrite (bool_decide_eq_false_2 _ He). cbn [negb]. run.
    cbn [py_setitem total_urls error]. run. eauto.
Qed.

(** One turn on an identifier that the mapping does not hold. *)
Lemma check_one_unknown L d u w current w1 :
  d !! u = None →
  fetch_and_parse L u (fetching u w) = (inr current, w1) →
  ∃ w',
    check_one L (JDict d) u w
    = (inr (Result u (size current) (elements current) EmptyString,
            JDict (<[u := stored current]> d)), w').
Proof.
  intros Hd Hf. rewrite (check_one_fetched _ _ _ _ _ _ Hf).
  unfold register. run. cbn [py_contains].
  rewrite bool_decide_eq_false_2 by (rewrite Hd; intros [? ?]; discriminate).
  run. cbn [negb py_setitem]. run.
  unfold diff. cbn [sitemap_url py_getitem]. run.
  rewrite lookup_insert_eq. run. cbn [py_set set_of_list]. run.
  rewrite new_of_empty, removed_of_empty.
  rewrite (bool_decide_eq_true_2 (∅ = ∅)) by done. cbn [negb]. run.
  destruct (decide (current = ∅)) as [->|Hne].
  - rewrite (bool_decide_eq_true_2 (∅ = ∅)) by done. cbn [negb]. run.
    rewrite stored_empty, elements_empty. eauto.
  - rewrite (bool_decide_eq_false_2 (current = ∅)) by done. cbn [negb]. run.
    cbn [py_setitem total_urls error]. run.
    rewrite insert_insert_eq. eauto.
Qed.

(** X5. When every parsed URL is already in the stored list, nothing is
    reported and the mapping is kept as it is: the URLs that left the
    sitemap stay in the store. *)
Theorem removed_urls_stay_stored (L : libs) (d : gmap string json)
    (u : string) (l : list string) (w w1 : world) (current : gset string) :
  d !! u = Some (JList (JStr <$> l)) →
  current ⊆ list_to_set l →
  fetch_and_parse L u (fetching u w) = (inr current, w1) →
  ∃ w',
    check_one L (JDict d) u w
    = (inr (Result u (size current) [] EmptyString, JDict d), w').
Proof.
  intros Hd Hsub Hf.
  destruct (check_one_stored_list L d u l w current w1 Hd Hf) as [w' Hrun].
  assert (He : current ∖ list_to_set l = ∅) by set_solver.
  rewrite He, elements_empty in Hrun.
  destruct (decide (∅ = ∅)) as [_|]; [|done]. eauto.
Qed.

(** X6. When some parsed URL is not in the stored list, the new URLs are
    exactly the parsed URLs outside the stored list, each once, and the
    stored list is replaced by the parsed set: the URLs that left the
    sitemap are dropped from the store at that moment. The entries of
    the other identifiers are kept. *)
Theorem new_urls_replace_stored (L : libs) (d : gmap string json)
    (u : string) (l : list string) (w w1 : world) (current : gset string) :
  d !! u = Some (JList (JStr <$> l)) →
  current ⊈ list_to_set l →
  fetch_and_parse L u (fetching u w) = (inr current, w1) →
  ∃ r w',
    check_one L (JDict d) u w
    = (inr (r, JDict (<[u := stored current]> d)), w')
    ∧ error r = EmptyString
    ∧ NoDup (new_urls r)
    ∧ new_urls r ≠ []
    ∧ (∀ x, x ∈ new_urls r ↔ x ∈ current ∧ x ∉ l).
Proof.
  intros Hd Hsub Hf.
  destruct (check_one_stored_list L d u l w current w1 Hd Hf) as [w' Hrun].
  assert (He : current ∖ list_to_set l ≠ ∅).
  { intros He. apply Hsub. intros x Hx.
    destruct (decide (x ∈ (list_to_set l : gset string))) as [|Hn]; [done|].
    exfalso. assert (x ∈ current ∖ list_to_set l) by set_solver.
    rewrite He in *. set_solver. }
  destruct (decide (current ∖ list_to_set l = ∅)) as [|_]; [done|].
  eexists _, w'. split; [exact Hrun|]. cbn [error new_urls].
  split; [done|]. split; [apply NoDup_elements|]. split.
  - intros Hnil. apply He. apply elements_empty_iff in Hnil.
    by apply leibniz_equiv.
  - intros x. rewrite elem_of_elements, elem_of_difference,
      elem_of_list_to_set. done.
Qed.

Lemma diff_outcome res d current w :
  (∃ e w', diff res (JDict d) current w = (inl e, w'))
  ∨ (∃ prev w',
       diff res (JDict d) current w
       = (inr (if decide (new_of current prev = ∅) then res
               else Result (sitemap_url res) (total_urls res)
                      (elements (new_of current prev)) (error res),
               JDict (if decide (new_of current prev = ∅) then d
                      else <[sitemap_url res := stored current]> d)), w')).
Proof.
  unfold diff. run.
  destruct (py_getitem (JDict d) (sitemap_url res)) as [e|v]; run; [eauto|].
  destruct (py_set v) as [e|prev]; run; [eauto|].
  right. exists prev.
  destruct (negb (bool_decide (removed_of current prev = ∅))); run;
    destruct (decide (new_of current prev = ∅)) as [He|He];
    rewrite ?(bool_decide_eq_true_2 _ He), ?(bool_decide_eq_false_2 _ He);
    cbn [negb]; run; cbn [py_setitem]; run; eauto.
Qed.

(** X7. One turn on a mapping changes at most the entry of the URL it
    checks: the turn never raises, the result is again a mapping, the
    entry of every other identifier is kept, and no identifier is
    dropped. *)
Theorem check_one_touches_one_entry (L : libs) (d : gmap string json)
    (u : string) (w : world) :
  ∃ r d' w',
    check_one L (JDict d) u w = (inr (r, JDict d'), w')
    ∧ (∀ u', u' ≠ u → d' !! u' = d !! u')
    ∧ dom d ⊆ dom d'.
Proof.
  assert (Hins : ∀ v, (∀ u', u' ≠ u → <[u := v]> d !! u' = d !! u')
                      ∧ dom d ⊆ dom (<[u := v]> d)).
  { intros v. split; [intros u' Hu'; by apply lookup_insert_ne|].
    rewrite dom_insert_L. set_solver. }
  destruct (fetch_and_parse L u (fetching u w)) as [[e|current] w1] eqn:Hf.
  - rewrite (check_one_failed _ _ _ _ _ _ Hf). by eexists _, d, _.
  - rewrite (check_one_fetched _ _ _ _ _ _ Hf).
    set (res := Result u (size current) [] EmptyString).
    unfold register. run. cbn [py_contains]. run.
    destruct (bool_decide (is_Some (d !! u))) eqn:Hpresent; cbn [negb]; run.
    + destruct (diff_outcome res d current w1)
        as [(e & w' & ->)|(prev & w' & ->)]; cbn [any_exception].
      * rewrite check_failed_run. by eexists _, d, _.
      * destruct (decide (new_of current prev = ∅)).
        -- by eexists _, d, _.
        -- eexists _, _, _. split; [reflexivity|]. apply Hins.
    + cbn [py_setitem]. run.
      match goal with |- context [diff res (JDict ?d1) current ?w0] =>
        destruct (diff_outcome res d1 current w0)
          as [(e & w' & ->)|(prev & w' & ->)] end; cbn [any_exception].
      * rewrite check_failed_run. eexists _, _, _.
        split; [reflexivity|]. apply Hins.
      * destruct (decide (new_of current prev = ∅)).
        -- eexists _, _, _. split; [reflexivity|]. apply Hins.
        -- eexists _, _, _. split; [reflexivity|].
           cbn [sitemap_url res]. rewrite insert_insert_eq. apply Hins.
Qed.

Lemma new_of_subseteq current prev : new_of current prev ⊆ current.
Proof. unfold new_of. intros x. rewrite elem_of_filter. tauto. Qed.

Lemma sound_no_new u n e :
  sound_result (Result u n [] e).
Proof. repeat split; [cbn; lia|constructor]. Qed.

Lemma diff_sound res known_urls current w r known_urls' w' :
  diff res known_urls current w = (inr (r, known_urls'), w') →
  new_urls res = [] → error res = EmptyString →
  total_urls res = size current →
  sound_result r.
Proof.
  intros Hrun Hnew Herr Htot. revert Hrun. unfold diff. run.
  destruct (py_getitem known_urls (sitemap_url res)) as [e|v]; [done|]. run.
  destruct (py_set v) as [e|prev]; [done|]. run.
  destruct (negb (bool_decide (removed_of current prev = ∅))); run;
    destruct (negb (bool_decide (new_of current prev = ∅))); run;
    try (destruct (py_setitem known_urls (sitemap_url res) (stored current));
         [done|]; run);
    intros [= <- _ _];
    try (destruct res; cbn in *; subst; apply sound_no_new);
    (split; [|split]; cbn [new_urls total_urls error];
     [ rewrite Htot; apply (subseteq_size (new_of current prev) current),
         new_of_subseteq
     | apply NoDup_elements
     | done ]).
Qed.

Lemma check_one_sound L known_urls u w :
  ∃ r known_urls' w',
    check_one L known_urls u w = (inr (r, known_urls'), w')
    ∧ sound_result r.
Proof.
  destruct (fetch_and_parse L u (fetching u w)) as [[e|current] w1] eqn:Hf.
  - rewrite (check_one_failed _ _ _ _ _ _ Hf).
    eexists _, _, _. split; [reflexivity|apply sound_no_new].
  - rewrite (check_one_fetched _ _ _ _ _ _ Hf). run.
    destruct (register known_urls u w1) as [[e|k1] w2].
    + cbn [any_exception]. rewrite check_failed_run.
      eexists _, _, _. split; [reflexivity|apply sound_no_new].
    + run. destruct (diff _ k1 current w2) as [[e|[r k2]] w3] eqn:Hd.
      * cbn [any_exception]. rewrite check_failed_run.
        eexists _, _, _. split; [reflexivity|apply sound_no_new].
      * eexists _, _, _. split; [reflexivity|].
        by apply (diff_sound _ _ _ _ _ _ _ Hd).
Qed.

Lemma check_loop_sound L urls :
  ∀ acc known_urls w,
  ∃ results known_urls' w',
    for_each (loop_body L) (acc, known_urls) urls w
    = (inr (acc ++ results, known_urls'), w')
    ∧ List.length results = List.length urls
    ∧ Forall sound_result results.
Proof.
  induction urls as [|u us IH]; intros acc known_urls w; cbn [for_each].
  - exists [], known_urls, w. rewrite app_nil_r. by repeat split.
  - destruct (check_one_sound L known_urls u w) as (r & k1 & w1 & Hrun & Hr).
    destruct (IH (acc ++ [r]) k1 w1) as (rs & k2 & w2 & Hrest & Hlen & Hall).
    exists (r :: rs), k2, w2. split; [|split].
    + rewrite bind_run. unfold loop_body at 1. rewrite bind_run.
      cbn [fst snd]. rewrite Hrun. cbn beta iota. unfold mret, M_ret.
      rewrite Hrest. rewrite <- app_assoc. reflexivity.
    + cbn. by rewrite Hlen.
    + by constructor.
Qed.

(** X8. Whatever the store holds and whatever the libraries answer,
    [check_sitemaps] returns, with as many results as URLs, and in each
    result the new URLs are no more than the URLs counted, none is listed
    twice, and there is none beside an error. *)
Theorem check_sitemaps_results_sound (L : libs) (urls : list string)
    (w : world) :
  ∃ results w',
    check_sitemaps L urls w = (inr results, w')
    ∧ List.length results = List.length urls
    ∧ Forall sound_result results.
Proof.
  destruct (starting_known_urls_total L w) as (k0 & w0 & Hstart).
  destruct (check_loop_sound L urls [] k0 w0)
    as (rs & k & w1 & Hloop & Hlen & Hall).
  destruct (save_total L k w1) as ([] & w2 & Hsave).
  exists rs, (if truthy k then w2 else w1). split; [|done].
  unfold check_sitemaps, check_loop. run. rewrite Hstart. run.
  rewrite Hloop. cbn [app]. run.
  destruct (truthy k); [rewrite Hsave|]; reflexivity.
Qed.

(** X9. A check repeated with the same parsed set reports nothing new
    and changes nothing: after one turn on an identifier that the mapping
    does not hold, or holds with a list of strings, a second turn that
    parses the same set returns no new URL and the same mapping. *)
Theorem repeated_check_reports_none (L : libs) (d d1 : gmap string json)
    (u : string) (w w1 w' w2 : world) (current : gset string)
    (r1 : SitemapCheckResult) :
  (d !! u = None ∨ ∃ l, d !! u = Some (JList (JStr <$> l))) →
  fetch_and_parse L u (fetching u w) = (inr current, w1) →
  check_one L (JDict d) u w = (inr (r1, JDict d1), w') →
  fetch_and_parse L u (fetching u w') = (inr current, w2) →
  ∃ w'',
    check_one L (JDict d1) u w'
    = (inr (Result u (size current) [] EmptyString, JDict d1), w'').
Proof.
  intros Hd Hf1 Hrun1 Hf2.
  assert (∃ l1, d1 !! u = Some (JList (JStr <$> l1))
                ∧ current ⊆ list_to_set l1) as (l1 & Hd1 & Hsub).
  { destruct Hd as [Hd|[l Hd]].
    - destruct (check_one_unknown L d u w current w1 Hd Hf1) as [wa Ha].
      rewrite Ha in Hrun1. injection Hrun1 as _ <- _.
      exists (elements current). rewrite lookup_insert_eq. split; [done|].
      by rewrite list_to_set_elements_L.
    - destruct (check_one_stored_list L d u l w current w1 Hd Hf1) as [wa Ha].
      rewrite Ha in Hrun1. injection Hrun1 as _ <- _.
      destruct (decide (current ∖ list_to_set l = ∅)) as [He|He].
      + exists l. split; [done|]. intros x Hx.
        destruct (decide (x ∈ (list_to_set l : gset string))); [done|].
        exfalso. assert (x ∈ current ∖ list_to_set l) by set_solver.
        rewrite He in *. set_solver.
      + exists (elements current). rewrite lookup_insert_eq. split; [done|].
        by rewrite list_to_set_elements_L. }
  destruct (check_one_stored_list L d1 u l1 w' current w2 Hd1 Hf2)
    as [wb Hb].
  assert (He : current ∖ list_to_set l1 = ∅) by set_solver.
  rewrite He, elements_empty in Hb.
  destruct (decide (∅ = ∅)) as [_|]; [|done]. eauto.
Qed.

(** X10. On a store that is not a dictionary, a URL that is fetched and
    parsed well still ends with an error: the result counts the URLs,
    lists none as new and carries the message of a [TypeError], and the
    store is handed on as it is. *)
Theorem non_dict_store_fails_every_check (L : libs) (known_urls : json)
    (u : string) (w w1 : world) (current : gset string) :
  isinstance_dict known_urls = false →
  fetch_and_parse L u (fetching u w) = (inr current, w1) →
  ∃ e w',
    check_one L known_urls u w
    = (inr (Result u (size current) [] (exn_str e), known_urls), w')
    ∧ exn_cls e = TypeError
    ∧ exn_str e ≠ EmptyString.
Proof.
  intros Hv Hf. rewrite (check_one_fetched _ _ _ _ _ _ Hf).
  unfold register. run.
  destruct known_urls as [|b|z|s|l|d]; try discriminate; cbn [py_contains];
    run; cbn [any_exception];
    try (rewrite check_failed_run; eexists _, _;
         split; [reflexivity|split; [reflexivity|discriminate]]).
  - destruct (PyStr.contains u s); cbn [negb]; run; cbn [py_setitem];
      run; cbn [any_exception].
    + unfold diff. cbn [sitemap_url py_getitem]. run. cbn [any_exception].
      rewrite check_failed_run. eexists _, _.
      split; [reflexivity|split; [reflexivity|discriminate]].
    + rewrite check_failed_run. eexists _, _.
      split; [reflexivity|split; [reflexivity|discriminate]].
  - destruct (existsb _ l); cbn [negb]; run; cbn [py_setitem];
      run; cbn [any_exception].
    + unfold diff. cbn [sitemap_url py_getitem]. run. cbn [any_exception].
      rewrite check_failed_run. eexists _, _.
      split; [reflexivity|split; [reflexivity|discriminate]].
    + rewrite check_failed_run. eexists _, _.
      split; [reflexivity|split; [reflexivity|discriminate]].
Qed.

(** ** The fetcher: one request *)

Lemma raise_for_status_error r w :
  (400 ≤ status_code r < 600)%nat →
  ∃ msg, raise_for_status r w = (inl (Exn RequestException msg), w).
Proof.
  intros Hc. unfold raise_for_status.
  destruct (400 <=? status_code r)%nat eqn:E1;
    destruct (status_code r <? 500)%nat eqn:E2;
    destruct (500 <=? status_code r)%nat eqn:E3;
    destruct (status_code r <? 600)%nat eqn:E4; cbn; eauto;
    repeat match goal with
           | H : (_ <=? _)%nat = true |- _ => apply Nat.leb_le in H
           | H : (_ <=? _)%nat = false |- _ => apply Nat.leb_gt in H
           | H : (_ <? _)%nat = true |- _ => apply Nat.ltb_lt in H
           | H : (_ <? _)%nat = false |- _ => apply Nat.ltb_ge in H
           end; lia.
Qed.

Lemma special_cases_plain url parts w :
  special_domain (PyStr.lower (netloc parts)) = false →
  special_cases url parts w = (inr (url, false), w).
Proof.
  intros Hdom. unfold special_domain in Hdom.
  apply orb_false_elim in Hdom as [Hdom Hg2].
  apply orb_false_elim in Hdom as [Hdom Hg1].
  apply orb_false_elim in Hdom as [Hdom Hx].
  apply orb_false_elim in Hdom as [Hgh Htw].
  unfold special_cases. rewrite Hgh, Htw, Hx, Hg1, Hg2. reflexivity.
Qed.

Lemma with_sitemap_path_named url special_case w :
  names_sitemap url = true →
  with_sitemap_path url special_case w = (inr url, w).
Proof.
  unfold names_sitemap, with_sitemap_path. intros Hn.
  destruct (PyStr.endswith url ".xml"); [reflexivity|].
  destruct (PyStr.contains "sitemap" (PyStr.lower url)); [reflexivity|].
  cbn in Hn. rewrite Hn. reflexivity.
Qed.

(** The request for a URL that names a sitemap, on a host without special
    treatment: one request, then the status and the body. *)
Lemma fetch_named_request L d url flag w parts resp :
  urlparse L url = inr parts →
  special_domain (PyStr.lower (netloc parts)) = false →
  names_sitemap url = true →
  requests_get L (List.length (sent w)) url = inr resp →
  ∃ w1,
    sent w1 = sent w ++ [url] ∧ files w1 = files w
    ∧ fetch_sitemap L (S d) url flag w =
      try_except
        (raise_for_status resp;;
         if PyStr.contains "robots.txt" (PyStr.lower url) then
           follow_robots (fetch_sitemap L d) (text resp) flag
         else sniff L (fetch_sitemap L d) parts url (text resp) flag)
        is_request_exception
        (λ e,
           logger ERROR "Error fetching sitemap {url}: {str(e)}"
                  [LStr url; LStr (exn_str e)];;
           raise e) w1.
Proof.
  intros Hparse Hdom Hnamed Hget.
  set (ct := default EmptyString (content_type_header resp)).
  set (warn := negb (PyStr.contains "xml" (PyStr.lower ct)
                     || PyStr.contains "text/plain" (PyStr.lower ct))).
  set (w0 := World (files w) (read_denied w) (write_denied w) (sent w ++ [url])
               (logged w ++ [LogRecord INFO "Sending request to {url}" [LStr url]])).
  exists (if warn
          then appended
                 [LogRecord WARNING
                    "Response content type '{content_type}' may not be a proper sitemap format"
                    [LStr ct]] w0
          else w0).
  split; [destruct warn; reflexivity|]. split; [destruct warn; reflexivity|].
  cbn [fetch_sitemap]. unfold fetch_once.
  rewrite bind_run. unfold lift. rewrite Hparse. cbn beta iota.
  rewrite bind_run, (special_cases_plain _ _ _ Hdom). cbn beta iota.
  rewrite bind_run, (with_sitemap_path_named _ _ _ Hnamed). cbn beta iota.
  rewrite !try_except_run. unfold request.
  rewrite bind_run, logger_run, bind_run.
  unfold http_get. cbn [sent appended files read_denied write_denied logged].
  rewrite Hget. cbn beta iota. fold w0. fold ct. fold warn.
  rewrite bind_run.
  destruct warn; run; reflexivity.
Qed.

(** X11. An answer with a status from 400 to 599 makes [fetch_sitemap]
    raise a [RequestException] after that one request: the body is not
    looked at and nothing is followed. *)
Theorem http_error_status_is_raised (L : libs) (d : nat) (url : string)
    (flag : bool) (w : world) (parts : url_parts) (resp : response) :
  urlparse L url = inr parts →
  special_domain (PyStr.lower (netloc parts)) = false →
  names_sitemap url = true →
  requests_get L (List.length (sent w)) url = inr resp →
  (400 ≤ status_code resp < 600)%nat →
  ∃ e w',
    fetch_sitemap L (S d) url flag w = (inl e, w')
    ∧ exn_cls e = RequestException
    ∧ sent w' = sent w ++ [url].
Proof.
  intros Hparse Hdom Hnamed Hget Hstatus.
  destruct (fetch_named_request L d url flag w parts resp Hparse Hdom Hnamed
              Hget) as (w1 & Hsent & _ & ->).
  rewrite try_except_run, bind_run.
  destruct (raise_for_status_error resp w1 Hstatus) as [msg ->].
  cbn beta iota. cbn [is_request_exception exn_cls]. run.
  eexists _, _. split; [reflexivity|]. split; [reflexivity|exact Hsent].
Qed.

(** X12. A body with one of the markers [<?xml], [<urlset] and
    [<sitemapindex], answered with a status that is no error to a URL that
    names a sitemap and no robots.txt, is returned as it is, after one
    request and with the disk untouched. *)
Theorem xml_body_is_returned_as_is (L : libs) (d : nat) (url : string)
    (flag : bool) (w : world) (parts : url_parts) (resp : response) :
  urlparse L url = inr parts →
  special_domain (PyStr.lower (netloc parts)) = false →
  names_sitemap url = true →
  PyStr.contains "robots.txt" (PyStr.lower url) = false →
  requests_get L (List.length (sent w)) url = inr resp →
  (status_code resp < 400 ∨ 600 ≤ status_code resp)%nat →
  has_no_xml_marker (text resp) = false →
  ∃ w',
    fetch_sitemap L (S d) url flag w = (inr (text resp), w')
    ∧ sent w' = sent w ++ [url]
    ∧ files w' = files w.
Proof.
  intros Hparse Hdom Hnamed Hrobots Hget Hstatus Hxml.
  destruct (fetch_named_request L d url flag w parts resp Hparse Hdom Hnamed
              Hget) as (w1 & Hsent & Hfiles & ->).
  rewrite try_except_run, bind_run, raise_for_status_ok by exact Hstatus.
  cbn beta iota. rewrite Hrobots. unfold sniff. rewrite Hxml. run.
  eexists. split; [reflexivity|]. split; [exact Hsent|exact Hfiles].
Qed.

(** X13. With [from_robots_redirect] set, a robots.txt is not followed:
    after the one request the body is returned when it names a sitemap,
    and a [RequestException] is raised when it names none. *)
Theorem flagged_robots_is_not_followed (L : libs) (d : nat) (url : string)
    (w : world) (parts : url_parts) (resp : response) :
  urlparse L url = inr parts →
  special_domain (PyStr.lower (netloc parts)) = false →
  PyStr.contains "robots.txt" (PyStr.lower url) = true →
  requests_get L (List.length (sent w)) url = inr resp →
  (status_code resp < 400 ∨ 600 ≤ status_code resp)%nat →
  ∃ r w',
    fetch_sitemap L (S d) url true w = (r, w')
    ∧ sent w' = sent w ++ [url]
    ∧ r = (if bool_decide (Re.findall Re.robots_sitemap_re (text resp) = [])
           then inl (Exn RequestException "No sitemaps found in robots.txt")
           else inr (text resp)).
Proof.
  intros Hparse Hdom Hrobots Hget Hstatus.
  destruct (fetch_robots_request L d url true w parts resp Hparse Hdom
              Hrobots Hget Hstatus) as (w1 & Hsent & _ & ->).
  rewrite try_except_run.
  destruct (Re.findall Re.robots_sitemap_re (text resp)) as [|s rest] eqn:Hf.
  - rewrite (follow_robots_none _ _ _ _ Hf).
    cbn [is_request_exception exn_cls]. run.
    eexists _, _. split; [reflexivity|]. split; [exact Hsent|reflexivity].
  - rewrite (follow_robots_flagged _ _ _ _ _ Hf).
    eexists _, _. split; [reflexivity|]. split; [exact Hsent|reflexivity].
Qed.

(** X14. A URL on the host [twitter.com] or [x.com], in any case of
    letters, is refused before any request is sent: the turn of the loop
    ends with the message of the refusal as the error, no URL counted,
    and the mapping as it was. *)
Theorem twitter_is_refused_unrequested (L : libs) (known_urls : json)
    (u : string) (w : world) (parts : url_parts) :
  (0 < recursion_limit L)%nat →
  urlparse L u = inr parts →
  PyStr.lower (netloc parts) = "twitter.com"
  ∨ PyStr.lower (netloc parts) = "x.com" →
  ∃ w',
    check_one L known_urls u w
    = (inr (Result u 0 [] "This site doesn't provide public sitemaps",
            known_urls), w')
    ∧ sent w' = sent w
    ∧ files w' = files w.
Proof.
  intros Hlim Hparse Hhost.
  assert (Hsp : ∀ w0, special_cases u parts w0
            = (inl (Exn RequestException
                      "This site doesn't provide public sitemaps"),
               appended
                 [LogRecord WARNING "Twitter/X doesn't provide public sitemaps"
                    []] w0)).
  { intros w0. unfold special_cases.
    destruct Hhost as [-> | ->]; reflexivity. }
  destruct (recursion_limit L) as [|d] eqn:Hd; [lia|].
  assert (Hf : fetch_and_parse L u (fetching u w)
            = (inl (Exn RequestException
                      "This site doesn't provide public sitemaps"),
               appended
                 [LogRecord WARNING "Twitter/X doesn't provide public sitemaps"
                    []] (fetching u w))).
  { unfold fetch_and_parse. rewrite Hd.
    rewrite bind_run. cbn [fetch_sitemap]. unfold fetch_once.
    rewrite bind_run. unfold lift. rewrite Hparse. cbn beta iota.
    rewrite bind_run, Hsp. reflexivity. }
  rewrite (check_one_failed _ _ _ _ _ _ Hf).
  eexists. split; [reflexivity|]. split; reflexivity.
Qed.

(** ** The address requested *)

Lemma substring_all (p : string) :
  String.substring 0 (String.length p) p = p.
Proof. induction p as [|c p IH]; [reflexivity|]. cbn. by rewrite IH. Qed.

Lemma substring_app_r (a p : string) :
  String.substring (String.length a) (String.length p) (a +:+ p) = p.
Proof.
  induction a as [|c a IH]; [|exact IH].
  rewrite app_nil_l_str. apply substring_all.
Qed.

Lemma endswith_app (a p : string) : PyStr.endswith (a +:+ p) p = true.
Proof.
  unfold PyStr.endswith. rewrite length_app_str.
  replace (String.length a + String.length p - String.length p)%nat
    with (String.length a) by lia.
  rewrite substring_app_r, String.eqb_refl, andb_true_r.
  apply Nat.leb_le. lia.
Qed.

Lemma prefix_app (a b : string) : String.prefix a (a +:+ b) = true.
Proof.
  induction a as [|c a IH]; [by destruct b|].
  rewrite app_cons. cbn. destruct (ascii_dec c c); [exact IH|done].
Qed.

Lemma prefix_refl (a : string) : String.prefix a a = true.
Proof.
  induction a as [|c a IH]; [reflexivity|].
  cbn. destruct (ascii_dec c c); [exact IH|done].
Qed.

Lemma with_sitemap_path_unnamed url w :
  names_sitemap url = false →
  with_sitemap_path url false w
  = (let url' := url +:+ (if PyStr.endswith url "/" then EmptyString else "/")
                 +:+ "sitemap.xml" in
     (inr url',
      appended
        [LogRecord INFO
           "URL doesn't appear to be a sitemap URL, trying {url} instead of {original_url}"
           [LStr url'; LStr url]] w)).
Proof.
  unfold names_sitemap, with_sitemap_path. intros Hn.
  apply orb_false_elim in Hn as [Hn ->].
  apply orb_false_elim in Hn as [-> ->]. cbn [negb andb]. run.
  destruct (PyStr.endswith url "/"); reflexivity.
Qed.

(** X15. Whatever the URL, on a host without special treatment the
    address that [fetch_sitemap] goes on with starts with the URL and
    names a sitemap, and it is kept as it is when it is given again:
    [sitemap.xml] is appended at most once. *)
Theorem sitemap_path_is_appended_once (url : string) (w : world) :
  ∃ url' w',
    with_sitemap_path url false w = (inr url', w')
    ∧ String.prefix url url' = true
    ∧ names_sitemap url' = true
    ∧ with_sitemap_path url' false w' = (inr url', w').
Proof.
  assert (Hxml : ∀ a, names_sitemap (a +:+ "sitemap.xml") = true).
  { intros a. unfold names_sitemap.
    change "sitemap.xml" with ("sitemap" +:+ ".xml").
    by rewrite <- app_assoc_str, endswith_app. }
  destruct (names_sitemap url) eqn:Hn.
  - exists url, w. rewrite (with_sitemap_path_named _ _ _ Hn).
    split; [reflexivity|]. split; [apply prefix_refl|done].
  - rewrite (with_sitemap_path_unnamed _ _ Hn). cbn zeta.
    eexists _, _. split; [reflexivity|].
    split; [apply prefix_app|]. rewrite <- app_assoc_str.
    split; [apply Hxml|]. by apply with_sitemap_path_named.
Qed.

(** ** The requests of one fetch *)

Lemma sends_le {A} (m : M A) n n' :
  sends m n → (n ≤ n')%nat → sends m n'.
Proof.
  intros Hm Hle w. destruct (Hm w) as (l & Hl & Hn).
  exists l. split; [done|lia].
Qed.

Lemma sends_ret {A} (x : A) n : sends (mret x) n.
Proof. intros w. exists []. split; [by rewrite app_nil_r|cbn; lia]. Qed.

Lemma sends_logger l fmt args n : sends (logger l fmt args) n.
Proof. intros w. exists []. split; [by rewrite app_nil_r|cbn; lia]. Qed.

Lemma sends_raise {A} e n : sends (raise (A := A) e) n.
Proof. intros w. exists []. split; [by rewrite app_nil_r|cbn; lia]. Qed.

Lemma sends_lift {A} (r : exn + A) n : sends (lift r) n.
Proof. intros w. exists []. split; [by rewrite app_nil_r|cbn; lia]. Qed.

Lemma sends_http_get L url n : sends (http_get L url) (S n).
Proof. intros w. exists [url]. split; [reflexivity|cbn; lia]. Qed.

Lemma sends_bind {A B} (m : M A) (f : A → M B) a b :
  sends m a → (∀ x, sends (f x) b) → sends (m ≫= f) (a + b).
Proof.
  intros Hm Hf w. rewrite bind_run. destruct (Hm w) as (l & Hl & Hn).
  destruct (m w) as [[e|x] w']; cbn [snd] in *.
  - exists l. split; [done|lia].
  - destruct (Hf x w') as (l' & Hl' & Hn'). exists (l ++ l').
    rewrite Hl', Hl, app_assoc, length_app. split; [done|lia].
Qed.

Lemma sends_try {A} (m : M A) C (h : exn → M A) a b :
  sends m a → (∀ e, sends (h e) b) → sends (try_except m C h) (a + b).
Proof.
  intros Hm Hh w. rewrite try_except_run. destruct (Hm w) as (l & Hl & Hn).
  destruct (m w) as [[e|x] w']; cbn [snd] in *.
  - destruct (C e); cbn [snd].
    + destruct (Hh e w') as (l' & Hl' & Hn'). exists (l ++ l').
      rewrite Hl', Hl, app_assoc, length_app. split; [done|lia].
    + exists l. split; [done|lia].
  - exists l. split; [done|lia].
Qed.

Lemma sends_for_each {A S} (f : S → A → M S) (l : list A) :
  (∀ s x, sends (f s x) 0) → ∀ s, sends (for_each f s l) 0.
Proof.
  intros Hf. induction l as [|x l IH]; intros s; cbn [for_each].
  - apply sends_ret.
  - apply (sends_bind _ _ 0 0); [apply Hf|]. intros s'. apply IH.
Qed.

(** what sends nothing, then what sends [n]; and the other way round *)
Lemma sends_after {A B} (m : M A) (f : A → M B) n :
  sends m 0 → (∀ x, sends (f x) n) → sends (m ≫= f) n.
Proof. intros Hm Hf. by apply (sends_bind _ _ 0 n). Qed.

Lemma sends_before {A B} (m : M A) (f : A → M B) n :
  sends m n → (∀ x, sends (f x) 0) → sends (m ≫= f) n.
Proof.
  intros Hm Hf. eapply sends_le; [by apply (sends_bind _ _ n 0)|lia].
Qed.

Lemma sends_guarded {A} (m : M A) C (h : exn → M A) n :
  sends m n → (∀ e, sends (h e) 0) → sends (try_except m C h) n.
Proof.
  intros Hm Hh. eapply sends_le; [by apply (sends_try _ _ _ n 0)|lia].
Qed.

Lemma sends_get_then {B} L url (f : response → M B) n :
  (∀ r, sends (f r) n) → sends (http_get L url ≫= f) (S n).
Proof. intros Hf. apply (sends_bind _ _ 1 n); [apply sends_http_get|done]. Qed.

(** computations that send nothing, by their shape *)
Ltac quiet :=
  repeat
    match goal with
    | |- sends (mret _) _ => apply sends_ret
    | |- sends (logger _ _ _) _ => apply sends_logger
    | |- sends (raise _) _ => apply sends_raise
    | |- sends (lift _) _ => apply sends_lift
    | |- sends (_ ≫= _) _ => apply sends_after; [|intros ?]
    | |- sends (try_except _ _ _) _ => apply sends_guarded; [|intros ?]
    | |- sends (for_each _ _ _) 0 => apply sends_for_each; intros ? ?
    | |- sends (if ?b then _ else _) _ => destruct b
    | |- sends (match ?x with _ => _ end) _ => destruct x
    | |- sends (let '(_, _) := ?x in _) _ => destruct x
    end.

Lemma sends_via_origin_robots L parts : sends (via_origin_robots L parts) 2.
Proof.
  unfold via_origin_robots. apply sends_after; [quiet|intros _].
  apply sends_guarded; [|intros e; quiet].
  apply sends_get_then. intros r.
  destruct (Re.findall _ _); [quiet|].
  apply sends_after; [quiet|intros _].
  apply sends_guarded; [|intros e; quiet].
  apply sends_get_then. intros r'. quiet.
Qed.

(** what is made of an answer, lines 134 to 221 *)
Lemma sends_answer L (fetch : string → bool → M string) k parts url flag
    (response : response) (warn : M unit) :
  (∀ u f, sends (fetch u f) k) →
  sends warn 0 →
  sends
    (warn;;
     raise_for_status response;;
     (let content := text response in
      if PyStr.contains "robots.txt" (PyStr.lower url) then
        follow_robots fetch content flag
      else sniff L fetch parts url content flag))
    (k `max` 2).
Proof.
  intros Hfetch Hwarn.
  assert (Hk : ∀ u f, sends (fetch u f) (k `max` 2))
    by (intros u f; eapply sends_le; [apply Hfetch|lia]).
  apply sends_after; [exact Hwarn|intros _].
  apply sends_after; [unfold raise_for_status; quiet|intros _].
  cbn zeta. destruct (PyStr.contains "robots.txt" _).
  - unfold follow_robots. apply sends_after; [quiet|intros _].
    destruct (Re.findall _ _); [quiet|].
    apply sends_after; [quiet|intros _]. apply sends_after; [quiet|intros _].
    destruct flag; [quiet|].
    apply sends_after; [quiet|intros _].
    apply sends_guarded; [apply Hk|intros e; quiet].
  - unfold sniff. apply sends_before; [|intros [c|]; quiet].
    destruct (has_no_xml_marker _); [|quiet].
    apply sends_after; [quiet|intros _].
    destruct (PyStr.contains "<html" _); [|quiet].
    apply sends_after; [quiet|intros _].
    destruct (Re.findall _ _).
    + destruct (_ && _); [|quiet].
      eapply sends_le; [apply sends_via_origin_robots|lia].
    + apply sends_after; [quiet|intros _].
      apply sends_after; [quiet|intros _].
      apply sends_before; [apply Hk|intros c; quiet].
Qed.

Lemma sends_request L (fetch : string → bool → M string) k parts url flag :
  (∀ u f, sends (fetch u f) k) →
  sends (request L fetch parts url flag) (S (k `max` 2)).
Proof.
  intros Hfetch. unfold request.
  apply sends_after; [quiet|intros _].
  apply sends_get_then. intros r.
  apply sends_answer; [exact Hfetch|]. destruct (negb _); quiet.
Qed.

Lemma sends_fetch_once L (fetch : string → bool → M string) k url flag :
  (∀ u f, sends (fetch u f) k) →
  sends (fetch_once L fetch url flag) (S (k `max` 2)).
Proof.
  intros Hfetch. unfold fetch_once.
  apply sends_after; [quiet|intros parts].
  apply sends_after; [unfold special_cases; quiet|intros [url1 sc]].
  apply sends_after; [unfold with_sitemap_path; quiet|intros url2].
  apply sends_guarded; [|intros e; quiet].
  by apply sends_request.
Qed.

Lemma sends_fetch_sitemap L depth :
  ∀ url flag, sends (fetch_sitemap L depth url flag) (budget depth).
Proof.
  induction depth as [|depth IH]; intros url flag;
    cbn [fetch_sitemap budget]; [quiet|].
  by apply sends_fetch_once.
Qed.

Lemma budget_le depth : (budget depth ≤ depth + 2)%nat.
Proof. induction depth as [|depth IH]; cbn [budget]; lia. Qed.

(** X16. One call of [fetch_sitemap] adds its requests to those sent
    before and sends no more than two beyond the depth it may recurse to:
    one at each level, and two at most for the robots.txt of the origin
    and the sitemap it names. *)
Theorem fetch_sitemap_requests_bounded (L : libs) (depth : nat)
    (url : string) (flag : bool) (w : world) :
  ∃ l,
    sent (fetch_sitemap L depth url flag w).2 = sent w ++ l
    ∧ (List.length l ≤ depth + 2)%nat.
Proof.
  destruct (sends_fetch_sitemap L depth url flag w) as (l & Hl & Hn).
  exists l. split; [done|]. pose proof (budget_le depth). lia.
Qed.

(** The first request of [request] goes to its URL. *)
Lemma request_first L (fetch : string → bool → M string) k parts url flag w :
  (∀ u f, sends (fetch u f) k) →
  ∃ rest,
    sent (try_except (request L fetch parts url flag) is_request_exception
            (λ e,
               logger ERROR "Error fetching sitemap {url}: {str(e)}"
                      [LStr url; LStr (exn_str e)];;
               raise e) w).2
    = sent w ++ url :: rest.
Proof.
  intros Hfetch.
  assert (Hreq : ∃ rest, sent (request L fetch parts url flag w).2
                         = sent w ++ url :: rest).
  { unfold request. rewrite bind_run, logger_run, bind_run.
    unfold http_get at 1. cbn [sent files read_denied write_denied logged].
    destruct (requests_get L _ url) as [e|r].
    - exists []. reflexivity.
    - match goal with |- context [sent (?m ?w1).2] =>
        assert (Hm : sends m (k `max` 2)) end.
      { apply sends_answer; [exact Hfetch|]. destruct (negb _); quiet. }
      match goal with |- context [sent (?m ?w1).2] =>
        destruct (Hm w1) as (l & -> & _) end.
      exists l. cbn [sent]. by rewrite <- app_assoc. }
  destruct Hreq as [rest Hrest]. rewrite try_except_run.
  destruct (request L fetch parts url flag w) as [[e|c] w1];
    cbn [snd] in Hrest; [|by exists rest].
  destruct (is_request_exception e); [|by exists rest].
  run. by exists rest.
Qed.

Lemma fetch_once_first L (fetch : string → bool → M string) k url flag w
    parts target special_case w1 :
  urlparse L url = inr parts →
  special_cases url parts w = (inr (target, special_case), w1) →
  sent w1 = sent w →
  with_sitemap_path target special_case w1 = (inr target, w1) →
  (∀ u f, sends (fetch u f) k) →
  ∃ rest, sent (fetch_once L fetch url flag w).2 = sent w ++ target :: rest.
Proof.
  intros Hparse Hsp Hsent Hpath Hfetch. rewrite <- Hsent. unfold fetch_once.
  rewrite bind_run. unfold lift. rewrite Hparse. cbn beta iota.
  rewrite bind_run, Hsp. cbn beta iota.
  rewrite bind_run, Hpath. cbn beta iota.
  by apply (request_first L fetch k).
Qed.

Lemma with_sitemap_path_special url w :
  with_sitemap_path url true w = (inr url, w).
Proof. unfold with_sitemap_path. by rewrite !andb_false_r. Qed.

(** X17. For a URL on the host [google.com] or [www.google.com], the
    first request goes to [https://www.google.com/sitemap.xml], whatever
    the path of the URL; for a URL on [github.com] that does not name a
    sitemap, it goes to the home page [https://github.com/] as it is,
    without [sitemap.xml] appended. *)
Theorem special_hosts_are_redirected (L : libs) (d : nat) (url : string)
    (flag : bool) (w : world) (parts : url_parts) (target : string) :
  urlparse L url = inr parts →
  (PyStr.lower (netloc parts) = "github.com"
   ∧ PyStr.contains "sitemap" (PyStr.lower url) = false
   ∧ target = "https://github.com/")
  ∨ ((PyStr.lower (netloc parts) = "google.com"
      ∨ PyStr.lower (netloc parts) = "www.google.com")
     ∧ target = "https://www.google.com/sitemap.xml") →
  ∃ rest,
    sent (fetch_sitemap L (S d) url flag w).2 = sent w ++ target :: rest.
Proof.
  intros Hparse Hhost. cbn [fetch_sitemap].
  assert (Hk : ∀ u f, sends (fetch_sitemap L d u f) (budget d))
    by (intros u f; apply sends_fetch_sitemap).
  destruct Hhost as [(Hgh & Hsm & ->)|[Hg ->]].
  - eapply (fetch_once_first L _ _ url flag w parts _ true);
      [exact Hparse
      |unfold special_cases; rewrite Hgh, Hsm; reflexivity
      |reflexivity
      |apply with_sitemap_path_special
      |exact Hk].
  - destruct Hg as [Hg|Hg];
      (eapply (fetch_once_first L _ _ url flag w parts _ false);
       [exact Hparse
       |unfold special_cases; rewrite Hg; reflexivity
       |reflexivity
       |by apply with_sitemap_path_named
       |exact Hk]).
Qed.

(** ** The parser: the document selected *)

Lemma element_induction (P : element → Prop) :
  (∀ ns name cs, (∀ c, inr c ∈ cs → P c) → P (Element ns name cs)) →
  ∀ e, P e.
Proof.
  intros H. fix IH 1. intros [ns name cs]. apply H.
  induction cs as [|[t|c] cs IHcs]; intros c' Hin.
  - exfalso. exact (proj1 (elem_of_nil (inr c')) Hin).
  - apply elem_of_cons in Hin as [Hin|Hin]; [discriminate Hin|].
    exact (IHcs c' Hin).
  - apply elem_of_cons in Hin as [Hin|Hin]; [|exact (IHcs c' Hin)].
    injection Hin as Hin. rewrite Hin. exact (IH c).
Qed.

Lemma selected_step parent e t :
  selected parent e t ↔
  (is_sm parent e = true
   ∧ ∃ c, inr c ∈ children e ∧ is_sm "loc" c = true ∧ inl t ∈ children c)
  ∨ ∃ c, inr c ∈ children e ∧ selected parent c t.
Proof.
  split.
  - intros (p & c & Hp & Hsm & Hc & Hloc & Ht). inversion Hp; subst.
    + left. eauto.
    + right. eexists. split; [eassumption|]. exists p, c. eauto.
  - intros [(Hsm & c & Hc & Hloc & Ht)|(c & Hc & p & c' & Hp & Hrest)].
    + exists e, c. split; [constructor|]. eauto.
    + exists p, c'. split; [|done]. by econstructor.
Qed.

(** The texts that [loc_texts] lists are the text nodes selected, and
    those of the element itself when it is a selected [sm:loc]. *)
Lemma loc_texts_spec parent e :
  ∀ emit t,
    t ∈ loc_texts parent emit e ↔
    (emit = true ∧ inl t ∈ children e) ∨ selected parent e t.
Proof.
  induction e as [ns name cs IH] using element_induction. intros emit t.
  rewrite selected_step. cbn [loc_texts children is_sm].
  set (here := String.eqb ns SITEMAP_NS && String.eqb name parent).
  clearbody here. induction cs as [|[t'|c] cs IHcs].
  - split; [by intros ?%elem_of_nil|].
    intros [[_ H]|[(_ & c & H & _)|(c & H & _)]]; by apply elem_of_nil in H.
  - rewrite elem_of_app, IHcs by (intros c Hc; apply IH; by right).
    clear IHcs. split.
    + intros [Ht|[[He Ht]|[(Hh & c & Hc & Hr)|(c & Hc & Hr)]]].
      * destruct emit; [|by apply elem_of_nil in Ht].
        apply list_elem_of_singleton in Ht as ->. left. split; [done|by left].
      * left. split; [done|by right].
      * right. left. split; [done|]. exists c. split; [by right|done].
      * right. right. exists c. split; [by right|done].
    + intros [[He Ht]|[(Hh & c & Hc & Hr)|(c & Hc & Hr)]].
      * apply elem_of_cons in Ht as [[= ->]|Ht].
        -- left. rewrite He. by left.
        -- right. by left.
      * apply elem_of_cons in Hc as [[=]|Hc].
        right. right. left. eauto.
      * apply elem_of_cons in Hc as [[=]|Hc].
        right. right. right. eauto.
  - rewrite elem_of_app, IHcs by (intros c' Hc; apply IH; by right).
    rewrite (IH c) by by left. clear IHcs. split.
    + intros [[[Hb Ht]|Hs]|[[He Ht]|[(Hh & c' & Hc & Hr)|(c' & Hc & Hr)]]].
      * apply andb_prop in Hb as [Hh Hloc]. right. left.
        split; [done|]. exists c. split; [by left|done].
      * right. right. exists c. split; [by left|done].
      * left. split; [done|by right].
      * right. left. split; [done|]. exists c'. split; [by right|done].
      * right. right. exists c'. split; [by right|done].
    + intros [[He Ht]|[(Hh & c' & Hc & Hloc & Ht)|(c' & Hc & Hr)]].
      * apply elem_of_cons in Ht as [[=]|Ht]. right. by left.
      * apply elem_of_cons in Hc as [[= ->]|Hc].
        -- left. left. split; [|done]. by rewrite Hh, Hloc.
        -- right. right. left. eauto.
      * apply elem_of_cons in Hc as [[= ->]|Hc].
        -- left. by right.
        -- right. right. right. eauto.
Qed.

Lemma xpath_selected parent root t :
  t ∈ xpath_loc_text parent root ↔ selected parent root t.
Proof.
  unfold xpath_loc_text. rewrite loc_texts_spec. split; [|by right].
  by intros [[? _]|?].
Qed.

Lemma standard_sitemap_run L d content w root :
  looks_like_html content = false →
  etree_fromstring L content = inr root →
  PyStr.endswith (tag root) "sitemapindex" = false →
  parse_sitemap L (S d) content w
  = (inr (list_to_set (xpath_loc_text "url" root)), w).
Proof.
  intros Hhtml Hroot Hindex.
  rewrite (parse_sitemap_xml_path L d content w w)
    by by apply parse_html_not_html.
  rewrite try_except_run, bind_run. unfold lift. rewrite Hroot.
  cbn beta iota. rewrite Hindex. reflexivity.
Qed.

(** X18. Of a document that the XML parser accepts and whose root is no
    sitemap index, [parse_sitemap] returns the text nodes of the [loc]
    children of the [url] elements, both in the sitemap namespace,
    wherever the [url] elements lie in the document, and nothing else;
    the world is left as it is. *)
Theorem standard_sitemap_lists_its_locs (L : libs) (d : nat)
    (content : string) (w : world) (root : element) :
  looks_like_html content = false →
  etree_fromstring L content = inr root →
  PyStr.endswith (tag root) "sitemapindex" = false →
  ∃ urls,
    parse_sitemap L (S d) content w = (inr urls, w)
    ∧ ∀ u, u ∈ urls ↔ selected "url" root u.
Proof.
  intros Hhtml Hroot Hindex. eexists.
  split; [by apply (standard_sitemap_run L d content w root)|].
  intros u. by rewrite elem_of_list_to_set, xpath_selected.
Qed.



(** X20. [parse_sitemap] sends no request for a document that is no
    sitemap index: a page of links, a sitemap of URLs and a document that
    the XML parser refuses are read without the network. *)
Theorem parse_sends_only_for_an_index (L : libs) (depth : nat)
    (content : string) (w : world) :
  is_index_document L content = false →
  sent (parse_sitemap L depth content w).2 = sent w.
Proof.
  unfold is_index_document. intros Hindex.
  assert (Hq : sends (parse_sitemap L depth content) 0).
  { destruct depth as [|d]; cbn [parse_sitemap]; [quiet|].
    apply sends_after;
      [unfold parse_html, absolute_html_urls; quiet|intros [urls|]];
      [quiet|].
    apply sends_guarded; [|intros e; unfold regex_fallback; quiet].
    unfold lift. intros w0. rewrite bind_run.
    destruct (etree_fromstring L content) as [e|root].
    - exists []. by rewrite app_nil_r.
    - rewrite Hindex. exists []. by rewrite app_nil_r. }
  destruct (Hq w) as (l & -> & Hl). destruct l; [by rewrite app_nil_r|].
  cbn in Hl. lia.
Qed.

(** ** The files of a run *)

Lemma save_elsewhere L v w p :
  p ≠ KNOWN_URLS_FILE → p ≠ TEMP_FILE →
  files (save_known_urls L v w).2 !! p = files w !! p.
Proof.
  intros Hp1 Hp2. rewrite save_run. destruct (saved_value_dict v) as [d ->].
  set (w0 := if isinstance_dict v then w else _).
  replace (files w) with (files w0)
    by (subst w0; by destruct (isinstance_dict v)).
  clearbody w0. rewrite save_dict_run. run.
  destruct (json_dumps L (JDict d)) as [e|s]; run; [reflexivity|].
  destruct (decide (writable w0 TEMP_FILE)) as [Ht|Ht].
  - rewrite open_write_ok by exact Ht. run. unfold write_opened. run.
    match goal with |- context [os_replace ?a ?b ?w1] =>
      destruct (os_replace a b w1) as [[e|[]] w2] eqn:Hrep end.
    + apply os_replace_fails in Hrep. subst w2. cbn [any_exception]. run.
      cbn [files set_files appended snd]. by rewrite !lookup_insert_ne.
    + revert Hrep. unfold os_replace. cbn [files set_files write_denied].
      rewrite lookup_insert_eq.
      destruct (_ !! KNOWN_URLS_FILE) as [[?|]|];
        try destruct (decide (KNOWN_URLS_FILE ∈ write_denied w0));
        intros [= <-]; cbn [files set_files snd];
        by rewrite lookup_insert_ne, lookup_delete_ne, !lookup_insert_ne.
  - destruct (open_write_fails w0 TEMP_FILE Ht) as [e He]. rewrite He.
    cbn [any_exception]. run. reflexivity.
Qed.

Lemma keeps_check_one L known_urls u : keeps_disk (check_one L known_urls u).
Proof.
  unfold check_one. apply keeps_bind; [apply keeps_logger|intros _].
  apply keeps_bind.
  - apply keeps_try; [|intros e; keep].
    apply keeps_bind; [apply keeps_fetch_and_parse|intros c; keep].
  - intros [e|current]; [keep|].
    unfold register, diff, check_failed. keep.
Qed.

Lemma keeps_check_loop L known_urls urls :
  keeps_disk (check_loop L known_urls urls).
Proof.
  unfold check_loop. apply keeps_for_each. intros [acc k] u.
  unfold loop_body. apply keeps_bind; [apply keeps_check_one|].
  intros [r k']. keep.
Qed.

(** X21. A run of [check_sitemaps] changes no file but the store file,
    its temporary file and its backup: at any other path the disk is
    after the run what it was before, whatever the sites answer. *)
Theorem check_sitemaps_writes_only_the_store (L : libs)
    (urls : list string) (w : world) (p : string) :
  p ≠ KNOWN_URLS_FILE → p ≠ TEMP_FILE → p ≠ BACKUP_FILE →
  files (check_sitemaps L urls w).2 !! p = files w !! p.
Proof.
  intros Hstore Htemp Hbackup. unfold check_sitemaps. rewrite bind_run.
  assert (Hstart : files (starting_known_urls L w).2 !! p = files w !! p).
  { unfold starting_known_urls, os_path_exists. run.
    destruct (negb _); [reflexivity|]. rewrite try_except_run.
    pose proof (load_elsewhere L w p Hbackup) as Hl.
    destruct (load_known_urls L w) as [[e|v] w0]; [|exact Hl].
    cbn [any_exception]. run. exact Hl. }
  destruct (starting_known_urls L w) as [[e|k0] w0]; [exact Hstart|].
  cbn [snd] in Hstart. rewrite <- Hstart. rewrite bind_run.
  pose proof (keeps_check_loop L k0 urls w0) as (Hloop & _).
  destruct (check_loop L k0 urls w0) as [[e|[rs k]] w1]; cbn [snd] in Hloop;
    [cbn [snd]; by rewrite Hloop|].
  cbn beta iota. rewrite <- Hloop. rewrite bind_run, try_except_run.
  pose proof (save_elsewhere L k w1 p Hstore Htemp) as Hsave.
  destruct (truthy k); [|reflexivity].
  destruct (save_known_urls L k w1) as [[e|[]] w2]; cbn [snd] in Hsave;
    [|exact Hsave].
  cbn [any_exception]. run. exact Hsave.
Qed.

(** ** Two runs *)

(** A run over one URL, from the mapping it starts with. *)
Lemma check_sitemaps_one L u w k0 w0 r k w1 :
  starting_known_urls L w = (inr k0, w0) →
  check_one L k0 u w0 = (inr (r, k), w1) →
  ∃ w2,
    check_sitemaps L [u] w = (inr [r], w2)
    ∧ (if truthy k then (save_known_urls L k w1).2 else w1) = w2.
Proof.
  intros Hstart Hone. unfold check_sitemaps. rewrite bind_run, Hstart.
  cbn beta iota. unfold check_loop. cbn [for_each]. rewrite !bind_run.
  unfold loop_body at 1. rewrite bind_run. cbn [fst snd]. rewrite Hone.
  cbn beta iota. unfold mret at 1 2, M_ret. cbn beta iota.
  rewrite bind_run, try_except_run.
  destruct (truthy k).
  - destruct (save_total L k w1) as ([] & w2 & Hsave). rewrite Hsave.
    eexists. split; reflexivity.
  - eexists. split; reflexivity.
Qed.

(** X22. What a run reports is not reported again by the next run. On a
    disk without a store file where the store can be written, a run over
    one sitemap reports every URL of it and writes the store; the next
    run, when the sitemap lists the same URLs, reports none. The library
    is assumed to read back what it writes. *)
Theorem reported_urls_are_not_reported_again (L : libs) (u : string)
    (w w1 w' w2 : world) (current : gset string) (s : string) :
  files w !! KNOWN_URLS_FILE = None →
  writable w TEMP_FILE → writable w KNOWN_URLS_FILE →
  KNOWN_URLS_FILE ∉ read_denied w →
  json_dumps L (JDict {[u := stored current]}) = inr s →
  json_loads L s = inr (JDict {[u := stored current]}) →
  fetch_and_parse L u (fetching u w) = (inr current, w1) →
  (check_sitemaps L [u] w).2 = w' →
  fetch_and_parse L u (fetching u w') = (inr current, w2) →
  (check_sitemaps L [u] w).1
  = inr [Result u (size current) (elements current) EmptyString]
  ∧ files w' !! KNOWN_URLS_FILE = Some (File s)
  ∧ (check_sitemaps L [u] w').1
    = inr [Result u (size current) [] EmptyString].
Proof.
  intros Hnone Htemp Hstore Hread Hs Hl Hf1 Hw' Hf2.
  (* the first run *)
  assert (Hstart : starting_known_urls L w = (inr (JDict ∅), w)).
  { unfold starting_known_urls, os_path_exists. run. rewrite Hnone.
    rewrite bool_decide_eq_false_2 by (intros [? ?]; discriminate).
    reflexivity. }
  destruct (check_one_unknown L ∅ u w current w1 (lookup_empty u) Hf1)
    as [wa Hone].
  rewrite insert_empty in Hone.
  pose proof (keeps_check_one L (JDict ∅) u w) as (Hfa & Hra & Hda).
  rewrite Hone in Hfa, Hra, Hda. cbn [snd] in Hfa, Hra, Hda.
  destruct (check_sitemaps_one L u w _ _ _ _ _ Hstart Hone) as (wb & Hrun1 & Hwb).
  assert (Htruthy : truthy (JDict {[u := stored current]}) = true).
  { cbn [truthy]. rewrite bool_decide_eq_false_2; [done|].
    apply map_non_empty_singleton. }
  rewrite Htruthy in Hwb.
  assert (Hta : writable wa TEMP_FILE)
    by (destruct Htemp; split; by rewrite ?Hfa, ?Hda).
  assert (Hsa : writable wa KNOWN_URLS_FILE)
    by (destruct Hstore; split; by rewrite ?Hfa, ?Hda).
  rewrite (save_dict_ok L _ s wa Hs Hta Hsa) in Hwb. cbn [snd] in Hwb.
  rewrite Hrun1 in Hw'. cbn [snd] in Hw'. subst wb. subst w'.
  rewrite Hrun1. split; [reflexivity|].
  cbn [files set_files]. split; [apply lookup_insert_eq|].
  (* the second run *)
  set (w' := set_files _ wa) in *.
  assert (Hfile : files w' !! KNOWN_URLS_FILE = Some (File s))
    by apply lookup_insert_eq.
  assert (Hstart2 : starting_known_urls L w'
                    = (inr (JDict {[u := stored current]}), w')).
  { unfold starting_known_urls. rewrite bind_run.
    rewrite (path_exists_true _ _ _ Hfile). cbn [negb].
    rewrite try_except_run.
    rewrite (load_valid L w' s (JDict {[u := stored current]}) Hfile);
      [reflexivity| |exact Hl].
    subst w'. cbn [read_denied set_files]. by rewrite Hra. }
  destruct (check_one_stored_list L {[u := stored current]} u
              (elements current) w' current w2) as [wc Hone2].
  { apply lookup_singleton_eq. }
  { exact Hf2. }
  assert (He : current ∖ list_to_set (elements current) = ∅).
  { rewrite list_to_set_elements_L. set_solver. }
  rewrite He, elements_empty in Hone2.
  destruct (decide (∅ = ∅)) as [_|]; [|done].
  destruct (check_sitemaps_one L u w' _ _ _ _ _ Hstart2 Hone2)
    as (wd & Hrun2 & _).
  by rewrite Hrun2.
Qed.

(** ** The form of the web page *)

Lemma all_chars_lstrip p s :
  all_chars p s = true → all_chars p (Text.lstrip s) = true.
Proof.
  induction s as [|c s IH]; [done|]. cbn.
  destruct (PyStr.isspace c); [|done].
  intros [_ H]%andb_prop. by apply IH.
Qed.

Lemma all_chars_rstrip p s :
  all_chars p s = true → all_chars p (Text.rstrip s) = true.
Proof.
  induction s as [|c s IH]; [done|]. cbn.
  intros [Hc H]%andb_prop. specialize (IH H).
  destruct (Text.rstrip s) as [|c' r].
  - destruct (PyStr.isspace c); [done|]. cbn. by rewrite Hc.
  - cbn in *. by rewrite Hc, IH.
Qed.

Lemma split_not_nil sep s : Text.split sep s ≠ [].
Proof.
  destruct s as [|c s]; [done|]. cbn.
  destruct (Ascii.eqb c sep); [done|]. by destruct (Text.split sep s).
Qed.

Lemma split_without sep s :
  Forall (λ x, all_chars (λ c, negb (Ascii.eqb c sep)) x = true)
         (Text.split sep s).
Proof.
  induction s as [|c s IH]; cbn; [by repeat constructor|].
  destruct (Ascii.eqb c sep) eqn:Hc; [by constructor|].
  destruct (Text.split sep s) as [|x l]; [by repeat constructor; cbn; rewrite Hc|].
  inversion IH; subst. constructor; [|done]. cbn. by rewrite Hc.
Qed.

Lemma rstrip_cons c s :
  PyStr.isspace c = false →
  Text.rstrip (String c s) = String c (Text.rstrip s).
Proof. intros Hc. cbn. rewrite Hc. by destruct (Text.rstrip s). Qed.

Lemma rstrip_idem s : Text.rstrip (Text.rstrip s) = Text.rstrip s.
Proof.
  induction s as [|c s IH]; [done|]. cbn [Text.rstrip].
  destruct (Text.rstrip s) as [|c' r] eqn:Hr.
  - destruct (PyStr.isspace c) eqn:Hc; [done|]. by rewrite rstrip_cons.
  - cbn [Text.rstrip]. cbn [Text.rstrip] in IH.
    destruct (match Text.rstrip r with
              | EmptyString => _
              | String _ _ => _
              end); [discriminate IH|].
    by rewrite IH.
Qed.

Lemma lstrip_head s :
  Text.lstrip s = EmptyString
  ∨ ∃ c r, Text.lstrip s = String c r ∧ PyStr.isspace c = false.
Proof.
  induction s as [|c s IH]; [by left|]. cbn.
  destruct (PyStr.isspace c) eqn:Hc; [exact IH|]. right. eauto.
Qed.

Lemma strip_idem s : Text.strip (Text.strip s) = Text.strip s.
Proof.
  unfold Text.strip. destruct (lstrip_head s) as [->|(c & r & -> & Hc)];
    [done|].
  rewrite rstrip_cons by done. cbn [Text.lstrip]. rewrite Hc.
  by rewrite rstrip_cons, rstrip_idem.
Qed.

(** X23. Every URL that the form of the web page yields is a line of the
    text posted with the white space around it removed: it is not empty,
    has no white space at either end and holds no line feed. *)
Theorem form_urls_are_clean (sitemap_urls : string) :
  Forall (λ url, url ≠ EmptyString
                 ∧ Text.strip url = url
                 ∧ one_line url = true)
         (form_urls sitemap_urls).
Proof.
  unfold form_urls. apply Forall_fmap, Forall_forall. intros x Hx.
  apply list_elem_of_In, filter_In in Hx as [Hx Hne].
  apply list_elem_of_In in Hx. cbn. split; [|split].
  - intros He. by rewrite He in Hne.
  - apply strip_idem.
  - pose proof (split_without LF sitemap_urls) as Hall.
    rewrite Forall_forall in Hall.
    apply all_chars_rstrip, all_chars_lstrip, Hall, Hx.
Qed.

Lemma lstrip_blank s : all_chars PyStr.isspace s = true → Text.lstrip s = EmptyString.
Proof.
  induction s as [|c s IH]; [done|]. cbn. intros [-> H]%andb_prop. by apply IH.
Qed.

Lemma rstrip_blank s : all_chars PyStr.isspace s = true → Text.rstrip s = EmptyString.
Proof.
  induction s as [|c s IH]; [done|]. cbn. intros [-> H]%andb_prop.
  by rewrite IH.
Qed.

Lemma lstrip_after_blank a s :
  all_chars PyStr.isspace a = true → Text.lstrip (a +:+ s) = Text.lstrip s.
Proof.
  induction a as [|c a IH]; [done|]. rewrite app_cons. cbn.
  intros [-> H]%andb_prop. by apply IH.
Qed.

Lemma rstrip_before_blank s b :
  all_chars PyStr.isspace b = true → Text.rstrip (s +:+ b) = Text.rstrip s.
Proof.
  intros Hb. induction s as [|c s IH].
  - rewrite app_nil_l_str. by apply rstrip_blank.
  - rewrite app_cons. cbn. by rewrite IH.
Qed.

Lemma lstrip_length s : (String.length (Text.lstrip s) ≤ String.length s)%nat.
Proof.
  induction s as [|c s IH]; [done|]. cbn.
  destruct (PyStr.isspace c); cbn; lia.
Qed.

Lemma rstrip_length s : (String.length (Text.rstrip s) ≤ String.length s)%nat.
Proof.
  induction s as [|c s IH]; [done|]. cbn.
  destruct (Text.rstrip s); [destruct (PyStr.isspace c)|]; cbn in *; lia.
Qed.

Lemma strip_fixed_head c s :
  Text.strip (String c s) = String c s → PyStr.isspace c = false.
Proof.
  unfold Text.strip. cbn [Text.lstrip].
  destruct (PyStr.isspace c); [|done]. intros H.
  pose proof (rstrip_length (Text.lstrip s)) as H1.
  pose proof (lstrip_length s) as H2. rewrite H in H1. cbn in H1. lia.
Qed.

Lemma strip_padded before url after :
  all_chars PyStr.isspace before = true →
  all_chars PyStr.isspace after = true →
  Text.strip url = url →
  Text.strip (before +:+ url +:+ after) = url.
Proof.
  intros Hb Ha Hu. unfold Text.strip. rewrite lstrip_after_blank by done.
  destruct url as [|c u].
  - rewrite app_nil_l_str, lstrip_blank by done. done.
  - pose proof (strip_fixed_head _ _ Hu) as Hc.
    revert Hu. unfold Text.strip. rewrite app_cons. cbn [Text.lstrip].
    rewrite Hc. intros Hu. rewrite <- app_cons.
    by rewrite rstrip_before_blank.
Qed.

Lemma split_one sep s :
  all_chars (λ c, negb (Ascii.eqb c sep)) s = true → Text.split sep s = [s].
Proof.
  induction s as [|c s IH]; [done|]. cbn.
  intros [Hc H]%andb_prop. apply negb_true_iff in Hc. rewrite Hc.
  by rewrite IH.
Qed.

Lemma split_line sep s rest :
  all_chars (λ c, negb (Ascii.eqb c sep)) s = true →
  Text.split sep (s +:+ String sep rest) = s :: Text.split sep rest.
Proof.
  induction s as [|c s IH].
  - intros _. rewrite app_nil_l_str. cbn. by rewrite Ascii.eqb_refl.
  - cbn [all_chars]. intros [Hc H]%andb_prop. apply negb_true_iff in Hc.
    rewrite app_cons. cbn [Text.split]. rewrite Hc. by rewrite IH.
Qed.

Lemma split_join sep lines :
  lines ≠ [] →
  Forall (λ x, all_chars (λ c, negb (Ascii.eqb c sep)) x = true) lines →
  Text.split sep (Scenario.join (String sep EmptyString) lines) = lines.
Proof.
  intros Hne Hall. induction Hall as [|x l Hx Hl IH]; [done|].
  destruct l as [|y l].
  - cbn. by apply split_one.
  - change (Scenario.join (String sep EmptyString) (x :: y :: l))
      with (x +:+ String sep EmptyString
              +:+ Scenario.join (String sep EmptyString) (y :: l)).
    change (String sep EmptyString +:+ ?r) with (String sep r).
    rewrite split_line by done. by rewrite IH.
Qed.

(** X24. A text of lines that each hold one URL, with white space before
    or after it as a carriage return is, gives back the URLs in their
    order; the lines that hold white space only are left out. *)
Theorem form_urls_reads_back_lines
    (lines : list (string * string * string)) :
  forallb padded_url lines = true →
  form_urls (Scenario.join (String LF EmptyString) (line_text <$> lines))
  = List.filter (λ url, negb (String.eqb url EmptyString))
      (line_url <$> lines).
Proof.
  intros Hall. unfold form_urls.
  destruct lines as [|l0 lines0] eqn:Hl; [reflexivity|]. rewrite <- Hl in *.
  assert (Hne : line_text <$> lines ≠ []) by by rewrite Hl.
  clear Hl. rewrite split_join; [clear Hne|done|].
  - induction lines as [|[[b u] a] lines IH]; [reflexivity|].
    cbn [forallb] in Hall. apply andb_prop in Hall as [Hline Hall].
    specialize (IH Hall). unfold padded_url in Hline.
    repeat (apply andb_prop in Hline as [Hline ?]).
    assert (Hs : Text.strip (line_text (b, u, a)) = u).
    { apply strip_padded; [done|done|by apply String.eqb_eq]. }
    rewrite !fmap_cons. cbn [List.filter]. rewrite Hs.
    change (line_url (b, u, a)) with u.
    destruct (negb (String.eqb u EmptyString));
      [rewrite fmap_cons, Hs|]; by rewrite IH.
  - clear Hne. induction lines as [|[[b u] a] lines IH]; [constructor|].
    cbn [forallb] in Hall. apply andb_prop in Hall as [Hline Hall].
    rewrite fmap_cons. constructor; [|by apply IH].
    unfold padded_url, one_line in Hline.
    repeat (apply andb_prop in Hline as [Hline ?]).
    cbn [line_text]. rewrite !all_chars_app.
    repeat (apply andb_true_intro; split); done.
Qed.

(** ** The configuration of the bot *)

Lemma update_run L I urls s w :
  json_dumps L (config_of urls) = inr s →
  writable w SITEMAP_CONFIG_FILE →
  update_sitemap_urls L I urls w
  = (inr true,
     appended [LogRecord INFO "Updated sitemap URLs: {urls}"
                 [LStr (str_of I urls)]]
       (set_files (<[SITEMAP_CONFIG_FILE := File s]> (files w)) w)).
Proof.
  intros Hs Hw. unfold update_sitemap_urls. run.
  rewrite open_write_ok by exact Hw. run. unfold json_dump.
  fold (config_of urls). rewrite Hs. unfold write_opened. run.
  f_equal. apply world_ext; cbn; try reflexivity.
  by rewrite insert_insert_eq.
Qed.

Lemma update_blocked L I urls w :
  ¬ writable w SITEMAP_CONFIG_FILE →
  ∃ e,
    update_sitemap_urls L I urls w
    = (inr false,
       appended [LogRecord ERROR "Error updating sitemap URLs: {str(e)}"
                   [LStr (exn_str e)]] w).
Proof.
  intros Hw. destruct (open_write_fails w _ Hw) as [e He]. exists e.
  unfold update_sitemap_urls. run. rewrite He. reflexivity.
Qed.

Lemma get_stored L I w c d :
  files w !! SITEMAP_CONFIG_FILE = Some (File c) →
  SITEMAP_CONFIG_FILE ∉ read_denied w →
  json_loads L c = inr (JDict d) →
  get_sitemap_urls L I w
  = (inr (default DEFAULT_SITEMAP_URLS (d !! "sitemap_urls")), w).
Proof.
  intros Hf Hr Hl. unfold get_sitemap_urls. run.
  rewrite (path_exists_true _ _ _ Hf). run.
  rewrite (read_file_ok _ _ _ Hf Hr). run. rewrite Hl. run.
  unfold py_get. by destruct (d !! "sitemap_urls").
Qed.

(** X25. A list of URLs written by [update_sitemap_urls] is what the
    next [get_sitemap_urls] returns, when the configuration file can be
    written and read; the library is assumed to read back what it
    writes. *)
Theorem config_round_trip (L : libs) (I : interpreter) (urls : json)
    (s : string) (w : world) :
  json_dumps L (config_of urls) = inr s →
  json_loads L s = inr (config_of urls) →
  writable w SITEMAP_CONFIG_FILE →
  SITEMAP_CONFIG_FILE ∉ read_denied w →
  ∃ w1,
    update_sitemap_urls L I urls w = (inr true, w1)
    ∧ files w1 !! SITEMAP_CONFIG_FILE = Some (File s)
    ∧ get_sitemap_urls L I w1 = (inr urls, w1).
Proof.
  intros Hs Hl Hw Hr. rewrite (update_run L I urls s w Hs Hw).
  eexists. split; [reflexivity|]. cbn [files set_files appended].
  split; [apply lookup_insert_eq|].
  erewrite (get_stored L I _ s); [|apply lookup_insert_eq|exact Hr|exact Hl].
  by rewrite lookup_singleton_eq.
Qed.


(** X27. The URLs posted with the form are what [get_sitemap_urls]
    returns afterwards, cleaned as the form cleans them, when the
    configuration file can be written and read and the library reads
    back what it writes. *)
Theorem posted_urls_are_configured (L : libs) (I : interpreter)
    (form : gmap string string) (text s : string) (w : world) :
  form !! "sitemap_urls" = Some text →
  json_dumps L (config_of (JList (JStr <$> form_urls text))) = inr s →
  json_loads L s = inr (config_of (JList (JStr <$> form_urls text))) →
  writable w SITEMAP_CONFIG_FILE →
  SITEMAP_CONFIG_FILE ∉ read_denied w →
  ∃ flash w1,
    update_sitemaps L I form w = (inr flash, w1)
    ∧ get_sitemap_urls L I w1 = (inr (JList (JStr <$> form_urls text)), w1).
Proof.
  intros Hform Hs Hl Hw Hr. unfold update_sitemaps. rewrite Hform.
  unfold default. cbn [from_option id].
  run. rewrite (update_run L I _ s w Hs Hw). run.
  eexists _, _. split; [reflexivity|].
  erewrite (get_stored L I _ s);
    [|apply lookup_insert_eq|exact Hr|exact Hl].
  by rewrite lookup_singleton_eq.
Qed.

Lemma update_total L I urls : never_raises (update_sitemap_urls L I urls).
Proof.
  intros w. destruct (decide (writable w SITEMAP_CONFIG_FILE)) as [Hw|Hw].
  - unfold update_sitemap_urls. run. rewrite open_write_ok by exact Hw.
    run. unfold json_dump.
    destruct (json_dumps L _) as [e|s]; unfold write_opened; run; eauto.
  - destruct (update_blocked L I urls w Hw) as [e ->]. eauto.
Qed.

(** X28. The handler of the form reports success whatever happened: it
    never raises and its message is always the same, also when the
    configuration file cannot be written and the disk stays as it was. *)
Theorem update_sitemaps_always_reports_success (L : libs) (I : interpreter)
    (form : gmap string string) (w : world) :
  ∃ w',
    update_sitemaps L I form w
    = (inr ("Sitemap URLs have been updated successfully", "success"), w')
    ∧ (¬ writable w SITEMAP_CONFIG_FILE → files w' = files w).
Proof.
  unfold update_sitemaps. run.
  set (urls := JList _).
  destruct (decide (writable w SITEMAP_CONFIG_FILE)) as [Hw|Hw].
  - destruct (update_total L I urls w) as (b & w' & ->). run.
    eexists. split; [reflexivity|done].
  - destruct (update_blocked L I urls w Hw) as [e ->]. run.
    eexists. split; [reflexivity|done].
Qed.

(** ** The name of the file of a notification *)

Lemma all_chars_keep p s : all_chars p (keep_chars p s) = true.
Proof.
  induction s as [|c s IH]; [done|]. cbn.
  destruct (p c) eqn:Hc; [|done]. cbn. by rewrite Hc.
Qed.

Lemma all_chars_substring p s : ∀ n m,
  all_chars p s = true → all_chars p (String.substring n m s) = true.
Proof.
  induction s as [|c s IH]; intros n m Hs.
  - by destruct n, m.
  - cbn in Hs. apply andb_prop in Hs as [Hc Hs].
    destruct n as [|n]; [destruct m as [|m]; [done|]|]; cbn.
    + by rewrite Hc, (IH 0%nat m).
    + by apply IH.
Qed.

Lemma substring_length_le s : ∀ n m,
  (String.length (String.substring n m s) ≤ m)%nat.
Proof.
  induction s as [|c s IH]; intros n m.
  - destruct n, m; cbn; lia.
  - destruct n as [|n]; [destruct m as [|m]|]; cbn; [lia| |apply IH].
    specialize (IH 0%nat m). lia.
Qed.

Lemma safe_site_name_chars site_name :
  safe_site_name site_name ≠ EmptyString
  ∧ all_chars name_char (safe_site_name site_name) = true.
Proof.
  unfold safe_site_name.
  destruct (String.eqb _ EmptyString) eqn:He; [by split|].
  apply String.eqb_neq in He. split; [done|].
  apply all_chars_rstrip, all_chars_keep.
Qed.

(** X29. The file that a notification writes is named by the prefix
    [new_urls_], at least one and at most fifty characters that are
    letters, digits, hyphens or underscores, and [.txt]: whatever the URL
    of the sitemap, the name holds no slash, no dot before the
    extension and no white space, so the file lies in the working
    directory. *)
Theorem notification_file_is_plain (site_name : string) :
  ∃ name,
    notification_file site_name = "new_urls_" +:+ name +:+ ".txt"
    ∧ name ≠ EmptyString
    ∧ (String.length name ≤ 50)%nat
    ∧ all_chars name_char name = true
    ∧ all_chars (λ c, negb (existsb (Ascii.eqb c)
                              ["/"%char; "\"%char; "."%char; " "%char]))
        name = true.
Proof.
  destruct (safe_site_name_chars site_name) as [Hne Hall].
  exists (PyStr.slice_to 50 (safe_site_name site_name)).
  split; [reflexivity|]. unfold PyStr.slice_to. split; [|split; [|split]].
  - destruct (safe_site_name site_name); done.
  - apply substring_length_le.
  - by apply all_chars_substring.
  - apply all_chars_substring. clear Hne.
    induction (safe_site_name site_name) as [|c s IH]; [done|].
    cbn [all_chars] in *. apply andb_prop in Hall as [Hc Hs].
    rewrite IH by done. rewrite andb_true_r.
    revert Hc. generalize c. clear.
    intros c. destruct c as [[] [] [] [] [] [] [] []]; vm_compute; congruence.
Qed.

(** ** The further properties at the examples *)

Lemma save_then_load_witness :
  ∃ w1,
    save_known_urls Scenario.store_libs Scenario.STORE_A Scenario.blank
    = (inr (), w1)
    ∧ files w1 !! KNOWN_URLS_FILE = Some (File Scenario.STORE_A_INDENTED)
    ∧ load_known_urls Scenario.store_libs w1 = (inr Scenario.STORE_A, w1).
Proof.
  destruct (save_then_load Scenario.store_libs
              {[Scenario.SITEMAP_A := JList [JStr Scenario.P1; JStr Scenario.P2]]}
              Scenario.STORE_A_INDENTED Scenario.blank)
    as (w1 & Hsave & Hfile & _ & Hload).
  - vm_compute. reflexivity.
  - vm_compute. reflexivity.
  - apply (bool_decide_unpack _). vm_compute. exact I.
  - apply (bool_decide_unpack _). vm_compute. exact I.
  - intros H. apply (bool_decide_pack _) in H. vm_compute in H. exact H.
  - exists w1. split; [exact Hsave|]. split; [exact Hfile|exact Hload].
Defined.

Lemma load_known_urls_other_failures_witness :
  load_known_urls Scenario.store_libs Cases.store_is_dir
  = (inr (JDict ∅),
     appended
       [LogRecord ERROR "Error loading known URLs: {str(e)}"
          [LStr (exn_str (os_error "[Errno 21] Is a directory"
                            KNOWN_URLS_FILE))]]
       Cases.store_is_dir).
Proof.
  apply (load_known_urls_other_failures Scenario.store_libs
           Cases.store_is_dir
           (os_error "[Errno 21] Is a directory" KNOWN_URLS_FILE)).
  split.
  - exists Dir. vm_compute. reflexivity.
  - left. vm_compute. reflexivity.
Defined.

Lemma removed_urls_stay_stored_witness :
  ∃ w',
    check_one Scenario.site_a (JDict Cases.STORE_OLD) Scenario.SITEMAP_A
      Scenario.blank
    = (inr (Result Scenario.SITEMAP_A
              (size ({[Scenario.P1; Scenario.P2]} : gset string)) []
              EmptyString,
            JDict Cases.STORE_OLD), w').
Proof.
  apply (removed_urls_stay_stored Scenario.site_a Cases.STORE_OLD
           Scenario.SITEMAP_A [Scenario.P1; Scenario.P2; Cases.OLD]
           Scenario.blank
           (fetch_and_parse Scenario.site_a Scenario.SITEMAP_A
              (fetching Scenario.SITEMAP_A Scenario.blank)).2
           {[Scenario.P1; Scenario.P2]}).
  - vm_compute. reflexivity.
  - apply (bool_decide_unpack _). vm_compute. exact I.
  - vm_compute. reflexivity.
Defined.

Lemma new_urls_replace_stored_witness :
  ∃ r w',
    check_one Scenario.site_a (JDict Cases.STORE_P1) Scenario.SITEMAP_A
      Scenario.blank
    = (inr (r, JDict (<[Scenario.SITEMAP_A :=
                          stored {[Scenario.P1; Scenario.P2]}]>
                        Cases.STORE_P1)), w')
    ∧ ∀ x, x ∈ new_urls r ↔
           x ∈ ({[Scenario.P1; Scenario.P2]} : gset string)
           ∧ x ∉ [Scenario.P1].
Proof.
  destruct (new_urls_replace_stored Scenario.site_a Cases.STORE_P1
              Scenario.SITEMAP_A [Scenario.P1] Scenario.blank
              (fetch_and_parse Scenario.site_a Scenario.SITEMAP_A
                 (fetching Scenario.SITEMAP_A Scenario.blank)).2
              {[Scenario.P1; Scenario.P2]})
    as (r & w' & Hrun & _ & _ & _ & Hnew).
  - vm_compute. reflexivity.
  - intros H. apply (bool_decide_pack _) in H. vm_compute in H. exact H.
  - vm_compute. reflexivity.
  - exists r, w'. split; [exact Hrun|exact Hnew].
Defined.

Lemma repeated_check_reports_none_witness :
  let first :=
    check_one Scenario.site_a (JDict ∅) Scenario.SITEMAP_A Scenario.blank in
  ∃ w'',
    check_one Scenario.site_a Scenario.STORE_A Scenario.SITEMAP_A first.2
    = (inr (Result Scenario.SITEMAP_A
              (size ({[Scenario.P1; Scenario.P2]} : gset string)) []
              EmptyString,
            Scenario.STORE_A), w'').
Proof.
  apply (repeated_check_reports_none Scenario.site_a ∅
           {[Scenario.SITEMAP_A := JList [JStr Scenario.P1; JStr Scenario.P2]]}
           Scenario.SITEMAP_A Scenario.blank
           (fetch_and_parse Scenario.site_a Scenario.SITEMAP_A
              (fetching Scenario.SITEMAP_A Scenario.blank)).2
           (check_one Scenario.site_a (JDict ∅) Scenario.SITEMAP_A
              Scenario.blank).2
           (fetch_and_parse Scenario.site_a Scenario.SITEMAP_A
              (fetching Scenario.SITEMAP_A
                 (check_one Scenario.site_a (JDict ∅) Scenario.SITEMAP_A
                    Scenario.blank).2)).2
           {[Scenario.P1; Scenario.P2]}
           (Result Scenario.SITEMAP_A 2 [Scenario.P1; Scenario.P2]
              EmptyString)).
  - left. reflexivity.
  - vm_compute. reflexivity.
  - vm_compute. reflexivity.
  - vm_compute. reflexivity.
Defined.

Lemma non_dict_store_fails_every_check_witness :
  ∃ e w',
    check_one Scenario.site_a (JList []) Scenario.SITEMAP_A Scenario.blank
    = (inr (Result Scenario.SITEMAP_A
              (size ({[Scenario.P1; Scenario.P2]} : gset string)) []
              (exn_str e), JList []), w')
    ∧ exn_cls e = TypeError
    ∧ exn_str e ≠ EmptyString.
Proof.
  apply (non_dict_store_fails_every_check Scenario.site_a (JList [])
           Scenario.SITEMAP_A Scenario.blank
           (fetch_and_parse Scenario.site_a Scenario.SITEMAP_A
              (fetching Scenario.SITEMAP_A Scenario.blank)).2
           {[Scenario.P1; Scenario.P2]}).
  - reflexivity.
  - vm_compute. reflexivity.
Defined.

Lemma http_error_status_is_raised_witness :
  ∃ e w',
    fetch_sitemap Cases.site_gone 1 Scenario.SITEMAP_A false Scenario.blank
    = (inl e, w')
    ∧ exn_cls e = RequestException
    ∧ sent w' = [Scenario.SITEMAP_A].
Proof.
  apply (http_error_status_is_raised Cases.site_gone 0 Scenario.SITEMAP_A
           false Scenario.blank (UrlParts "https" "a.test") Cases.GONE).
  - vm_compute. reflexivity.
  - vm_compute. reflexivity.
  - vm_compute. reflexivity.
  - vm_compute. reflexivity.
  - cbn. lia.
Defined.

Lemma xml_body_is_returned_as_is_witness :
  ∃ w',
    fetch_sitemap Scenario.site_a 1 Scenario.SITEMAP_A false Scenario.blank
    = (inr Scenario.URLSET_A, w')
    ∧ sent w' = [Scenario.SITEMAP_A]
    ∧ files w' = ∅.
Proof.
  apply (xml_body_is_returned_as_is Scenario.site_a 0 Scenario.SITEMAP_A
           false Scenario.blank (UrlParts "https" "a.test")
           (Response 200 "OK" Scenario.SITEMAP_A (Some "application/xml")
              Scenario.URLSET_A)).
  - vm_compute. reflexivity.
  - vm_compute. reflexivity.
  - vm_compute. reflexivity.
  - vm_compute. reflexivity.
  - vm_compute. reflexivity.
  - left. cbn. lia.
  - vm_compute. reflexivity.
Defined.

Lemma flagged_robots_is_not_followed_witness :
  ∃ r w',
    fetch_sitemap Scenario.site_robots 1 Scenario.ROBOTS_1 true Scenario.blank
    = (r, w')
    ∧ sent w' = [Scenario.ROBOTS_1]
    ∧ r = inr ("Sitemap: " +:+ Scenario.PAGE_2).
Proof.
  destruct (flagged_robots_is_not_followed Scenario.site_robots 0
              Scenario.ROBOTS_1 Scenario.blank (UrlParts "https" "a.test")
              (Response 200 "OK" Scenario.ROBOTS_1 (Some "text/plain")
                 ("Sitemap: " +:+ Scenario.PAGE_2)))
    as (r & w' & Hrun & Hsent & Hr).
  - vm_compute. reflexivity.
  - vm_compute. reflexivity.
  - vm_compute. reflexivity.
  - vm_compute. reflexivity.
  - left. cbn. lia.
  - exists r, w'. split; [exact Hrun|]. split; [exact Hsent|].
    rewrite Hr. vm_compute. reflexivity.
Defined.

Lemma twitter_is_refused_unrequested_witness :
  ∃ w',
    check_one Scenario.site_a Scenario.STORE_A "https://Twitter.com/home"
      Scenario.blank
    = (inr (Result "https://Twitter.com/home" 0 []
              "This site doesn't provide public sitemaps",
            Scenario.STORE_A), w')
    ∧ sent w' = []
    ∧ files w' = ∅.
Proof.
  apply (twitter_is_refused_unrequested Scenario.site_a Scenario.STORE_A
           "https://Twitter.com/home" Scenario.blank
           (UrlParts "https" "Twitter.com")).
  - cbn. lia.
  - vm_compute. reflexivity.
  - left. vm_compute. reflexivity.
Defined.

Lemma standard_sitemap_lists_its_locs_witness :
  ∃ urls,
    parse_sitemap Scenario.site_a 1 Scenario.URLSET_A Scenario.blank
    = (inr urls, Scenario.blank)
    ∧ ∀ u, u ∈ urls ↔ selected "url" Scenario.URLSET_A_ROOT u.
Proof.
  apply (standard_sitemap_lists_its_locs Scenario.site_a 0 Scenario.URLSET_A
           Scenario.blank Scenario.URLSET_A_ROOT).
  - vm_compute. reflexivity.
  - vm_compute. reflexivity.
  - vm_compute. reflexivity.
Defined.


Lemma parse_sends_only_for_an_index_witness :
  sent (parse_sitemap Scenario.site_a 1 Scenario.URLSET_A Scenario.blank).2
  = [].
Proof.
  apply (parse_sends_only_for_an_index Scenario.site_a 1 Scenario.URLSET_A
           Scenario.blank).
  vm_compute. reflexivity.
Defined.

Lemma check_sitemaps_writes_only_the_store_witness :
  files (check_sitemaps Scenario.site_a_disk [Scenario.SITEMAP_A]
           Cases.config_disk).2 !! Cases.CONFIG_FILE
  = Some (File "{}").
Proof.
  rewrite (check_sitemaps_writes_only_the_store Scenario.site_a_disk
             [Scenario.SITEMAP_A] Cases.config_disk Cases.CONFIG_FILE).
  - vm_compute. reflexivity.
  - vm_compute. discriminate.
  - vm_compute. discriminate.
  - vm_compute. discriminate.
Defined.

Lemma form_urls_reads_back_lines_witness :
  form_urls
    (Scenario.join (String LF EmptyString)
       (line_text <$> Cases.FORM_LINES))
  = ["https://a.test/sitemap.xml"; "https://b.test/"].
Proof.
  rewrite (form_urls_reads_back_lines Cases.FORM_LINES).
  - vm_compute. reflexivity.
  - vm_compute. reflexivity.
Defined.

Lemma config_round_trip_witness :
  ∃ w1,
    update_sitemap_urls Cases.config_libs Cases.python Cases.FORM_URLS
      Scenario.blank
    = (inr true, w1)
    ∧ get_sitemap_urls Cases.config_libs Cases.python w1
      = (inr Cases.FORM_URLS, w1).
Proof.
  destruct (config_round_trip Cases.config_libs Cases.python Cases.FORM_URLS
              (Cases.dumped (config_of Cases.FORM_URLS)) Scenario.blank)
    as (w1 & Hupdate & _ & Hget).
  - vm_compute. reflexivity.
  - vm_compute. reflexivity.
  - apply (bool_decide_unpack _). vm_compute. exact I.
  - intros H. apply (bool_decide_pack _) in H. vm_compute in H. exact H.
  - exists w1. split; [exact Hupdate|exact Hget].
Defined.

Lemma posted_urls_are_configured_witness :
  ∃ flash w1,
    update_sitemaps Cases.config_libs Cases.python
      {["sitemap_urls" := Cases.FORM_TEXT]} Scenario.blank
    = (inr flash, w1)
    ∧ get_sitemap_urls Cases.config_libs Cases.python w1
      = (inr (JList (JStr <$> form_urls Cases.FORM_TEXT)), w1)
    ∧ JList (JStr <$> form_urls Cases.FORM_TEXT) = Cases.FORM_URLS.
Proof.
  destruct (posted_urls_are_configured Cases.config_libs Cases.python
              {["sitemap_urls" := Cases.FORM_TEXT]} Cases.FORM_TEXT
              (Cases.dumped (config_of Cases.FORM_URLS)) Scenario.blank)
    as (flash & w1 & Hpost & Hget).
  - vm_compute. reflexivity.
  - vm_compute. reflexivity.
  - vm_compute. reflexivity.
  - apply (bool_decide_unpack _). vm_compute. exact I.
  - intros H. apply (bool_decide_pack _) in H. vm_compute in H. exact H.
  - exists flash, w1. split; [exact Hpost|]. split; [exact Hget|].
    vm_compute. reflexivity.
Defined.

Lemma special_hosts_are_redirected_witness :
  ∃ rest,
    sent (fetch_sitemap Scenario.site_a 1 "https://GitHub.com/rocq-prover/rocq"
            false Scenario.blank).2
    = "https://github.com/" :: rest.
Proof.
  apply (special_hosts_are_redirected Scenario.site_a 0
           "https://GitHub.com/rocq-prover/rocq" false Scenario.blank
           (UrlParts "https" "GitHub.com") "https://github.com/").
  - vm_compute. reflexivity.
  - left. split; [vm_compute; reflexivity|].
    split; [vm_compute; reflexivity|reflexivity].
Defined.

Lemma reported_urls_are_not_reported_again_witness :
  let first :=
    check_sitemaps Scenario.site_a_disk [Scenario.SITEMAP_A] Scenario.blank in
  first.1
  = inr [Result Scenario.SITEMAP_A
           (size ({[Scenario.P1; Scenario.P2]} : gset string))
           (elements ({[Scenario.P1; Scenario.P2]} : gset string))
           EmptyString]
  ∧ files first.2 !! KNOWN_URLS_FILE = Some (File Scenario.STORE_A_INDENTED)
  ∧ (check_sitemaps Scenario.site_a_disk [Scenario.SITEMAP_A] first.2).1
    = inr [Result Scenario.SITEMAP_A
             (size ({[Scenario.P1; Scenario.P2]} : gset string)) []
             EmptyString].
Proof.
  apply (reported_urls_are_not_reported_again Scenario.site_a_disk
           Scenario.SITEMAP_A Scenario.blank
           (fetch_and_parse Scenario.site_a_disk Scenario.SITEMAP_A
              (fetching Scenario.SITEMAP_A Scenario.blank)).2
           (check_sitemaps Scenario.site_a_disk [Scenario.SITEMAP_A]
              Scenario.blank).2
           (fetch_and_parse Scenario.site_a_disk Scenario.SITEMAP_A
              (fetching Scenario.SITEMAP_A
                 (check_sitemaps Scenario.site_a_disk [Scenario.SITEMAP_A]
                    Scenario.blank).2)).2
           {[Scenario.P1; Scenario.P2]} Scenario.STORE_A_INDENTED).
  - reflexivity.
  - apply (bool_decide_unpack _). vm_compute. exact I.
  - apply (bool_decide_unpack _). vm_compute. exact I.
  - intros H. apply (bool_decide_pack _) in H. vm_compute in H. exact H.
  - vm_compute. reflexivity.
  - vm_compute. reflexivity.
  - vm_compute. reflexivity.
  - reflexivity.
  - vm_compute. reflexivity.
Defined.
